(** * The quiz session engine of the aptitude-test application

    A shallow embedding of the two Flask applications of the repository:

    - [Major]: [Major_Project/ReportGenerator-for-LLMBasedMCQGenerator/app.py],
      the application with the answer ledger ([session['user_answers']]) and
      the report aggregation of [results];
    - [Original]: [project_files/app.py], the earlier one-question-at-a-time
      application with a running score counter.

    Conventions of the embedding.

    - The Flask session is a record of optional fields: a key that is absent
      from the session is [None], [session.pop(k, None)] sets it to [None] and
      [session.clear()] gives [empty_session].
    - A question is the dictionary of the prompt's JSON schema.  Keys the code
      reads with [q[...]] are plain fields, keys it reads with [q.get(...)]
      are optional fields.
    - Python integers are [Z].  [time.time()] is an input of the handlers;
      clock values and ratios are exact rationals ([Qc]), so the rounding
      error of binary floating point is left out.
    - A handler returns its outcome (a response or an uncaught exception), the
      session it leaves behind and the calls it made to external services
      (the language-model API, the identity service, the document store), in
      the order it made them.  What an external service answers is an input
      of the handler.
    - Inputs have the types the pages of the application send and the prompt
      asks for: the question count of the form is a decimal integer, a
      question index is a JSON integer or [null], and a reply of the language
      model is a list of question objects.  Input of another type (text that
      is not a number, a boolean index, list items that are not objects) is
      not modelled, and the properties below say nothing about it. *)

From Stdlib Require Import ZArith QArith Qcanon Qround Lia.
From stdpp Require Import base numbers option list strings pretty gmap.

Local Open Scope Z_scope.

(** ** Python values and operations used by the handlers *)

Module Py.

Inductive exn : Type :=
| KeyError (key : string)
| IndexError
| ZeroDivisionError
| ExternalFailure.

Inductive outcome (A : Type) : Type :=
| Ok (a : A)
| Raise (e : exn).
Arguments Ok {A} a.
Arguments Raise {A} e.

(** Sequencing: an exception skips the rest of the block. *)
#[global] Instance outcome_bind : MBind outcome := λ A B k m,
  match m with
  | Ok a => k a
  | Raise e => Raise e
  end.

(** [try: m except Exception: h] *)
Definition try_except {A} (m : outcome A) (h : exn → outcome A) : outcome A :=
  match m with
  | Ok a => Ok a
  | Raise e => h e
  end.

(** [str(i)] on an integer: decimal digits, with a leading minus sign. *)
Definition str (i : Z) : string := pretty i.
Arguments str : simpl never.

(** [xs[:n]]: the first [n] elements; a negative [n] counts from the end. *)
Definition slice_to {A} (xs : list A) (n : Z) : list A :=
  if bool_decide (0 ≤ n) then take (Z.to_nat n) xs
  else take (Z.to_nat (Z.of_nat (length xs) + n)) xs.

(** Position addressed by [xs[i]]: negative indices wrap once. *)
Definition position {A} (xs : list A) (i : Z) : option nat :=
  let n := Z.of_nat (length xs) in
  if bool_decide (0 ≤ i < n) then Some (Z.to_nat i)
  else if bool_decide (- n ≤ i < 0) then Some (Z.to_nat (n + i))
  else None.

(** [xs[i]] *)
Definition getitem {A} (xs : list A) (i : Z) : outcome A :=
  match position xs i with
  | Some k => match xs !! k with Some x => Ok x | None => Raise IndexError end
  | None => Raise IndexError
  end.

(** [xs[i] = v] *)
Definition setitem {A} (xs : list A) (i : Z) (v : A) : outcome (list A) :=
  match position xs i with
  | Some k => Ok (<[k := v]> xs)
  | None => Raise IndexError
  end.

(** [a / b] on integers. *)
Definition truediv (a b : Z) : outcome Qc :=
  if bool_decide (b = 0) then Raise ZeroDivisionError
  else Ok (Qc_of_Z a / Qc_of_Z b)%Qc.

(** [max(0, x)]: the first argument unless the second is larger. *)
Definition max0 (x : Qc) : Qc :=
  if bool_decide (0 < x)%Qc then x else 0%Qc.

(** [round(x)]: nearest integer, ties to the even one. *)
Definition round (x : Qc) : Z :=
  let f := Qfloor x in
  let d := (x - Qc_of_Z f)%Qc in
  let half := (1 / 2)%Qc in
  if bool_decide (d < half)%Qc then f
  else if bool_decide (half < d)%Qc then f + 1
  else if Z.even f then f else f + 1.

(** [int(x)]: truncation towards zero. *)
Definition int_of (x : Qc) : Z :=
  if bool_decide (x < 0)%Qc then Qceiling x else Qfloor x.

(** [round(x, 2)] *)
Definition round2 (x : Qc) : Qc :=
  (Qc_of_Z (round (x * Qc_of_Z 100)) / Qc_of_Z 100)%Qc.

End Py.

Import Py.

(** ** Data shared by both applications *)

(** One question, as requested from the language model: an object
    [{"chapter", "question", "options", "correct_answer", "solution"}],
    tagged with ["subject"] by [index].  The question text and the correct
    answer are strings; chapter, solution and subject are strings or absent
    ([None]).  Items of another shape (a value that is not an object, an
    object without ["correct_answer"], a [null] chapter) are outside this
    type. *)
Record Question : Type := {
  chapter : option string;
  question : string;
  options : list (string * string);
  correct_answer : string;
  solution : option string;
  subject : option string;
}.

Definition SUBJECTS : list string :=
  ["Logical Reasoning"; "Quantitative Aptitude"; "Verbal Ability"]%string.

(** [questions_per_subject + (1 if i < remaining_questions else 0)], with
    [//] and [%] of Python (floor division, which [Z.div] and [Z.modulo] are
    for a positive divisor). *)
Definition q_count (num_questions : Z) (k : nat) (i : nat) : Z :=
  let questions_per_subject := num_questions `div` Z.of_nat k in
  let remaining_questions := num_questions `mod` Z.of_nat k in
  questions_per_subject + (if bool_decide (Z.of_nat i < remaining_questions) then 1 else 0).

(** [min(int(request.form.get('num_questions', 5)), 30)] *)
Definition clamp_num_questions (form_value : option Z) : Z :=
  Z.min (default 5 form_value) 30.

(** ** The application with the answer ledger *)

Module Major.

Definition SUBJECT_MAP : gmap string string :=
  list_to_map [("Logical Reasoning", "LR"); ("Quantitative Aptitude", "QA");
               ("Verbal Ability", "VA")]%string.

(** *** Session, requests and responses *)

(** One entry of [session['user_answers']]. *)
Record AnswerInfo : Type := {
  user_answer : option string;
  is_correct : bool;
}.

Record Session : Type := {
  user_id : option string;
  guest_id : option string;
  questions : option (list Question);
  score : option Z;
  start_time : option Qc;
  timed_test : option bool;
  user_answers : option (gmap string AnswerInfo);
}.

Definition empty_session : Session :=
  {| user_id := None; guest_id := None; questions := None; score := None;
     start_time := None; timed_test := None; user_answers := None |}.

Definition set_user_id (v : option string) (s : Session) : Session :=
  {| user_id := v; guest_id := guest_id s; questions := questions s;
     score := score s; start_time := start_time s; timed_test := timed_test s;
     user_answers := user_answers s |}.

Definition set_user_answers (v : option (gmap string AnswerInfo)) (s : Session) : Session :=
  {| user_id := user_id s; guest_id := guest_id s; questions := questions s;
     score := score s; start_time := start_time s; timed_test := timed_test s;
     user_answers := v |}.

(** The record of the identity service for one user. *)
Record User : Type := { uid : string; email : string }.

(** [flask.g] after [load_logged_in_user]. *)
Record G : Type := { g_user : option User; g_guest_id : option string }.

Record Bucket : Type := { correct : Z; incorrect : Z; total : Z }.

Record ReportData : Type := {
  student_name : string;
  report_score : Z;
  total_questions : Z;
  accuracy : Qc;
  correct_count : Z;
  incorrect_count : Z;
  unanswered_count : Z;
  total_time_taken : Z;
  topic_breakdown : gmap string Bucket;
}.

Inductive ExtCall : Type :=
| GroqChat (subject difficulty : string) (num_questions : Z)
| AuthGetUser (user_id : string)
| AuthCreateUser (email : string)
| AuthGetUserByEmail (email : string)
| FirestoreAdd (uid : string) (report : ReportData)
| FirestoreSet (uid email : string)
| AgentRun.

Inductive Response : Type :=
| Redirect (endpoint : string)
| Json400 (error : string)
| JsonAnswer (is_correct : bool) (correct_answer solution : string)
| RenderWelcome
| RenderIndex
| RenderQuiz (questions : list Question) (total_questions : nat)
    (timed_test : bool) (time_left : option Qc)
| RenderResults (score total : Z) (report : ReportData)
| RenderReport
| RenderSignup (error : bool)
| RenderLogin (error : bool)
| Text (body : string) (status : Z).

(** What a handler leaves behind. *)
Record Handled : Type := {
  out : outcome Response;
  sess : Session;
  calls : list ExtCall;
}.

Definition reply (r : Response) (s : Session) : Handled :=
  {| out := Ok r; sess := s; calls := [] |}.

Definition crash (e : exn) (s : Session) : Handled :=
  {| out := Raise e; sess := s; calls := [] |}.

(** Truth value of [session.get(key)] for a string key. *)
Definition truthy (v : option string) : bool :=
  match v with
  | Some s => negb (bool_decide (s = ""%string))
  | None => false
  end.

(** *** Question generation *)

(** The dictionary [defaults] of [get_default_questions]. *)
Definition defaults : gmap string (list Question) :=
  list_to_map [
    ("Logical Reasoning",
     [ {| chapter := Some "Syllogisms";
          question := "If all Bloops are Razzies and all Razzies are Lazzies, then all Bloops are definitely Lazzies?";
          options := [("A", "True"); ("B", "False"); ("C", "Uncertain"); ("D", "None of the above")];
          correct_answer := "A";
          solution := Some "This is a case of transitive relation. If A implies B and B implies C, then A implies C. So, the statement is True.";
          subject := None |} ]);
    ("Quantitative Aptitude",
     [ {| chapter := Some "Speed, Time & Distance";
          question := "If a train travels 300 km in 5 hours, what is its average speed?";
          options := [("A", "50 km/h"); ("B", "60 km/h"); ("C", "70 km/h"); ("D", "80 km/h")];
          correct_answer := "B";
          solution := Some "Average Speed = Total Distance / Total Time. Speed = 300 km / 5 hours = 60 km/h.";
          subject := None |} ]);
    ("Verbal Ability",
     [ {| chapter := Some "Synonyms";
          question := "Choose the correct synonym for 'Benevolent'";
          options := [("A", "Cruel"); ("B", "Kind"); ("C", "Selfish"); ("D", "Greedy")];
          correct_answer := "B";
          solution := Some "'Benevolent' means well-meaning and kindly. 'Kind' is the closest synonym.";
          subject := None |} ])
  ]%string.

Definition get_default_questions (subject : string) (num_questions : Z) : list Question :=
  let subject_questions := default [] (defaults !! subject) in
  Py.slice_to subject_questions num_questions.

(** What the [try] block of [generate_questions] meets.  [LlmRaises]: a
    statement of the block raises (the call fails, the content is not JSON,
    the JSON is not an object, or the value under ["questions"] has no
    length, cannot be extended or cannot be sliced).  [LlmQuestions qs]: the
    list under ["questions"], empty when the key is absent; its items are
    question objects of the type [Question].  A string under ["questions"],
    which Python slices as it slices a list, and a list with items that are
    not such objects, which [index] fails on when it tags them, are not
    modelled. *)
Inductive LlmReply : Type :=
| LlmRaises
| LlmQuestions (questions : list Question).

Definition generate_questions (subject difficulty : string) (num_questions : Z)
    (llm : LlmReply) : outcome (list Question) :=
  try_except
    (questions ← match llm with
                 | LlmRaises => Raise ExternalFailure
                 | LlmQuestions qs => Ok qs
                 end;
     let questions :=
       if bool_decide (Z.of_nat (length questions) < num_questions) then
         let needed := num_questions - Z.of_nat (length questions) in
         questions ++ get_default_questions subject needed
       else questions in
     Ok (Py.slice_to questions num_questions))
    (λ _, Ok (get_default_questions subject num_questions)).

(** *** Starting a quiz: [index] *)

Record IndexForm : Type := {
  form_subjects : list string;          (* request.form.getlist('subjects') *)
  form_difficulty : option string;      (* request.form.get('difficulty') *)
  form_num_questions : option Z;        (* request.form.get('num_questions'), a decimal integer;
                                           other text, on which int() raises, is not modelled *)
  form_timed_test : option string;      (* request.form.get('timed_test') *)
}.

(** [q['subject'] = subject; q.setdefault('chapter', 'General')] *)
Definition tag_question (subject : string) (q : Question) : Question :=
  {| chapter := Some (default "General"%string (chapter q));
     question := question q; options := options q;
     correct_answer := correct_answer q; solution := solution q;
     subject := Some subject |}.

(** The loop [for i, subject in enumerate(selected_subjects)], from position
    [i] on.  [llm i] is what the language model answers to the call made for
    position [i]. *)
Fixpoint index_loop (llm : nat → LlmReply) (difficulty : string) (num_questions : Z)
    (k : nat) (i : nat) (subjects : list string) (questions : list Question)
    : outcome (list Question) * list ExtCall :=
  match subjects with
  | [] => (Ok questions, [])
  | subject :: rest =>
      let n := q_count num_questions k i in
      if bool_decide (0 < n) then
        match generate_questions subject difficulty n (llm i) with
        | Ok subject_questions =>
            let '(r, cs) :=
              index_loop llm difficulty num_questions k (S i) rest
                (questions ++ (tag_question subject <$> subject_questions)) in
            (r, GroqChat subject difficulty n :: cs)
        | Raise e => (Raise e, [GroqChat subject difficulty n])
        end
      else index_loop llm difficulty num_questions k (S i) rest questions
  end.

(** [POST /]: [shuffle] is the permutation [random.shuffle] applies and [now]
    the value of [time.time()]. *)
Definition index_post (g : G) (form : IndexForm) (llm : nat → LlmReply)
    (shuffle : list Question → list Question) (now : Qc) (s : Session) : Handled :=
  if negb (bool_decide (is_Some (g_user g))) && negb (truthy (g_guest_id g)) then
    reply (Redirect "login") s
  else
    let selected_subjects := form_subjects form in
    let difficulty := default "Medium"%string (form_difficulty form) in
    let num_questions := clamp_num_questions (form_num_questions form) in
    let timed := bool_decide (form_timed_test form = Some "on"%string) in
    let '(r, cs) :=
      match selected_subjects with
      | [] => (Ok [], [])
      | _ => index_loop llm difficulty num_questions (length selected_subjects) 0
               selected_subjects []
      end in
    match r with
    | Raise e => {| out := Raise e; sess := s; calls := cs |}
    | Ok questions =>
        {| out := Ok (Redirect "quiz");
           sess := {| user_id := user_id s; guest_id := guest_id s;
                      questions := Some (shuffle questions);
                      score := Some 0;
                      start_time := Some now;
                      timed_test := Some timed;
                      user_answers := Some ∅ |};
           calls := cs |}
    end.

(** [GET /] *)
Definition index_get (g : G) (s : Session) : Handled :=
  if bool_decide (is_Some (g_user g)) || truthy (g_guest_id g) then reply RenderIndex s
  else reply RenderWelcome s.

(** *** Showing the quiz: [quiz] *)

Definition quiz (now : Qc) (s : Session) : Handled :=
  match questions s with
  | None => reply (Redirect "index") s
  | Some all_questions =>
      let render time_left :=
        reply (RenderQuiz all_questions (length all_questions)
                 (default false (timed_test s)) time_left) s in
      if default false (timed_test s) then
        match start_time s with
        | None => crash (KeyError "start_time") s
        | Some t0 =>
            let elapsed := (now - t0)%Qc in
            let total_time := Z.of_nat (length all_questions) * 60 in
            render (Some (Py.max0 (Qc_of_Z total_time - elapsed)%Qc))
        end
      else render None
  end.

(** *** Submitting an answer: [check_answer] *)

(** The JSON body is [{"selected_option": ..., "question_index": ...}]; a key
    that is absent or [null] is [None].  The selected option is a string and
    the question index an integer; an index of another JSON type (a boolean,
    which Python compares as 0 or 1 and [str] turns into ['True'] or
    ['False'], a fraction, a string) is not modelled. *)
Definition check_answer (selected_option : option string) (question_index : option Z)
    (s : Session) : Handled :=
  match questions s with
  | None => reply (Json400 "Session expired") s
  | Some all_questions =>
      match question_index with
      | None => reply (Json400 "Invalid question index") s
      | Some i =>
          if negb (bool_decide (0 ≤ i < Z.of_nat (length all_questions))) then
            reply (Json400 "Invalid question index") s
          else
            match Py.getitem all_questions i with
            | Raise e => crash e s
            | Ok q =>
                let correct := bool_decide (selected_option = Some (correct_answer q)) in
                match user_answers s with
                | None => crash (KeyError "user_answers") s
                | Some ua =>
                    let ua' := <[Py.str i := {| user_answer := selected_option;
                                                is_correct := correct |}]> ua in
                    reply (JsonAnswer correct (correct_answer q)
                             (default "Solution not available."%string (solution q)))
                          (set_user_answers (Some ua') s)
                end
            end
      end
  end.

(** *** Finishing: [results] *)

(** The counters of [results] while it walks the questions. *)
Record Tally : Type := {
  n_correct : Z;                       (* correct_count *)
  n_incorrect : Z;                     (* incorrect_count *)
  breakdown : gmap string Bucket;      (* topic_breakdown *)
}.

Definition zero_bucket : Bucket := {| correct := 0; incorrect := 0; total := 0 |}.

(** [topic_breakdown[topic]] of the [defaultdict]. *)
Definition bucket_at (tb : gmap string Bucket) (topic : string) : Bucket :=
  default zero_bucket (tb !! topic).

Definition add_total (topic : string) (tb : gmap string Bucket) : gmap string Bucket :=
  let b := bucket_at tb topic in
  <[topic := {| correct := correct b; incorrect := incorrect b; total := total b + 1 |}]> tb.

Definition add_correct (topic : string) (tb : gmap string Bucket) : gmap string Bucket :=
  let b := bucket_at tb topic in
  <[topic := {| correct := correct b + 1; incorrect := incorrect b; total := total b |}]> tb.

Definition add_incorrect (topic : string) (tb : gmap string Bucket) : gmap string Bucket :=
  let b := bucket_at tb topic in
  <[topic := {| correct := correct b; incorrect := incorrect b + 1; total := total b |}]> tb.

(** [SUBJECT_MAP.get(q.get('subject'), 'Unknown')] *)
Definition subject_abbr (q : Question) : string :=
  default "Unknown"%string (subject q ≫= λ sub, SUBJECT_MAP !! sub).

(** [f"{subject_abbr} -> {q.get('chapter', 'General')}"] *)
Definition topic_of (q : Question) : string :=
  (subject_abbr q +:+ " -> " +:+ default "General" (chapter q))%string.

(** The body of [for i, q in enumerate(all_questions)].  An entry of the
    ledger is a dictionary with two keys, so [if answer_info:] holds exactly
    when the entry exists. *)
Definition results_step (ua : gmap string AnswerInfo) (i : nat) (q : Question)
    (t : Tally) : Tally :=
  let topic := topic_of q in
  let tb := add_total topic (breakdown t) in
  match ua !! Py.str (Z.of_nat i) with
  | Some answer_info =>
      if is_correct answer_info then
        {| n_correct := n_correct t + 1; n_incorrect := n_incorrect t;
           breakdown := add_correct topic tb |}
      else
        {| n_correct := n_correct t; n_incorrect := n_incorrect t + 1;
           breakdown := add_incorrect topic tb |}
  | None =>
      {| n_correct := n_correct t; n_incorrect := n_incorrect t; breakdown := tb |}
  end.

Fixpoint results_loop (ua : gmap string AnswerInfo) (i : nat) (qs : list Question)
    (t : Tally) : Tally :=
  match qs with
  | [] => t
  | q :: rest => results_loop ua (S i) rest (results_step ua i q t)
  end.

Definition tally (all_questions : list Question) (ua : gmap string AnswerInfo) : Tally :=
  results_loop ua 0 all_questions {| n_correct := 0; n_incorrect := 0; breakdown := ∅ |}.

(** [(score / total * 100) if total > 0 else 0] *)
Definition accuracy_of (score total : Z) : outcome Qc :=
  if bool_decide (0 < total) then
    x ← Py.truediv score total; Ok (x * Qc_of_Z 100)%Qc
  else Ok 0%Qc.

(** [GET /results]: [store_add_ok] tells whether the first write to the
    document store succeeds. *)
Definition results (g : G) (now : Qc) (store_add_ok : bool) (s : Session) : Handled :=
  match questions s with
  | None => reply (Redirect "index") s
  | Some all_questions =>
      let ua := default ∅ (user_answers s) in
      let t := tally all_questions ua in
      let score_ := n_correct t in
      let total_ := Z.of_nat (length all_questions) in
      match accuracy_of score_ total_ with
      | Raise e => crash e s
      | Ok acc =>
          let time_taken := (now - default 0%Qc (start_time s))%Qc in
          let report_data :=
            {| student_name := match g_user g with
                               | Some u => email u
                               | None => "Guest"%string
                               end;
               report_score := score_;
               total_questions := total_;
               accuracy := Py.round2 acc;
               correct_count := n_correct t;
               incorrect_count := n_incorrect t;
               unanswered_count := total_ - (n_correct t + n_incorrect t);
               total_time_taken := Py.round time_taken;
               topic_breakdown := breakdown t |} in
          {| out := Ok (RenderResults score_ total_ report_data);
             sess := {| user_id := user_id s; guest_id := guest_id s;
                        questions := None; score := score s;
                        start_time := None; timed_test := None;
                        user_answers := None |};
             calls := match g_user g with
                      | Some u =>
                          FirestoreAdd (uid u) report_data ::
                          (if store_add_ok then [FirestoreSet (uid u) (email u)] else [])
                      | None => []
                      end |}
      end
  end.

(** *** The remaining routes *)

(** What the identity service answers. *)
Inductive AuthReply : Type :=
| AuthFound (u : User)
| AuthNotFound
| AuthFails.

(** [@app.before_request load_logged_in_user].  [g.guest_id] is read before
    the session may be cleared. *)
Definition load_logged_in_user (auth : AuthReply) (s : Session)
    : outcome G * Session * list ExtCall :=
  let g_guest := guest_id s in
  let anonymous := {| g_user := None; g_guest_id := g_guest |} in
  match user_id s with
  | Some u =>
      if truthy (Some u) then
        match auth with
        | AuthFound usr =>
            (Ok {| g_user := Some usr; g_guest_id := g_guest |}, s, [AuthGetUser u])
        | AuthNotFound => (Ok anonymous, empty_session, [AuthGetUser u])
        | AuthFails => (Raise ExternalFailure, s, [AuthGetUser u])
        end
      else (Ok anonymous, s, [])
  | None => (Ok anonymous, s, [])
  end.

(** What [report_page] meets: no posted data, data that is not JSON, a
    failing report agent, or a report. *)
Inductive ReportReply : Type :=
| NoReportData
| BadReportData
| AgentFails
| AgentAnswers.

Definition report_page (r : ReportReply) (s : Session) : Handled :=
  match r with
  | NoReportData => reply (Text "Error: No report data found." 400) s
  | BadReportData => crash ExternalFailure s
  | AgentFails => {| out := Raise ExternalFailure; sess := s; calls := [AgentRun] |}
  | AgentAnswers => {| out := Ok RenderReport; sess := s; calls := [AgentRun] |}
  end.

Definition signup_post (email_ : string) (auth : AuthReply) (s : Session) : Handled :=
  match auth with
  | AuthFound u =>
      {| out := Ok (Redirect "index"); sess := set_user_id (Some (uid u)) s;
         calls := [AuthCreateUser email_] |}
  | _ => {| out := Ok (RenderSignup true); sess := s; calls := [AuthCreateUser email_] |}
  end.

Definition login_post (email_ : string) (auth : AuthReply) (s : Session) : Handled :=
  match auth with
  | AuthFound u =>
      {| out := Ok (Redirect "index"); sess := set_user_id (Some (uid u)) s;
         calls := [AuthGetUserByEmail email_] |}
  | _ => {| out := Ok (RenderLogin true); sess := s; calls := [AuthGetUserByEmail email_] |}
  end.

Definition logout (s : Session) : Handled :=
  reply (Redirect "index") empty_session.

Definition continue_as_guest (now : Qc) (s : Session) : Handled :=
  reply (Redirect "index")
    {| user_id := None;
       guest_id := Some ("guest_" +:+ Py.str (Py.int_of now))%string;
       questions := None; score := None; start_time := None;
       timed_test := None; user_answers := None |}.

Definition user_history (g : G) (s : Session) : Handled :=
  match g_user g with
  | None => reply (Redirect "login") s
  | Some _ => reply (Text "User history page coming soon!" 200) s
  end.

(** *** The application as a transition system *)

Inductive Request : Type :=
| GetIndex
| PostIndex (form : IndexForm) (llm : nat → LlmReply)
    (shuffle : list Question → list Question) (now : Qc)
| GetQuiz (now : Qc)
| PostCheckAnswer (selected_option : option string) (question_index : option Z)
| GetResults (now : Qc) (store_add_ok : bool)
| PostReport (r : ReportReply)
| GetSignup
| PostSignup (email : string) (auth : AuthReply)
| GetLogin
| PostLogin (email : string) (auth : AuthReply)
| GetLogout
| PostContinueAsGuest (now : Qc)
| GetUserHistory.

Definition dispatch (g : G) (r : Request) (s : Session) : Handled :=
  match r with
  | GetIndex => index_get g s
  | PostIndex form llm shuffle now => index_post g form llm shuffle now s
  | GetQuiz now => quiz now s
  | PostCheckAnswer selected_option question_index =>
      check_answer selected_option question_index s
  | GetResults now store_add_ok => results g now store_add_ok s
  | PostReport r => report_page r s
  | GetSignup => reply (RenderSignup false) s
  | PostSignup e auth => signup_post e auth s
  | GetLogin => reply (RenderLogin false) s
  | PostLogin e auth => login_post e auth s
  | GetLogout => logout s
  | PostContinueAsGuest now => continue_as_guest now s
  | GetUserHistory => user_history g s
  end.

(** One request: the [before_request] hook, then the route.  [auth] is what
    the identity service answers to the hook. *)
Definition handle (auth : AuthReply) (r : Request) (s : Session) : Handled :=
  match load_logged_in_user auth s with
  | (Raise e, s1, cs) => {| out := Raise e; sess := s1; calls := cs |}
  | (Ok g, s1, cs) =>
      let h := dispatch g r s1 in
      {| out := out h; sess := sess h; calls := cs ++ calls h |}
  end.

(** The session after a sequence of requests. *)
Fixpoint run (rs : list (AuthReply * Request)) (s : Session) : Session :=
  match rs with
  | [] => s
  | (auth, r) :: rest => run rest (sess (handle auth r s))
  end.

Definition starts_quiz (r : Request) : bool :=
  match r with
  | PostIndex _ _ _ _ => true
  | _ => false
  end.

End Major.

(** ** The earlier application, with a running score *)

Module Original.

Record Session : Type := {
  questions : option (list Question);
  current_question : option Z;
  score : option Z;
  timed_test : option bool;
  dark_mode : option bool;
  start_time : option Qc;
  time_per_question : option Z;
  answered : option (list bool);
  visited : option (list bool);
  selected_subjects : option (list string);
}.

Definition empty_session : Session :=
  {| questions := None; current_question := None; score := None;
     timed_test := None; dark_mode := None; start_time := None;
     time_per_question := None; answered := None; visited := None;
     selected_subjects := None |}.

Definition set_answered (v : list bool) (s : Session) : Session :=
  {| questions := questions s; current_question := current_question s;
     score := score s; timed_test := timed_test s; dark_mode := dark_mode s;
     start_time := start_time s; time_per_question := time_per_question s;
     answered := Some v; visited := visited s;
     selected_subjects := selected_subjects s |}.

Definition set_score (v : Z) (s : Session) : Session :=
  {| questions := questions s; current_question := current_question s;
     score := Some v; timed_test := timed_test s; dark_mode := dark_mode s;
     start_time := start_time s; time_per_question := time_per_question s;
     answered := answered s; visited := visited s;
     selected_subjects := selected_subjects s |}.

Definition set_current_question (v : Z) (s : Session) : Session :=
  {| questions := questions s; current_question := Some v;
     score := score s; timed_test := timed_test s; dark_mode := dark_mode s;
     start_time := start_time s; time_per_question := time_per_question s;
     answered := answered s; visited := visited s;
     selected_subjects := selected_subjects s |}.

(** The body of the JSON answer of [check_answer]. *)
Record Checked : Type := {
  is_correct : bool;
  shown_answer : string;               (* 'correct_answer' *)
  shown_solution : string;             (* 'solution' *)
  shown_score : Z;                     (* 'score' *)
  total_questions : nat;
  shown_answered : list bool;          (* 'answered' *)
  shown_visited : list bool;           (* 'visited' *)
  has_next : bool;
  next_question : option Question;
  question_num : option Z;
  time_left : option Qc;
}.

Inductive Response : Type :=
| Redirect (endpoint : string)
| Json400 (error : string)
| JsonChecked (body : Checked)
| RenderResults (score : Z) (total : nat) (timed_out dark : bool).

(** [session[key]] *)
Definition item {A} (key : string) (v : option A) : outcome A :=
  match v with
  | Some a => Ok a
  | None => Raise (KeyError key)
  end.

(** The time left of a timed test, as [quiz] and [check_answer] compute it. *)
Definition remaining (now : Qc) (n : nat) (s : Session) : outcome (option Qc) :=
  if default false (timed_test s) then
    t0 ← item "start_time" (start_time s);
    let elapsed := (now - t0)%Qc in
    per ← item "time_per_question" (time_per_question s);
    let total_time := Z.of_nat n * per in
    Ok (Some (Py.max0 (Qc_of_Z total_time - elapsed)%Qc))
  else Ok None.

(** [POST /check_answer].  The session returned with an exception is the
    session as modified up to the failing statement. *)
Definition check_answer (selected_option : option string) (now : Qc) (s : Session)
    : outcome Response * Session :=
  match questions s with
  | None => (Ok (Json400 "Session expired"), s)
  | Some qs =>
    match item "current_question" (current_question s) with
    | Raise e => (Raise e, s)
    | Ok current_idx =>
    match (ans ← item "answered" (answered s); Py.setitem ans current_idx true) with
    | Raise e => (Raise e, s)
    | Ok ans' =>
    let s1 := set_answered ans' s in
    match Py.getitem qs current_idx with
    | Raise e => (Raise e, s1)
    | Ok q =>
    let correct := bool_decide (selected_option = Some (correct_answer q)) in
    match (if correct then v ← item "score" (score s1); Ok (set_score (v + 1) s1)
           else Ok s1) with
    | Raise e => (Raise e, s1)
    | Ok s2 =>
    let sol := match solution q with
               | Some t => if bool_decide (t = ""%string)
                           then "Solution not available for this question"%string else t
               | None => "Solution not available for this question"%string
               end in
    match (sc ← item "score" (score s2); vis ← item "visited" (visited s2); Ok (sc, vis)) with
    | Raise e => (Raise e, s2)
    | Ok (sc, vis) =>
    let more := bool_decide (current_idx + 1 < Z.of_nat (length qs)) in
    let s3 := if more then set_current_question (current_idx + 1) s2 else s2 in
    match (nxt ← (if more then q1 ← Py.getitem qs (current_idx + 1); Ok (Some q1)
                  else Ok None);
           rest ← remaining now (length qs) s3;
           Ok (nxt, rest)) with
    | Raise e => (Raise e, s3)
    | Ok (nxt, rest) =>
        (Ok (JsonChecked
               {| is_correct := correct; shown_answer := correct_answer q;
                  shown_solution := sol; shown_score := sc;
                  total_questions := length qs;
                  shown_answered := ans'; shown_visited := vis;
                  has_next := more; next_question := nxt;
                  question_num := if more then Some (current_idx + 2) else None;
                  time_left := rest |}), s3)
    end end end end end end
  end.

(** [GET /results] *)
Definition results (timed_out : bool) (s : Session) : outcome Response * Session :=
  match questions s with
  | None => (Ok (Redirect "index"), s)
  | Some qs =>
      (Ok (RenderResults (default 0 (score s)) (length qs) timed_out
             (default false (dark_mode s))), empty_session)
  end.

(** *** Question generation *)

(** [word in text] *)
Fixpoint contains (word text : string) : bool :=
  String.prefix word text ||
  match text with
  | EmptyString => false
  | String _ rest => contains word rest
  end.

(** The dictionary [invalid_words] of [is_question_valid]. *)
Definition invalid_words : gmap string (list string) :=
  list_to_map [
    ("Verbal Ability",
     ["calculate"; "percentage"; "profit"; "loss"; "ratio"; "sum"; "average"; "km"; "hour"]);
    ("Quantitative Aptitude",
     ["synonym"; "antonym"; "grammar"; "sentence"; "passage"; "reading"]);
    ("Logical Reasoning",
     ["calculate"; "percentage"; "synonym"; "antonym"; "grammar"])
  ]%string.

(** The dictionary [defaults] of [get_default_questions]. *)
Definition defaults : gmap string (list Question) :=
  list_to_map [
    ("Logical Reasoning",
     [
      {| chapter := None;
         question := "If all Bloops are Razzies and all Razzies are Lazzies, then all Bloops are definitely Lazzies?";
         options := [("A", "True"); ("B", "False"); ("C", "Uncertain"); ("D", "None of the above")];
         correct_answer := "A";
         solution := Some "Step 1: Understand the given statements
- All Bloops are Razzies (Bloops ⊂ Razzies)
- All Razzies are Lazzies (Razzies ⊂ Lazzies)

Step 2: Apply transitive property
If A ⊂ B and B ⊂ C, then A ⊂ C

Step 3: Conclusion
Therefore, all Bloops are Lazzies (Bloops ⊂ Lazzies)

Final Answer: A) True";
         subject := None |} ]);
    ("Quantitative Aptitude",
     [
      {| chapter := None;
         question := "If a train travels 300 km in 5 hours, what is its average speed?";
         options := [("A", "50 km/h"); ("B", "60 km/h"); ("C", "70 km/h"); ("D", "80 km/h")];
         correct_answer := "B";
         solution := Some "Step 1: Recall the formula for average speed
Average Speed = Total Distance / Total Time

Step 2: Plug in the given values
Total Distance = 300 km
Total Time = 5 hours

Step 3: Calculate
Average Speed = 300 km / 5 hours = 60 km/h

Step 4: Match with options
Option B matches our calculation

Final Answer: B) 60 km/h";
         subject := None |} ]);
    ("Verbal Ability",
     [
      {| chapter := None;
         question := "Choose the correct synonym for 'Benevolent'";
         options := [("A", "Cruel"); ("B", "Kind"); ("C", "Selfish"); ("D", "Greedy")];
         correct_answer := "B";
         solution := Some "Step 1: Understand the word 'Benevolent'
Meaning: Well-meaning and kindly

Step 2: Analyze options
A) Cruel - Opposite meaning
B) Kind - Similar meaning
C) Selfish - Different meaning
D) Greedy - Different meaning

Step 3: Select best match
'Kind' is the closest synonym

Final Answer: B) Kind";
         subject := None |};
      {| chapter := None;
         question := "Identify the grammatically correct sentence:";
         options := [("A", "She don't like apples"); ("B", "She doesn't likes apples"); ("C", "She doesn't like apples"); ("D", "She not like apples")];
         correct_answer := "C";
         solution := Some "Step 1: Analyze subject-verb agreement
- 'She' is third person singular, so it requires 'does' + base verb

Step 2: Evaluate options
A) Incorrect - 'don't' doesn't agree with 'she'
B) Incorrect - 'likes' should be base form 'like' after 'does'
C) Correct - proper subject-verb agreement
D) Incorrect - missing auxiliary verb

Final Answer: C) She doesn't like apples";
         subject := None |} ])
  ]%string.

Definition get_default_questions (subject : string) (num_questions : Z) : list Question :=
  let subject_questions := default [] (defaults !! subject) in
  Py.slice_to subject_questions num_questions.

(** [if 'solution' not in q or not q['solution']: q['solution'] = ...] *)
Definition with_solution (q : Question) : Question :=
  match solution q with
  | Some t =>
      if bool_decide (t = ""%string)
      then {| chapter := chapter q; question := question q; options := options q;
              correct_answer := correct_answer q;
              solution := Some "Detailed solution not available for this question"%string;
              subject := subject q |}
      else q
  | None =>
      {| chapter := chapter q; question := question q; options := options q;
         correct_answer := correct_answer q;
         solution := Some "Detailed solution not available for this question"%string;
         subject := subject q |}
  end.

Section Lowercase.

(** [str.lower] of the Python library. *)
Variable lower : string → string.

(** The text of a question without one is the empty string. *)
Definition is_question_valid (q : Question) (subject : string) : bool :=
  let q_text := lower (question q) in
  forallb (λ word, negb (contains word q_text)) (default [] (invalid_words !! subject)).

(** The loop [for q in questions] of [generate_questions], with
    [filtered_questions] so far. *)
Fixpoint filter_loop (subject : string) (num_questions : Z) (questions : list Question)
    (filtered_questions : list Question) : list Question :=
  match questions with
  | [] => filtered_questions
  | q :: rest =>
      let filtered_questions :=
        if is_question_valid q subject
        then filtered_questions ++ [with_solution q]
        else filtered_questions in
      if bool_decide (num_questions ≤ Z.of_nat (length filtered_questions))
      then filtered_questions
      else filter_loop subject num_questions rest filtered_questions
  end.

Definition generate_questions (subject difficulty : string) (num_questions : Z)
    (llm : Major.LlmReply) : outcome (list Question) :=
  try_except
    (questions ← match llm with
                 | Major.LlmRaises => Raise ExternalFailure
                 | Major.LlmQuestions qs => Ok qs
                 end;
     let filtered_questions := filter_loop subject num_questions questions [] in
     let filtered_questions :=
       if bool_decide (Z.of_nat (length filtered_questions) < num_questions) then
         let default_qs :=
           get_default_questions subject
             (num_questions - Z.of_nat (length filtered_questions)) in
         filtered_questions ++ default_qs
       else filtered_questions in
     Ok (Py.slice_to filtered_questions num_questions))
    (λ _, Ok (get_default_questions subject num_questions)).

(** *** Starting a quiz: [index] *)

Record IndexForm : Type := {
  form_subjects : list string;
  form_difficulty : option string;
  form_num_questions : option Z;
  form_timed_test : option string;
  form_dark_mode : option string;
}.

(** The loop [for i, subject in enumerate(selected_subjects)], from position
    [i] on, with the requests to the language model it makes: this loop
    calls [generate_questions], which asks the language model once, for
    every subject, whatever the count.  [llm i] is what the language model
    answers to the call made for position [i]. *)
Fixpoint index_loop (llm : nat → Major.LlmReply) (difficulty : string) (num_questions : Z)
    (k : nat) (i : nat) (subjects : list string) (questions : list Question)
    : outcome (list Question) * list Major.ExtCall :=
  match subjects with
  | [] => (Ok questions, [])
  | subject :: rest =>
      let n := q_count num_questions k i in
      match generate_questions subject difficulty n (llm i) with
      | Ok subject_questions =>
          let '(r, cs) :=
            index_loop llm difficulty num_questions k (S i) rest
              (questions ++ subject_questions) in
          (r, Major.GroqChat subject difficulty n :: cs)
      | Raise e => (Raise e, [Major.GroqChat subject difficulty n])
      end
  end.

(** The answers of the routes other than [check_answer] and [results]. *)
Inductive Page : Type :=
| Moved (endpoint : string)
| Refused (error : string)
| IndexPage
| QuizPage (question : Question) (question_num : Z) (total_questions : nat)
    (timed_test dark_mode : bool) (time_left : option Qc) (answered visited : list bool)
| QuestionJson (question : Question) (total_questions : nat)
| DarkModeJson (dark_mode : bool).

(** [POST /]: the answer, the session and the requests made to the language
    model. *)
Definition index_post (form : IndexForm) (llm : nat → Major.LlmReply)
    (shuffle : list Question → list Question) (now : Qc) (s : Session)
    : outcome Page * Session * list Major.ExtCall :=
  let selected := form_subjects form in
  let difficulty := default "Medium"%string (form_difficulty form) in
  let num_questions := clamp_num_questions (form_num_questions form) in
  let '(r, cs) :=
    match selected with
    | [] => (Ok [], [])
    | _ => index_loop llm difficulty num_questions (length selected) 0 selected []
    end in
  match r with
  | Raise e => (Raise e, s, cs)
  | Ok questions =>
      let questions := shuffle questions in
      (Ok (Moved "quiz"),
       {| questions := Some questions;
          current_question := Some 0;
          score := Some 0;
          timed_test := Some (bool_decide (form_timed_test form = Some "on"%string));
          dark_mode := Some (bool_decide (form_dark_mode form = Some "on"%string));
          start_time := Some now;
          time_per_question := Some 60;
          answered := Some (replicate (length questions) false);
          visited := Some (replicate (length questions) false);
          selected_subjects := Some selected |},
       cs)
  end.

End Lowercase.

(** [GET /] *)
Definition index_get (s : Session) : outcome Page * Session := (Ok IndexPage, s).

Definition set_visited (v : list bool) (s : Session) : Session :=
  {| questions := questions s; current_question := current_question s;
     score := score s; timed_test := timed_test s; dark_mode := dark_mode s;
     start_time := start_time s; time_per_question := time_per_question s;
     answered := answered s; visited := Some v;
     selected_subjects := selected_subjects s |}.

Definition set_questions (v : list Question) (s : Session) : Session :=
  {| questions := Some v; current_question := current_question s;
     score := score s; timed_test := timed_test s; dark_mode := dark_mode s;
     start_time := start_time s; time_per_question := time_per_question s;
     answered := answered s; visited := visited s;
     selected_subjects := selected_subjects s |}.

Definition set_dark_mode (v : bool) (s : Session) : Session :=
  {| questions := questions s; current_question := current_question s;
     score := score s; timed_test := timed_test s; dark_mode := Some v;
     start_time := start_time s; time_per_question := time_per_question s;
     answered := answered s; visited := visited s;
     selected_subjects := selected_subjects s |}.

(** *** Showing a question: [quiz] *)

Definition quiz (now : Qc) (s : Session) : outcome Page * Session :=
  match questions s with
  | None => (Ok (Moved "index"), s)
  | Some qs =>
    match item "current_question" (current_question s) with
    | Raise e => (Raise e, s)
    | Ok current_idx =>
    match (vis ← item "visited" (visited s); Py.setitem vis current_idx true) with
    | Raise e => (Raise e, s)
    | Ok vis' =>
    let s1 := set_visited vis' s in
    match (q ← Py.getitem qs current_idx;
           qs' ← Py.setitem qs current_idx (with_solution q);
           Ok (with_solution q, qs')) with
    | Raise e => (Raise e, s1)
    | Ok (q, qs') =>
    let s2 := set_questions qs' s1 in
    match (rest ← remaining now (length qs') s2;
           ans ← item "answered" (answered s2);
           Ok (rest, ans)) with
    | Raise e => (Raise e, s2)
    | Ok (rest, ans) =>
        (Ok (QuizPage q (current_idx + 1) (length qs')
               (default false (timed_test s2)) (default false (dark_mode s2))
               rest ans vis'), s2)
    end end end end
  end.

(** *** Jumping to a question: [set_question] *)

(** The JSON body is [{"question_num": ...}]; without the key the number is
    [1]. *)
Definition set_question (question_num : option Z) (s : Session) : outcome Page * Session :=
  match questions s with
  | None => (Ok (Refused "Session expired"), s)
  | Some qs =>
    let num := default 1 question_num in
    let s1 := set_current_question (num - 1) s in
    match (vis ← item "visited" (visited s1); Py.setitem vis (num - 1) true) with
    | Raise e => (Raise e, s1)
    | Ok vis' =>
    let s2 := set_visited vis' s1 in
    match Py.getitem qs (num - 1) with
    | Raise e => (Raise e, s2)
    | Ok q => (Ok (QuestionJson q (length qs)), s2)
    end end
  end.

(** *** [toggle_dark_mode] *)

Definition toggle_dark_mode (s : Session) : outcome Page * Session :=
  let v := negb (default false (dark_mode s)) in
  (Ok (DarkModeJson v), set_dark_mode v s).

End Original.

(** ** Reference counts

    What the properties below compare the counters of [results] with. *)

(** The number of questions of [qs], the first of which has position [i],
    that satisfy [P] at their position. *)
Fixpoint count_from (P : nat → Question → bool) (i : nat) (qs : list Question) : Z :=
  match qs with
  | [] => 0
  | q :: rest => (if P i q then 1 else 0) + count_from P (S i) rest
  end.

(** The ledger [ua] holds a correct answer for position [i]. *)
Definition answered_correct (ua : gmap string Major.AnswerInfo) (i : nat) : bool :=
  match ua !! Py.str (Z.of_nat i) with
  | Some a => Major.is_correct a
  | None => false
  end.

(** The ledger [ua] holds an incorrect answer for position [i]. *)
Definition answered_incorrect (ua : gmap string Major.AnswerInfo) (i : nat) : bool :=
  match ua !! Py.str (Z.of_nat i) with
  | Some a => negb (Major.is_correct a)
  | None => false
  end.

(** The ledger [ua] has no entry for position [i]. *)
Definition unanswered (ua : gmap string Major.AnswerInfo) (i : nat) : bool :=
  bool_decide (ua !! Py.str (Z.of_nat i) = None).

(** The question belongs to the bucket [topic]. *)
Definition in_topic (topic : string) (q : Question) : bool :=
  bool_decide (Major.topic_of q = topic).

(** ** Sessions of a running application *)

(** A session some sequence of requests leads to, from the empty session.
    The requests are those of the type [Major.Request]: forms with an integer
    count, submissions with an integer or [null] question index, and replies
    of the language model that are lists of question objects. *)
Definition reachable (s : Major.Session) : Prop :=
  ∃ rs, s = Major.run rs Major.empty_session.

(** What [index] establishes together with ['questions'] and the other
    routes keep: the ledger, the clock and the timed flag are there, and the
    ledger has keys [str(i)] for positions [i] of the question list only. *)
Definition wf (s : Major.Session) : Prop :=
  ∀ qs, Major.questions s = Some qs →
    ∃ ua t0 timed,
      Major.user_answers s = Some ua ∧
      Major.start_time s = Some t0 ∧
      Major.timed_test s = Some timed ∧
      ∀ k, is_Some (ua !! k) →
           ∃ i : Z, 0 ≤ i < Z.of_nat (length qs) ∧ k = Py.str i.

(** ** Sample data *)

Definition sample_question (sub ch ans : string) : Question :=
  {| chapter := Some ch; question := "Which one?"; options := [];
     correct_answer := ans; solution := Some "Because."; subject := Some sub |}.

(** Three questions in two buckets. *)
Definition sample_questions : list Question :=
  [ sample_question "Logical Reasoning" "Syllogisms" "A";
    sample_question "Logical Reasoning" "Syllogisms" "B";
    sample_question "Quantitative Aptitude" "Ratios" "C" ].

Definition guest : Major.G :=
  {| Major.g_user := None; Major.g_guest_id := Some "guest_1700000000"%string |}.

(** What the language model answers to the two calls of the sample start. *)
Definition sample_llm (i : nat) : Major.LlmReply :=
  match i with
  | 0%nat => Major.LlmQuestions (take 2 sample_questions)
  | 1%nat => Major.LlmQuestions (drop 2 sample_questions)
  | _ => Major.LlmRaises
  end.

Definition sample_form : Major.IndexForm :=
  {| Major.form_subjects := ["Logical Reasoning"; "Quantitative Aptitude"]%string;
     Major.form_difficulty := Some "Easy"%string;
     Major.form_num_questions := Some 3;
     Major.form_timed_test := Some "on"%string |}.

(** A guest arrives and starts a timed quiz of three questions. *)
Definition sample_start : list (Major.AuthReply * Major.Request) :=
  [ (Major.AuthNotFound, Major.PostContinueAsGuest (Qc_of_Z 1700000000));
    (Major.AuthNotFound, Major.PostIndex sample_form sample_llm id (Qc_of_Z 1700000100)) ].

(** The session [index] leaves for that guest. *)
Definition sample_session : Major.Session :=
  {| Major.user_id := None; Major.guest_id := Some "guest_1700000000"%string;
     Major.questions := Some sample_questions; Major.score := Some 0;
     Major.start_time := Some (Qc_of_Z 1700000100); Major.timed_test := Some true;
     Major.user_answers := Some ∅ |}.

(** The first question answered correctly, the second one incorrectly. *)
Definition sample_answers : list (Major.AuthReply * Major.Request) :=
  [ (Major.AuthNotFound, Major.PostCheckAnswer (Some "A"%string) (Some 0));
    (Major.AuthNotFound, Major.PostCheckAnswer (Some "A"%string) (Some 1)) ].

Definition sample_answered : Major.Session :=
  Major.run sample_answers sample_session.

(** Five questions, for a timed quiz of three hundred seconds. *)
Definition five_questions : list Question :=
  sample_questions ++ take 2 sample_questions.

Definition timed_five : Major.Session :=
  {| Major.user_id := None; Major.guest_id := Some "guest_1700000000"%string;
     Major.questions := Some five_questions; Major.score := Some 0;
     Major.start_time := Some (Qc_of_Z 1700000100); Major.timed_test := Some true;
     Major.user_answers := Some ∅ |}.

(** The session the earlier application holds after its [index], for the
    same five questions, timed, with sixty seconds per question. *)
Definition original_five : Original.Session :=
  {| Original.questions := Some five_questions;
     Original.current_question := Some 0;
     Original.score := Some 0;
     Original.timed_test := Some true;
     Original.dark_mode := Some false;
     Original.start_time := Some (Qc_of_Z 1700000100);
     Original.time_per_question := Some 60;
     Original.answered := Some (replicate 5 false);
     Original.visited := Some (replicate 5 false);
     Original.selected_subjects :=
       Some ["Logical Reasoning"; "Quantitative Aptitude"]%string |}.


(** The sum of a list of counts. *)
Definition Zsum (l : list Z) : Z := foldr Z.add 0 l.

(** ** Reference assembly

    The question list [index] builds, written without the loop. *)

(** What [generate_questions] hands to [index]. *)
Definition generated (subject difficulty : string) (n : Z) (llm : Major.LlmReply)
    : list Question :=
  match Major.generate_questions subject difficulty n llm with
  | Ok r => r
  | Raise _ => []
  end.

(** The tagged questions of one subject, at position [i] of the selection. *)
Definition subject_block (llm : nat → Major.LlmReply) (difficulty : string)
    (num_questions : Z) (k : nat) (i : nat) (subject : string) : list Question :=
  let n := q_count num_questions k i in
  if bool_decide (0 < n)
  then Major.tag_question subject <$> generated subject difficulty n (llm i)
  else [].

(** The blocks of the subjects from position [i] on, in selection order. *)
Fixpoint assembled (llm : nat → Major.LlmReply) (difficulty : string)
    (num_questions : Z) (k : nat) (i : nat) (subjects : list string) : list Question :=
  match subjects with
  | [] => []
  | subject :: rest =>
      subject_block llm difficulty num_questions k i subject
      ++ assembled llm difficulty num_questions k (S i) rest
  end.

(** The number of questions the language model delivered. *)
Definition delivered (llm : Major.LlmReply) : nat :=
  match llm with
  | Major.LlmRaises => 0%nat
  | Major.LlmQuestions qs => length qs
  end.

(** The size of the block of one subject: the count asked for, unless the
    delivered questions and the default pool together are fewer. *)
Definition block_size (llm : nat → Major.LlmReply) (num_questions : Z) (k : nat)
    (i : nat) (subject : string) : Z :=
  let n := q_count num_questions k i in
  if bool_decide (0 < n)
  then Z.min n (Z.of_nat (delivered (llm i)
                          + length (default [] (Major.defaults !! subject))))
  else 0.

(** ** Reference sums and invariants *)

(** The sum of one counter over the buckets of a breakdown. *)
Definition bucket_sum (f : Major.Bucket → Z) (tb : gmap string Major.Bucket) : Z :=
  map_fold (λ _ b acc, f b + acc) 0 tb.

(** Outside a quiz the session holds no ledger, start time or timed flag; the
    stored score is absent or zero, and zero during a quiz. *)
Definition tidy (s : Major.Session) : Prop :=
  (Major.questions s = None →
   Major.user_answers s = None ∧ Major.start_time s = None ∧ Major.timed_test s = None) ∧
  (Major.score s = None ∨ Major.score s = Some 0) ∧
  (is_Some (Major.questions s) → Major.score s = Some 0).

(** The ledger after a submission: an entry is written for a position of
    the question list, and nothing otherwise. *)
Definition recorded (selected_option : option string) (question_index : option Z)
    (qs : list Question) (ua : gmap string Major.AnswerInfo)
    : gmap string Major.AnswerInfo :=
  match question_index with
  | Some i =>
      match qs !! Z.to_nat i with
      | Some q =>
          if bool_decide (0 ≤ i < Z.of_nat (length qs)) then
            <[Py.str i := {| Major.user_answer := selected_option;
                             Major.is_correct :=
                               bool_decide (selected_option = Some (correct_answer q)) |}]> ua
          else ua
      | None => ua
      end
  | None => ua
  end.

(** A language model that always fails. *)
Definition failing_llm (i : nat) : Major.LlmReply := Major.LlmRaises.

(** ** Sessions of the earlier application *)

(** A session with all the keys [index] sets, and one answered flag and one
    visited flag per question. *)
Definition ready (s : Original.Session) (qs : list Question) (c sc : Z)
    (ans vis : list bool) : Prop :=
  Original.questions s = Some qs ∧
  Original.current_question s = Some c ∧
  Original.score s = Some sc ∧
  Original.answered s = Some ans ∧
  Original.visited s = Some vis ∧
  length ans = length qs ∧ length vis = length qs ∧
  is_Some (Original.timed_test s) ∧ is_Some (Original.start_time s) ∧
  is_Some (Original.time_per_question s).

(** Lower case of the letters [A] to [Z]; other bytes are kept. *)
Definition ascii_lower (text : string) : string :=
  String.string_of_list_ascii
    ((λ c, let n := Ascii.nat_of_ascii c in
           if bool_decide (65 ≤ n ≤ 90)%nat then Ascii.ascii_of_nat (n + 32) else c)
     <$> String.list_ascii_of_string text).

(** A form of the earlier application. *)
Definition original_form (subjects : list string) (n : Z) : Original.IndexForm :=
  {| Original.form_subjects := subjects;
     Original.form_difficulty := None;
     Original.form_num_questions := Some n;
     Original.form_timed_test := Some "on"%string;
     Original.form_dark_mode := None |}.

(** The position [xs[i]] addresses in a list of [n] elements, for an index
    [i] with [-n ≤ i < n]. *)
Definition wrapped (n : nat) (i : Z) : nat :=
  Z.to_nat (if bool_decide (0 ≤ i) then i else Z.of_nat n + i).

(** The session after the submissions [sels], made one after the other. *)
Fixpoint submit_all (sels : list (option string)) (now : Qc) (s : Original.Session)
    : Original.Session :=
  match sels with
  | [] => s
  | sel :: rest => submit_all rest now (Original.check_answer sel now s).2
  end.

(** The answers to the submissions [sels], made one after the other. *)
Fixpoint submit_outcomes (sels : list (option string)) (now : Qc) (s : Original.Session)
    : list (outcome Original.Response) :=
  match sels with
  | [] => []
  | sel :: rest =>
      (Original.check_answer sel now s).1
      :: submit_outcomes rest now (Original.check_answer sel now s).2
  end.

(** The number of submissions of [sels] that name the correct answer of the
    question at the same position of [qs]. *)
Fixpoint hits (sels : list (option string)) (qs : list Question) : Z :=
  match sels, qs with
  | sel :: sels', q :: qs' =>
      (if bool_decide (sel = Some (correct_answer q)) then 1 else 0) + hits sels' qs'
  | _, _ => 0
  end.

(** A user of the identity service. *)
Definition sample_user : Major.User :=
  {| Major.uid := "u1"; Major.email := "ada@example.org" |}.

(** * Properties *)

(** ** Python helpers *)

Lemma str_inj (i j : Z) : Py.str i = Py.str j → i = j.
Proof. unfold Py.str. apply (inj pretty). Qed.

Lemma str_of_nat_inj (i j : nat) :
  Py.str (Z.of_nat i) = Py.str (Z.of_nat j) → i = j.
Proof. intros H%str_inj. lia. Qed.

Lemma getitem_in_range {A} (xs : list A) (i : Z) :
  0 ≤ i < Z.of_nat (length xs) →
  ∃ x, xs !! Z.to_nat i = Some x ∧ Py.getitem xs i = Ok x.
Proof.
  intros Hi. unfold Py.getitem, Py.position.
  rewrite bool_decide_eq_true_2 by done.
  destruct (lookup_lt_is_Some_2 xs (Z.to_nat i)) as [x Hx]; [lia|].
  exists x. by rewrite Hx.
Qed.

Lemma length_slice_to {A} (xs : list A) (n : Z) :
  0 ≤ n → length (Py.slice_to xs n) = Nat.min (Z.to_nat n) (length xs).
Proof.
  intros Hn. unfold Py.slice_to. rewrite bool_decide_eq_true_2 by done.
  apply length_take.
Qed.

Lemma position_wrapped {A} (xs : list A) (i : Z) :
  Py.position xs i =
  if bool_decide (- Z.of_nat (length xs) ≤ i < Z.of_nat (length xs))
  then Some (wrapped (length xs) i) else None.
Proof.
  unfold Py.position, wrapped. repeat case_bool_decide; try done; lia.
Qed.

Lemma wrapped_lt n i : - Z.of_nat n ≤ i < Z.of_nat n → (wrapped n i < n)%nat.
Proof. unfold wrapped. case_bool_decide; lia. Qed.

Lemma getitem_wrapped {A} (xs : list A) (i : Z) :
  - Z.of_nat (length xs) ≤ i < Z.of_nat (length xs) →
  ∃ x, xs !! wrapped (length xs) i = Some x ∧ Py.getitem xs i = Ok x.
Proof.
  intros Hi. unfold Py.getitem. rewrite position_wrapped, bool_decide_eq_true_2 by done.
  destruct (lookup_lt_is_Some_2 xs (wrapped (length xs) i)) as [x Hx];
    [by apply wrapped_lt|].
  exists x. by rewrite Hx.
Qed.

Lemma getitem_out_of_range {A} (xs : list A) (i : Z) :
  ¬ (- Z.of_nat (length xs) ≤ i < Z.of_nat (length xs)) → Py.getitem xs i = Raise IndexError.
Proof.
  intros Hi. unfold Py.getitem. by rewrite position_wrapped, bool_decide_eq_false_2.
Qed.

Lemma setitem_wrapped {A} (xs : list A) (i : Z) (v : A) :
  Py.setitem xs i v =
  if bool_decide (- Z.of_nat (length xs) ≤ i < Z.of_nat (length xs))
  then Ok (<[wrapped (length xs) i := v]> xs) else Raise IndexError.
Proof. unfold Py.setitem. rewrite position_wrapped. by case_bool_decide. Qed.

(** ** Counting questions by position *)

Lemma count_from_nonneg P i qs : 0 ≤ count_from P i qs.
Proof.
  revert i. induction qs as [|q qs IH]; intros i; simpl; [lia|].
  specialize (IH (S i)). destruct (P i q); lia.
Qed.

Lemma count_from_le_length P i qs : count_from P i qs ≤ Z.of_nat (length qs).
Proof.
  revert i. induction qs as [|q qs IH]; intros i; simpl; [lia|].
  specialize (IH (S i)). destruct (P i q); lia.
Qed.

Lemma count_from_ext P Q i qs :
  (∀ j q, (i ≤ j)%nat → qs !! (j - i)%nat = Some q → P j q = Q j q) →
  count_from P i qs = count_from Q i qs.
Proof.
  revert i. induction qs as [|q qs IH]; intros i HPQ; simpl; [done|].
  rewrite (HPQ i q), (IH (S i)); [done| |lia|by rewrite Nat.sub_diag].
  intros j q' Hj Hq'. apply HPQ; [lia|].
  replace (j - i)%nat with (S (j - S i)) by lia. done.
Qed.

(** Changing the predicate at one position changes the count by the
    difference at that position. *)
Lemma count_from_change_one P Q i qs i0 q0 :
  (i ≤ i0)%nat → qs !! (i0 - i)%nat = Some q0 →
  (∀ j q, j ≠ i0 → P j q = Q j q) →
  count_from P i qs =
  count_from Q i qs + (if P i0 q0 then 1 else 0) - (if Q i0 q0 then 1 else 0).
Proof.
  revert i. induction qs as [|q qs IH]; intros i Hi Hq0 HPQ; [done|].
  simpl. destruct (decide (i = i0)) as [->|Hne].
  - rewrite Nat.sub_diag in Hq0. simplify_eq/=.
    rewrite (count_from_ext P Q (S i0) qs); [lia|].
    intros j q ? _. apply HPQ. lia.
  - rewrite (HPQ i q Hne), (IH (S i)); [lia|lia| |done].
    replace (i0 - i)%nat with (S (i0 - S i)) in Hq0 by lia. done.
Qed.

Lemma count_from_split P i qs :
  count_from P i qs + count_from (λ j q, negb (P j q)) i qs = Z.of_nat (length qs).
Proof.
  revert i. induction qs as [|q qs IH]; intros i; simpl; [done|].
  specialize (IH (S i)). destruct (P i q); simpl; lia.
Qed.

(** ** The counters of [results] *)

Import Major.

Lemma bucket_at_insert (tb : gmap string Bucket) tp tp' b :
  bucket_at (<[tp := b]> tb) tp' = if decide (tp = tp') then b else bucket_at tb tp'.
Proof.
  unfold bucket_at. destruct (decide (tp = tp')) as [->|Hne].
  - by rewrite lookup_insert_eq.
  - by rewrite lookup_insert_ne.
Qed.

Lemma results_step_n_correct ua i q t :
  n_correct (results_step ua i q t) =
  n_correct t + (if answered_correct ua i then 1 else 0).
Proof.
  unfold results_step, answered_correct.
  destruct (ua !! Py.str (Z.of_nat i)) as [a|]; [destruct (is_correct a)|]; simpl; lia.
Qed.

Lemma results_step_n_incorrect ua i q t :
  n_incorrect (results_step ua i q t) =
  n_incorrect t + (if answered_incorrect ua i then 1 else 0).
Proof.
  unfold results_step, answered_incorrect.
  destruct (ua !! Py.str (Z.of_nat i)) as [a|]; [destruct (is_correct a)|]; simpl; lia.
Qed.

(** One pass of the loop touches the bucket of the question only. *)
Lemma results_step_bucket ua i q t tp :
  let b := bucket_at (breakdown t) tp in
  let b' := bucket_at (breakdown (results_step ua i q t)) tp in
  total b' = total b + (if in_topic tp q then 1 else 0) ∧
  correct b' = correct b + (if in_topic tp q && answered_correct ua i then 1 else 0) ∧
  incorrect b' = incorrect b + (if in_topic tp q && answered_incorrect ua i then 1 else 0).
Proof.
  unfold results_step, answered_correct, answered_incorrect, in_topic.
  destruct (ua !! Py.str (Z.of_nat i)) as [a|]; [destruct (is_correct a)|]; simpl;
    unfold add_correct, add_incorrect, add_total;
    rewrite !bucket_at_insert; case_bool_decide; subst;
    repeat case_decide; simpl; try done; lia.
Qed.

Lemma results_step_present ua i q t tp :
  is_Some (breakdown (results_step ua i q t) !! tp) ↔
  is_Some (breakdown t !! tp) ∨ topic_of q = tp.
Proof.
  unfold results_step.
  destruct (ua !! Py.str (Z.of_nat i)) as [a|]; [destruct (is_correct a)|]; simpl;
    unfold add_correct, add_incorrect, add_total;
    rewrite ?lookup_insert_is_Some; destruct (decide (topic_of q = tp)); tauto.
Qed.

Lemma results_loop_n_correct ua qs i t :
  n_correct (results_loop ua i qs t) =
  n_correct t + count_from (λ j _, answered_correct ua j) i qs.
Proof.
  revert i t. induction qs as [|q qs IH]; intros i t; simpl; [lia|].
  rewrite IH, results_step_n_correct. lia.
Qed.

Lemma results_loop_n_incorrect ua qs i t :
  n_incorrect (results_loop ua i qs t) =
  n_incorrect t + count_from (λ j _, answered_incorrect ua j) i qs.
Proof.
  revert i t. induction qs as [|q qs IH]; intros i t; simpl; [lia|].
  rewrite IH, results_step_n_incorrect. lia.
Qed.

Lemma results_loop_bucket ua qs i t tp :
  let b := bucket_at (breakdown t) tp in
  let b' := bucket_at (breakdown (results_loop ua i qs t)) tp in
  total b' = total b + count_from (λ _ q, in_topic tp q) i qs ∧
  correct b' =
    correct b + count_from (λ j q, in_topic tp q && answered_correct ua j) i qs ∧
  incorrect b' =
    incorrect b + count_from (λ j q, in_topic tp q && answered_incorrect ua j) i qs.
Proof.
  revert i t. induction qs as [|q qs IH]; intros i t; simpl; [lia|].
  destruct (IH (S i) (results_step ua i q t)) as (-> & -> & ->).
  destruct (results_step_bucket ua i q t tp) as (-> & -> & ->). lia.
Qed.

Lemma results_loop_present ua qs i t tp :
  is_Some (breakdown (results_loop ua i qs t) !! tp) ↔
  is_Some (breakdown t !! tp) ∨ 0 < count_from (λ _ q, in_topic tp q) i qs.
Proof.
  revert i t. induction qs as [|q qs IH]; intros i t; simpl; [intuition lia|].
  rewrite IH, results_step_present. unfold in_topic.
  pose proof (count_from_nonneg (λ _ q, in_topic tp q) (S i) qs) as Hnn.
  unfold in_topic in Hnn. case_bool_decide; intuition lia.
Qed.

Lemma count_from_pos P i qs j q :
  qs !! j = Some q → P (i + j)%nat q = true → 0 < count_from P i qs.
Proof.
  revert i j. induction qs as [|q' qs IH]; intros i j Hq HP; [done|].
  simpl. pose proof (count_from_nonneg P (S i) qs).
  destruct j as [|j]; simplify_eq/=.
  - rewrite Nat.add_0_r in HP. rewrite HP. lia.
  - specialize (IH (S i) j Hq). replace (S i + j)%nat with (i + S j)%nat in IH by lia.
    specialize (IH HP). destruct (P i q'); lia.
Qed.

Lemma count_from_answer_cases ua i qs :
  count_from (λ j _, answered_correct ua j) i qs
  + count_from (λ j _, answered_incorrect ua j) i qs
  + count_from (λ j _, unanswered ua j) i qs = Z.of_nat (length qs).
Proof.
  revert i. induction qs as [|q qs IH]; intros i; [done|].
  simpl. specialize (IH (S i)).
  unfold answered_correct, answered_incorrect, unanswered in *.
  destruct (ua !! Py.str (Z.of_nat i)) as [a|]; [destruct (is_correct a)|]; simpl;
    rewrite ?bool_decide_eq_true_2, ?bool_decide_eq_false_2 by done; lia.
Qed.

Lemma accuracy_of_value score_ total_ :
  accuracy_of score_ total_ =
  Ok (if bool_decide (0 < total_)
      then (Qc_of_Z 100 * Qc_of_Z score_ / Qc_of_Z total_)%Qc else 0%Qc).
Proof.
  unfold accuracy_of, Py.truediv. case_bool_decide as Hpos; [|done].
  rewrite bool_decide_eq_false_2 by lia. simpl. f_equal.
  unfold Qcdiv. ring.
Qed.

(** [results] on a session that holds questions. *)
Lemma results_active g now ok s qs :
  questions s = Some qs →
  let t := tally qs (default ∅ (user_answers s)) in
  ∃ rep,
    results g now ok s =
      {| out := Ok (RenderResults (n_correct t) (Z.of_nat (length qs)) rep);
         sess := {| user_id := user_id s; guest_id := guest_id s;
                    questions := None; score := score s; start_time := None;
                    timed_test := None; user_answers := None |};
         calls := match g_user g with
                  | Some u => FirestoreAdd (uid u) rep ::
                              (if ok then [FirestoreSet (uid u) (email u)] else [])
                  | None => []
                  end |} ∧
    report_score rep = n_correct t ∧
    total_questions rep = Z.of_nat (length qs) ∧
    correct_count rep = n_correct t ∧
    incorrect_count rep = n_incorrect t ∧
    unanswered_count rep = Z.of_nat (length qs) - (n_correct t + n_incorrect t) ∧
    topic_breakdown rep = breakdown t ∧
    accuracy rep = Py.round2
      (if bool_decide (0 < Z.of_nat (length qs))
       then (Qc_of_Z 100 * Qc_of_Z (n_correct t) / Qc_of_Z (Z.of_nat (length qs)))%Qc
       else 0%Qc).
Proof.
  intros Hqs t. unfold results. rewrite Hqs. fold t.
  rewrite accuracy_of_value. eexists. split; [reflexivity|]. simpl. done.
Qed.

(** ** The report of [results] *)

(** C5.  For every question list and ledger, the report of [results] has a
    per-topic breakdown keyed by ["{subject_abbr} -> {chapter}"]: a bucket
    exists exactly for the topics of the questions, its [total] counts every
    question of the topic, answered or not, its [correct] and [incorrect]
    count the questions of the topic whose position has a correct,
    respectively incorrect, entry in the ledger, and
    [unanswered_count = total - correct_count - incorrect_count], which is
    the number of positions without an entry. *)
Theorem results_topic_breakdown g now ok s qs :
  questions s = Some qs →
  let ua := default ∅ (user_answers s) in
  ∃ sc rep,
    out (results g now ok s) = Ok (RenderResults sc (Z.of_nat (length qs)) rep) ∧
    total_questions rep = Z.of_nat (length qs) ∧
    (∀ q, q ∈ qs →
       is_Some (topic_breakdown rep !!
                  (subject_abbr q +:+ " -> " +:+ default "General" (chapter q))%string)) ∧
    (∀ tp, topic_breakdown rep !! tp =
       if bool_decide (0 < count_from (λ _ q, in_topic tp q) 0 qs) then
         Some {| correct := count_from (λ j q, in_topic tp q && answered_correct ua j) 0 qs;
                 incorrect := count_from (λ j q, in_topic tp q && answered_incorrect ua j) 0 qs;
                 total := count_from (λ _ q, in_topic tp q) 0 qs |}
       else None) ∧
    correct_count rep = count_from (λ j _, answered_correct ua j) 0 qs ∧
    incorrect_count rep = count_from (λ j _, answered_incorrect ua j) 0 qs ∧
    unanswered_count rep = total_questions rep - correct_count rep - incorrect_count rep ∧
    unanswered_count rep = count_from (λ j _, unanswered ua j) 0 qs.
Proof.
  intros Hqs ua.
  destruct (results_active g now ok s qs Hqs)
    as (rep & Hres & _ & Htot & Hc & Hi & Hu & Htb & _).
  fold ua in Hres, Hc, Hi, Hu, Htb.
  assert (Hcc : n_correct (tally qs ua) = count_from (λ j _, answered_correct ua j) 0 qs).
  { unfold tally. rewrite results_loop_n_correct. simpl. lia. }
  assert (Hci : n_incorrect (tally qs ua) = count_from (λ j _, answered_incorrect ua j) 0 qs).
  { unfold tally. rewrite results_loop_n_incorrect. simpl. lia. }
  assert (Hlook : ∀ tp, breakdown (tally qs ua) !! tp =
       if bool_decide (0 < count_from (λ _ q, in_topic tp q) 0 qs) then
         Some {| correct := count_from (λ j q, in_topic tp q && answered_correct ua j) 0 qs;
                 incorrect := count_from (λ j q, in_topic tp q && answered_incorrect ua j) 0 qs;
                 total := count_from (λ _ q, in_topic tp q) 0 qs |}
       else None).
  { intros tp. unfold tally.
    set (t0 := {| n_correct := 0; n_incorrect := 0; breakdown := ∅ |}).
    pose proof (results_loop_present ua qs 0 t0 tp) as Hpres.
    pose proof (results_loop_bucket ua qs 0 t0 tp) as (Ht & Hco & Hin).
    unfold bucket_at in Ht, Hco, Hin. simpl in Hpres, Ht, Hco, Hin.
    rewrite lookup_empty in Hpres, Ht, Hco, Hin. simpl in Ht, Hco, Hin.
    case_bool_decide as Hpos.
    - destruct Hpres as [_ [b Hb]]; [by right|].
      rewrite Hb in Ht, Hco, Hin |- *. simpl in Ht, Hco, Hin.
      destruct b as [c i t]. simpl in *. f_equal. f_equal; lia.
    - destruct (breakdown (results_loop ua 0 qs t0) !! tp) as [b|] eqn:Hb; [|done].
      destruct Hpres as [[[? Hemp]|?] _]; [by eexists| |lia].
      done. }
  exists (n_correct (tally qs ua)), rep. rewrite Hres. simpl.
  split; [done|]. split; [done|]. split.
  { intros q [j Hj]%list_elem_of_lookup. rewrite Htb, Hlook.
    rewrite bool_decide_eq_true_2; [by eexists|].
    apply (count_from_pos _ 0 qs j q Hj). unfold in_topic, topic_of.
    by apply bool_decide_eq_true_2. }
  split; [intros tp; by rewrite Htb|].
  rewrite Hc, Hi, Hu, Htot, Hcc, Hci.
  pose proof (count_from_answer_cases ua 0 qs). repeat split; lia.
Qed.

Lemma results_topic_breakdown_witness :
  questions sample_answered = Some sample_questions ∧
  ∃ sc rep,
    out (results guest (Qc_of_Z 1700000350) true sample_answered) = Ok (RenderResults sc 3 rep) ∧
    topic_breakdown rep !! "LR -> Syllogisms"%string =
      Some {| correct := 1; incorrect := 1; total := 2 |} ∧
    topic_breakdown rep !! "QA -> Ratios"%string =
      Some {| correct := 0; incorrect := 0; total := 1 |} ∧
    topic_breakdown rep !! "VA -> Synonyms"%string = None ∧
    unanswered_count rep = 1.
Proof.
  split; [reflexivity|].
  destruct (results_topic_breakdown guest (Qc_of_Z 1700000350) true sample_answered
              sample_questions eq_refl)
    as (sc & rep & Hout & _ & _ & Hlook & _ & _ & _ & Hun).
  exists sc, rep. split; [exact Hout|].
  rewrite !Hlook, Hun. vm_compute. repeat split; reflexivity.
Defined.

(** C6.  The accuracy [results] computes is [100 * correct_count / total]
    when [total > 0] and [0] when [total = 0]; the division is never
    reached with a zero divisor, and [results] raises nothing, whatever the
    session. *)
Theorem results_accuracy_guarded (qs : list Question) (ua : gmap string AnswerInfo) :
  let score_ := n_correct (tally qs ua) in
  let total_ := Z.of_nat (length qs) in
  accuracy_of score_ total_ =
    Ok (if bool_decide (0 < total_)
        then (Qc_of_Z 100 * Qc_of_Z score_ / Qc_of_Z total_)%Qc else 0%Qc) ∧
  accuracy_of (n_correct (tally [] ua)) 0 = Ok 0%Qc ∧
  (∀ g now ok s, ∃ r, out (results g now ok s) = Ok r) ∧
  (∀ g now ok s, questions s = Some qs → user_answers s = Some ua →
     ∃ rep, out (results g now ok s) = Ok (RenderResults score_ total_ rep) ∧
       accuracy rep = Py.round2
         (if bool_decide (0 < total_)
          then (Qc_of_Z 100 * Qc_of_Z score_ / Qc_of_Z total_)%Qc else 0%Qc)).
Proof.
  intros score_ total_. split; [apply accuracy_of_value|].
  split; [done|]. split.
  - intros g now ok s. destruct (questions s) as [qs'|] eqn:Hqs.
    + destruct (results_active g now ok s qs' Hqs) as (rep & -> & _). by eexists.
    + unfold results. rewrite Hqs. by eexists.
  - intros g now ok s Hqs Hua.
    destruct (results_active g now ok s qs Hqs) as (rep & -> & _ & _ & _ & _ & _ & _ & Hacc).
    rewrite Hua in Hacc. simpl in Hacc. exists rep. split; [by rewrite Hua|done].
Qed.

Lemma results_accuracy_guarded_witness :
  ∃ rep,
    out (results guest (Qc_of_Z 1700000350) true sample_answered) = Ok (RenderResults 1 3 rep) ∧
    accuracy rep = Q2Qc (3333 # 100).
Proof.
  destruct (results_accuracy_guarded sample_questions
              (default ∅ (user_answers sample_answered))) as (_ & _ & _ & H).
  destruct (H guest (Qc_of_Z 1700000350) true sample_answered) as (rep & Hout & Hacc);
    [reflexivity|reflexivity|].
  exists rep. split; [exact Hout|].
  rewrite Hacc. apply Qc_is_canon. vm_compute. reflexivity.
Defined.

(** ** Answer submission *)

(** [check_answer] on a session that holds questions and a ledger, for a
    position of the question list. *)
Lemma check_answer_accepts sel i s qs ua :
  questions s = Some qs → user_answers s = Some ua →
  0 ≤ i < Z.of_nat (length qs) →
  ∃ q, qs !! Z.to_nat i = Some q ∧
    check_answer sel (Some i) s =
      reply (JsonAnswer (bool_decide (sel = Some (correct_answer q))) (correct_answer q)
               (default "Solution not available."%string (solution q)))
            (set_user_answers
               (Some (<[Py.str i := {| user_answer := sel;
                                       is_correct := bool_decide (sel = Some (correct_answer q)) |}]> ua))
               s).
Proof.
  intros Hqs Hua Hi. destruct (getitem_in_range qs i Hi) as (q & Hq & Hget).
  exists q. split; [done|]. unfold check_answer.
  rewrite Hqs, bool_decide_eq_true_2 by done. simpl. by rewrite Hget, Hua.
Qed.

Lemma check_answer_rejects sel qi s qs :
  questions s = Some qs →
  (qi = None ∨ ∃ i, qi = Some i ∧ ¬ 0 ≤ i < Z.of_nat (length qs)) →
  check_answer sel qi s = reply (Json400 "Invalid question index") s.
Proof.
  intros Hqs [->|(i & -> & Hi)]; unfold check_answer; rewrite Hqs; [done|].
  by rewrite bool_decide_eq_false_2.
Qed.

(** The answers counted by [results] after an entry is written at position
    [i]: the entry, and what the rest of the ledger gives. *)
Lemma tally_insert qs ua (i : nat) a q :
  qs !! i = Some q →
  let t' := tally qs (<[Py.str (Z.of_nat i) := a]> ua) in
  let rest := tally qs (delete (Py.str (Z.of_nat i)) ua) in
  n_correct t' = n_correct rest + (if is_correct a then 1 else 0) ∧
  n_incorrect t' = n_incorrect rest + (if is_correct a then 0 else 1).
Proof.
  intros Hq t' rest. unfold t', rest, tally.
  rewrite !results_loop_n_correct, !results_loop_n_incorrect. simpl.
  assert (Hother : ∀ j, j ≠ i →
    <[Py.str (Z.of_nat i) := a]> ua !! Py.str (Z.of_nat j) =
    delete (Py.str (Z.of_nat i)) ua !! Py.str (Z.of_nat j)).
  { intros j Hj. rewrite lookup_insert_ne, lookup_delete_ne; [done|..];
      intros ?%str_of_nat_inj; done. }
  split.
  - rewrite (count_from_change_one
               (λ j _, answered_correct (<[Py.str (Z.of_nat i) := a]> ua) j)
               (λ j _, answered_correct (delete (Py.str (Z.of_nat i)) ua) j) 0 qs i q);
      [|lia|by rewrite Nat.sub_0_r|].
    + unfold answered_correct. rewrite lookup_insert_eq, lookup_delete_eq.
      destruct (is_correct a); lia.
    + intros j _ Hj. unfold answered_correct. by rewrite Hother.
  - rewrite (count_from_change_one
               (λ j _, answered_incorrect (<[Py.str (Z.of_nat i) := a]> ua) j)
               (λ j _, answered_incorrect (delete (Py.str (Z.of_nat i)) ua) j) 0 qs i q);
      [|lia|by rewrite Nat.sub_0_r|].
    + unfold answered_incorrect. rewrite lookup_insert_eq, lookup_delete_eq.
      destruct (is_correct a); simpl; lia.
    + intros j _ Hj. unfold answered_incorrect. by rewrite Hother.
Qed.

(** ** The invariant of sessions *)

Lemma wf_no_questions s : questions s = None → wf s.
Proof. intros Hq qs. by rewrite Hq. Qed.

Lemma wf_set_user_id v s : wf s → wf (set_user_id v s).
Proof. intros Hwf qs Hqs. apply (Hwf qs Hqs). Qed.

Lemma wf_check_answer sel qi s : wf s → wf (sess (check_answer sel qi s)).
Proof.
  intros Hwf. unfold check_answer.
  destruct (questions s) as [qs|] eqn:Hqs; [|done].
  destruct qi as [i|]; [|done].
  case_bool_decide as Hi; simpl; [|done].
  destruct (Py.getitem qs i) as [q|e]; [|done].
  destruct (Hwf qs Hqs) as (ua & t0 & timed & Hua & Ht0 & Htimed & Hkeys).
  rewrite Hua. simpl. intros qs' Hqs'. simpl in Hqs'. rewrite Hqs in Hqs'. simplify_eq.
  eexists _, t0, timed. repeat split; [done..|].
  intros k [<-|[_ Hk]]%lookup_insert_is_Some; [by exists i|by apply Hkeys].
Qed.

Lemma wf_index_post g form llm shuffle now s :
  wf s → wf (sess (index_post g form llm shuffle now s)).
Proof.
  intros Hwf. unfold index_post.
  destruct (_ && _); [done|].
  destruct (match form_subjects form with [] => _ | _ => _ end) as [[qs|e] cs]; [|done].
  simpl. intros qs' Hqs'. simplify_eq/=. eexists ∅, now, _.
  split_and!; [done..|]. intros k [? Hk]. by rewrite lookup_empty in Hk.
Qed.

Lemma wf_quiz now s : wf s → wf (sess (quiz now s)).
Proof.
  intros Hwf. unfold quiz. destruct (questions s); [|done].
  destruct (default false (timed_test s)); [|done].
  by destruct (start_time s).
Qed.

Lemma wf_results g now ok s : wf s → wf (sess (results g now ok s)).
Proof.
  intros Hwf. destruct (questions s) as [qs|] eqn:Hqs.
  - destruct (results_active g now ok s qs Hqs) as (rep & -> & _). by apply wf_no_questions.
  - unfold results. by rewrite Hqs.
Qed.

Lemma wf_dispatch g r s : wf s → wf (sess (dispatch g r s)).
Proof.
  intros Hwf. destruct r; simpl.
  - unfold index_get. by destruct (_ || _).
  - by apply wf_index_post.
  - by apply wf_quiz.
  - by apply wf_check_answer.
  - by apply wf_results.
  - by destruct r.
  - done.
  - destruct auth; simpl; [by apply wf_set_user_id|done..].
  - done.
  - destruct auth; simpl; [by apply wf_set_user_id|done..].
  - by apply wf_no_questions.
  - by apply wf_no_questions.
  - unfold user_history. by destruct (g_user g).
Qed.

Lemma wf_handle auth r s : wf s → wf (sess (handle auth r s)).
Proof.
  intros Hwf. unfold handle, load_logged_in_user.
  destruct (user_id s) as [u|]; [|by apply wf_dispatch].
  destruct (truthy (Some u)); [|by apply wf_dispatch].
  destruct auth; simpl; [by apply wf_dispatch| |done].
  by apply wf_dispatch, wf_no_questions.
Qed.

Lemma wf_run rs s : wf s → wf (run rs s).
Proof.
  revert s. induction rs as [|[auth r] rs IH]; intros s Hwf; [done|].
  simpl. by apply IH, wf_handle.
Qed.

(** Every session of a running application satisfies the invariant. *)
Lemma reachable_wf s : reachable s → wf s.
Proof. intros [rs ->]. by apply wf_run, wf_no_questions. Qed.

Lemma sample_session_reachable : reachable sample_session.
Proof. exists sample_start. vm_compute. reflexivity. Qed.

Lemma sample_answered_reachable : reachable sample_answered.
Proof. exists (sample_start ++ sample_answers). vm_compute. reflexivity. Qed.

(** ** A submission to the earlier application *)

Lemma remaining_ready now n s qs c sc ans vis :
  ready s qs c sc ans vis → ∃ r, Original.remaining now n s = Ok r.
Proof.
  intros (_ & _ & _ & _ & _ & _ & _ & [tt Ht] & [t0 H0] & [per Hp]).
  unfold Original.remaining. rewrite Ht, H0, Hp. simpl. destruct tt; eauto.
Qed.

(** What an accepted submission does to the session and what it answers. *)
Lemma original_check_answer_ready sel now s qs c sc ans vis :
  ready s qs c sc ans vis →
  - Z.of_nat (length qs) ≤ c < Z.of_nat (length qs) →
  ∃ q body s',
    qs !! wrapped (length qs) c = Some q ∧
    Original.check_answer sel now s = (Ok (Original.JsonChecked body), s') ∧
    Original.is_correct body = bool_decide (sel = Some (correct_answer q)) ∧
    Original.shown_answer body = correct_answer q ∧
    Original.shown_solution body ≠ ""%string ∧
    (∀ t, solution q = Some t → t ≠ ""%string → Original.shown_solution body = t) ∧
    Original.shown_score body = sc + (if Original.is_correct body then 1 else 0) ∧
    Original.shown_answered body = <[wrapped (length qs) c := true]> ans ∧
    Original.shown_visited body = vis ∧
    Original.has_next body = bool_decide (c + 1 < Z.of_nat (length qs)) ∧
    Original.remaining now (length qs) s = Ok (Original.time_left body) ∧
    (Original.timed_test s' = Original.timed_test s ∧
     Original.start_time s' = Original.start_time s ∧
     Original.time_per_question s' = Original.time_per_question s ∧
     Original.dark_mode s' = Original.dark_mode s ∧
     Original.selected_subjects s' = Original.selected_subjects s) ∧
    ready s' qs (if bool_decide (c + 1 < Z.of_nat (length qs)) then c + 1 else c)
      (Original.shown_score body) (<[wrapped (length qs) c := true]> ans) vis.
Proof.
  intros Hr Hc. pose proof Hr as (Hqs & Hcur & Hsc & Hans & Hvis & Hla & Hlv & Htt & Ht0 & Hper).
  destruct (getitem_wrapped qs c Hc) as (q & Hq & Hget).
  set (more := bool_decide (c + 1 < Z.of_nat (length qs))).
  set (correct := bool_decide (sel = Some (correct_answer q))).
  set (ans' := <[wrapped (length qs) c := true]> ans).
  set (s1 := Original.set_answered ans' s).
  set (s2 := if correct then Original.set_score (sc + 1) s1 else s1).
  set (s3 := if more then Original.set_current_question (c + 1) s2 else s2).
  assert (Hr3 : ready s3 qs (if more then c + 1 else c) (sc + (if correct then 1 else 0)) ans' vis).
  { unfold ready, s3, s2, s1, ans'. rewrite length_insert.
    destruct more, correct; simpl; rewrite ?Z.add_0_r; by split_and!. }
  destruct (remaining_ready now (length qs) s3 qs _ _ _ _ Hr3) as [r Hrem].
  assert (Hnext : ∃ nxt, (if more then q1 ← Py.getitem qs (c + 1); Ok (Some q1) else Ok None)
                         = Ok nxt).
  { unfold more. case_bool_decide as Hm; [|by eexists].
    destruct (getitem_wrapped qs (c + 1)) as (q1 & _ & ->); [lia|]. by eexists. }
  destruct Hnext as [nxt Hnext].
  exists q. eexists. exists s3. split; [done|].
  split.
  { unfold Original.check_answer. rewrite Hqs, Hcur. simpl. rewrite Hans. simpl.
    rewrite setitem_wrapped, Hla, bool_decide_eq_true_2 by done.
    rewrite Hget. fold correct ans' s1. cbn zeta.
    rewrite Hsc. simpl.
    assert ((if correct then Ok (Original.set_score (sc + 1) s1) else Ok s1) = Ok s2) as ->.
    { unfold s2. by destruct correct. }
    assert (Original.score s2 = Some (sc + (if correct then 1 else 0))) as Hsc2.
    { unfold s2. destruct correct; simpl; [done|]. rewrite Hsc. f_equal. lia. }
    assert (Original.visited s2 = Some vis) as Hvis2.
    { unfold s2. by destruct correct. }
    rewrite Hsc2, Hvis2. simpl. fold more. fold s3. rewrite Hnext. simpl. rewrite Hrem. simpl.
    reflexivity. }
  simpl. split_and!; try done;
    try (unfold s3, s2, s1; by destruct more, correct).
  - destruct (solution q) as [t|]; [|done]. by case_bool_decide.
  - intros t -> Ht. by rewrite bool_decide_eq_false_2.
Qed.


Lemma original_five_ready :
  ready original_five five_questions 0 0 (replicate 5 false) (replicate 5 false).
Proof. unfold ready. simpl. by split_and!. Qed.

(** ** Resubmission *)




(** ** Validation of the question index *)

(** C4.  In a session that holds [N] questions, [check_answer] answers
    "Invalid question index" exactly when [question_index] is missing or
    outside [0, N-1]; [-1] and [N] are rejected; a rejected call leaves the
    session, and so the ledger, unchanged. *)
Theorem check_answer_invalid_index sel qi s qs :
  questions s = Some qs →
  let N := Z.of_nat (length qs) in
  (out (check_answer sel qi s) = Ok (Json400 "Invalid question index")
   ↔ qi = None ∨ ∃ i, qi = Some i ∧ (i < 0 ∨ N ≤ i)) ∧
  (out (check_answer sel qi s) = Ok (Json400 "Invalid question index") →
   sess (check_answer sel qi s) = s ∧
   user_answers (sess (check_answer sel qi s)) = user_answers s) ∧
  check_answer sel None s = reply (Json400 "Invalid question index") s ∧
  check_answer sel (Some (-1)) s = reply (Json400 "Invalid question index") s ∧
  check_answer sel (Some N) s = reply (Json400 "Invalid question index") s.
Proof.
  intros Hqs N.
  assert (Hrej : ∀ qi', (qi' = None ∨ ∃ i, qi' = Some i ∧ (i < 0 ∨ N ≤ i)) →
            check_answer sel qi' s = reply (Json400 "Invalid question index") s).
  { intros qi' [->|(i & -> & Hi)]; apply (check_answer_rejects _ _ _ qs Hqs);
      [by left|right]. exists i. split; [done|]. unfold N in Hi. lia. }
  assert (Hiff : out (check_answer sel qi s) = Ok (Json400 "Invalid question index")
            ↔ qi = None ∨ ∃ i, qi = Some i ∧ (i < 0 ∨ N ≤ i)).
  { split; [|by intros ->%Hrej].
    destruct qi as [i|]; [|by left]. intros Hout. right. exists i. split; [done|].
    destruct (decide (0 ≤ i < N)) as [Hi|Hi]; [exfalso|lia].
    unfold check_answer in Hout. rewrite Hqs in Hout.
    rewrite bool_decide_eq_true_2 in Hout by done. simpl in Hout.
    destruct (Py.getitem qs i); [|done]. by destruct (user_answers s). }
  split; [done|]. split.
  { intros Hout%Hiff. by rewrite (Hrej _ Hout). }
  split; [apply Hrej; by left|].
  split; apply Hrej; right; eexists; (split; [done|lia]).
Qed.

Lemma check_answer_invalid_index_witness :
  questions sample_answered = Some sample_questions ∧
  out (check_answer (Some "A"%string) (Some (-1)) sample_answered)
    = Ok (Json400 "Invalid question index") ∧
  out (check_answer (Some "A"%string) (Some 3) sample_answered)
    = Ok (Json400 "Invalid question index") ∧
  sess (check_answer (Some "A"%string) (Some 3) sample_answered) = sample_answered ∧
  out (check_answer (Some "A"%string) (Some 2) sample_answered)
    ≠ Ok (Json400 "Invalid question index").
Proof.
  split; [reflexivity|].
  destruct (check_answer_invalid_index (Some "A"%string) (Some 3) sample_answered
              sample_questions eq_refl) as (_ & Hsame & _ & Hneg & Hlen).
  destruct (check_answer_invalid_index (Some "A"%string) (Some 2) sample_answered
              sample_questions eq_refl) as (Hiff & _).
  change (check_answer (Some "A"%string) (Some 3) sample_answered
          = reply (Json400 "Invalid question index") sample_answered) in Hlen.
  split; [by rewrite Hneg|]. split; [by rewrite Hlen|].
  split; [apply Hsame; by rewrite Hlen|].
  intros [?|(i & [= <-] & Hi)]%Hiff; [done|]. simpl in Hi. lia.
Defined.

(** ** What an accepted submission changes *)




(** ** A submission without a selected option *)

(** C10.  In a session that holds questions, [check_answer] with no selected
    option and a position of the question list does not fail: it answers
    [is_correct = false] with the correct answer and the solution, and
    writes the entry [{user_answer: None, is_correct: False}]; [results]
    then counts that position as incorrect, not as unanswered. *)
Theorem check_answer_null_selection g now ok i s qs :
  wf s → questions s = Some qs → 0 ≤ i < Z.of_nat (length qs) →
  ∃ q ua,
    qs !! Z.to_nat i = Some q ∧ user_answers s = Some ua ∧
    let h := check_answer None (Some i) s in
    let ua' := <[Py.str i := {| user_answer := None; is_correct := false |}]> ua in
    let rest := tally qs (delete (Py.str i) ua) in
    out h = Ok (JsonAnswer false (correct_answer q)
                  (default "Solution not available."%string (solution q))) ∧
    user_answers (sess h) = Some ua' ∧
    answered_incorrect ua' (Z.to_nat i) = true ∧
    unanswered ua' (Z.to_nat i) = false ∧
    ∃ rep,
      out (results g now ok (sess h))
        = Ok (RenderResults (report_score rep) (Z.of_nat (length qs)) rep) ∧
      correct_count rep = n_correct rest ∧
      incorrect_count rep = n_incorrect rest + 1 ∧
      unanswered_count rep =
        Z.of_nat (length qs) - n_correct rest - n_incorrect rest - 1.
Proof.
  intros Hwf Hqs Hi.
  destruct (Hwf qs Hqs) as (ua & _ & _ & Hua & _).
  destruct (check_answer_accepts None i s qs ua Hqs Hua Hi) as (q & Hq & Hcheck).
  exists q, ua. split; [done|]. split; [done|]. intros h ua' rest.
  rewrite bool_decide_eq_false_2 in Hcheck by done.
  subst h. rewrite Hcheck. unfold reply. cbn [out sess]. fold ua'.
  split; [done|]. split; [done|].
  split; [unfold answered_incorrect, ua'; by rewrite Z2Nat.id, lookup_insert_eq by lia|].
  split.
  { unfold unanswered, ua'. rewrite Z2Nat.id, lookup_insert_eq by lia.
    by apply bool_decide_eq_false_2. }
  destruct (results_active g now ok (set_user_answers (Some ua') s) qs Hqs)
    as (rep & -> & Hsc & _ & Hc & Hi' & Hu & _).
  simpl in Hsc, Hc, Hi', Hu. exists rep.
  pose proof (tally_insert qs ua (Z.to_nat i)
                {| user_answer := None; is_correct := false |} q Hq) as [Hn Hm].
  rewrite Z2Nat.id in Hn, Hm by lia. simpl in Hn, Hm. fold ua' rest in Hn, Hm.
  simpl. rewrite Hsc, Hc, Hi', Hu. split_and!; [done|lia..].
Qed.

Lemma check_answer_null_selection_witness :
  wf sample_answered ∧ questions sample_answered = Some sample_questions ∧
  let h := check_answer None (Some 2) sample_answered in
  out h = Ok (JsonAnswer false "C" "Because.") ∧
  ∃ rep,
    out (results guest (Qc_of_Z 1700000350) true (sess h)) = Ok (RenderResults 1 3 rep) ∧
    correct_count rep = 1 ∧ incorrect_count rep = 2 ∧ unanswered_count rep = 0.
Proof.
  split; [exact (reachable_wf _ sample_answered_reachable)|].
  split; [reflexivity|].
  destruct (check_answer_null_selection guest (Qc_of_Z 1700000350) true 2
              sample_answered sample_questions
              (reachable_wf _ sample_answered_reachable) eq_refl)
    as (q & ua & Hq & Hua & Hout & _ & _ & _ & rep & Hres & Hc & Hi & Hu);
    [simpl; lia|].
  injection Hq as <-. injection Hua as <-.
  cbv zeta. split; [exact Hout|]. exists rep.
  rewrite Hres, Hc, Hi, Hu.
  assert (report_score rep = 1) as ->.
  { pose proof (f_equal (λ o, match o with
                              | Ok (RenderResults sc _ _) => sc
                              | _ => 0
                              end) Hres) as Hsc.
    simpl in Hsc. rewrite <- Hsc. vm_compute. reflexivity. }
  vm_compute. repeat split; reflexivity.
Defined.

(** ** The end of a quiz *)

Lemma check_answer_expired sel qi s :
  questions s = None → check_answer sel qi s = reply (Json400 "Session expired") s.
Proof. intros Hq. unfold check_answer. by rewrite Hq. Qed.

(** Only [POST /] brings questions into a session that has none. *)
Lemma dispatch_stays_finished g r s :
  starts_quiz r = false → questions s = None → questions (sess (dispatch g r s)) = None.
Proof.
  intros Hr Hq. destruct r; simpl; try done.
  - unfold index_get. by destruct (_ || _).
  - unfold quiz. by rewrite Hq.
  - by rewrite check_answer_expired.
  - unfold results. by rewrite Hq.
  - by destruct r.
  - by destruct auth.
  - by destruct auth.
  - unfold user_history. by destruct (g_user g).
Qed.

Lemma handle_stays_finished auth r s :
  starts_quiz r = false → questions s = None → questions (sess (handle auth r s)) = None.
Proof.
  intros Hr Hq. unfold handle, load_logged_in_user.
  destruct (user_id s) as [u|]; [|by apply dispatch_stays_finished].
  destruct (truthy (Some u)); [|by apply dispatch_stays_finished].
  destruct auth; simpl; [by apply dispatch_stays_finished| |done].
  by apply dispatch_stays_finished.
Qed.

Lemma run_stays_finished rs s :
  Forall (λ p, starts_quiz p.2 = false) rs →
  questions s = None → questions (run rs s) = None.
Proof.
  intros Hrs. revert s. induction Hrs as [|[auth r] rs Hr _ IH]; intros s Hq; [done|].
  simpl. by apply IH, handle_stays_finished.
Qed.

(** C3.  When [results] has served a session that holds questions, the
    questions, the ledger, the start time and the timed flag are gone, and
    [check_answer] answers "Session expired"; this stays so through every
    sequence of requests none of which is [POST /]: no route but [index]
    brings a quiz back.  [POST /] starts afresh, with an empty ledger and a
    new start time. *)
Theorem results_ends_session g now ok s qs rs sel qi :
  questions s = Some qs →
  Forall (λ p, starts_quiz p.2 = false) rs →
  let finished := sess (results g now ok s) in
  (∃ sc tot rep, out (results g now ok s) = Ok (RenderResults sc tot rep)) ∧
  questions finished = None ∧
  user_answers finished = None ∧
  start_time finished = None ∧
  timed_test finished = None ∧
  check_answer sel qi finished = reply (Json400 "Session expired") finished ∧
  questions (run rs finished) = None ∧
  check_answer sel qi (run rs finished)
    = reply (Json400 "Session expired") (run rs finished) ∧
  (∀ g' form llm shuffle now',
     let h := index_post g' form llm shuffle now' (run rs finished) in
     out h = Ok (Redirect "quiz") →
     user_answers (sess h) = Some ∅ ∧ start_time (sess h) = Some now' ∧
     score (sess h) = Some 0 ∧ is_Some (questions (sess h))).
Proof.
  intros Hqs Hrs finished.
  destruct (results_active g now ok s qs Hqs) as (rep & Hres & _).
  assert (Hfin : questions finished = None) by (unfold finished; by rewrite Hres).
  split; [rewrite Hres; by eexists _, _, _|].
  split; [done|].
  split; [unfold finished; by rewrite Hres|].
  split; [unfold finished; by rewrite Hres|].
  split; [unfold finished; by rewrite Hres|].
  split; [by apply check_answer_expired|].
  split; [by apply run_stays_finished|].
  split; [by apply check_answer_expired, run_stays_finished|].
  intros g' form llm shuffle now' h Hout. subst h. unfold index_post in *.
  destruct (_ && _); [done|].
  destruct (match form_subjects form with [] => _ | _ => _ end) as [[qs'|e] cs];
    [|done].
  simpl. split_and!; done.
Qed.

Lemma results_ends_session_witness :
  questions sample_answered = Some sample_questions ∧
  let finished := sess (results guest (Qc_of_Z 1700000350) true sample_answered) in
  let later := run [ (AuthNotFound, GetQuiz (Qc_of_Z 1700000360));
                     (AuthNotFound, PostCheckAnswer (Some "C"%string) (Some 2));
                     (AuthNotFound, GetResults (Qc_of_Z 1700000370) true);
                     (AuthNotFound, GetIndex) ] finished in
  questions finished = None ∧
  out (check_answer (Some "C"%string) (Some 2) finished) = Ok (Json400 "Session expired") ∧
  out (check_answer (Some "C"%string) (Some 2) later) = Ok (Json400 "Session expired").
Proof.
  split; [reflexivity|].
  destruct (results_ends_session guest (Qc_of_Z 1700000350) true sample_answered
              sample_questions
              [ (AuthNotFound, GetQuiz (Qc_of_Z 1700000360));
                (AuthNotFound, PostCheckAnswer (Some "C"%string) (Some 2));
                (AuthNotFound, GetResults (Qc_of_Z 1700000370) true);
                (AuthNotFound, GetIndex) ]
              (Some "C"%string) (Some 2) eq_refl)
    as (_ & Hq & _ & _ & _ & Hnow & _ & Hlater & _).
  { repeat constructor. }
  cbv zeta. split; [exact Hq|]. split; [by rewrite Hnow|by rewrite Hlater].
Defined.

(** ** Question generation *)

Lemma get_default_questions_take subject n :
  0 ≤ n →
  get_default_questions subject n = take (Z.to_nat n) (default [] (defaults !! subject)).
Proof.
  intros Hn. unfold get_default_questions, Py.slice_to.
  by rewrite bool_decide_eq_true_2.
Qed.

(** [generate_questions] catches whatever its [try] block raises. *)
Lemma generate_questions_total subject difficulty n llm :
  ∃ r, generate_questions subject difficulty n llm = Ok r.
Proof. unfold generate_questions. destruct llm; simpl; by eexists. Qed.

(** C7.  [generate_questions] never raises.  For a requested count
    [n ≥ 0]: when the call or the parsing fails it returns the first [n]
    default questions of the subject; when the language model delivers fewer
    than [n] questions it returns them followed by default questions of the
    subject, up to [n] in all; when it delivers [n] or more, the first [n].
    The result never has more than [n] questions, and it has fewer exactly
    when the delivered questions and the default pool together are fewer
    than [n]. *)
Theorem generate_questions_fallback subject difficulty n llm :
  let pool := default [] (defaults !! subject) in
  let delivered := match llm with LlmRaises => [] | LlmQuestions qs => qs end in
  (∃ r, generate_questions subject difficulty n llm = Ok r) ∧
  (0 ≤ n →
   ∃ r, generate_questions subject difficulty n llm = Ok r ∧
     r = match llm with
         | LlmRaises => take (Z.to_nat n) pool
         | LlmQuestions qs =>
             if bool_decide (n ≤ Z.of_nat (length qs)) then take (Z.to_nat n) qs
             else qs ++ take (Z.to_nat n - length qs) pool
         end ∧
     Z.of_nat (length r) ≤ n ∧
     (Z.of_nat (length r) < n ↔ Z.of_nat (length delivered + length pool) < n)).
Proof.
  intros pool delivered. split; [apply generate_questions_total|]. intros Hn.
  unfold generate_questions. destruct llm as [|qs]; simpl in *; subst delivered.
  - eexists. split; [done|]. rewrite get_default_questions_take by done. fold pool.
    split; [done|]. rewrite length_take. lia.
  - eexists. split; [done|].
    rewrite (bool_decide_ext (Z.of_nat (length qs) < n) (¬ n ≤ Z.of_nat (length qs))) by lia.
    rewrite bool_decide_not.
    case_bool_decide as Hle; simpl.
    + unfold Py.slice_to. rewrite bool_decide_eq_true_2 by done.
      split; [done|]. rewrite length_take. lia.
    + rewrite get_default_questions_take by lia. fold pool.
      unfold Py.slice_to. rewrite bool_decide_eq_true_2 by done.
      replace (Z.to_nat (n - Z.of_nat (length qs))) with (Z.to_nat n - length qs)%nat by lia.
      assert (take (Z.to_nat n) (qs ++ take (Z.to_nat n - length qs) pool)
              = qs ++ take (Z.to_nat n - length qs) pool) as ->.
      { apply take_ge. rewrite length_app, length_take. lia. }
      split; [done|]. rewrite length_app, length_take. lia.
Qed.

Lemma generate_questions_fallback_witness :
  ∃ r,
    generate_questions "Verbal Ability" "Easy" 3
      (LlmQuestions [sample_question "Verbal Ability" "Idioms" "D"]) = Ok r ∧
    length r = 2%nat ∧
    generate_questions "Logical Reasoning" "Easy" 1 LlmRaises
      = Ok (default [] (defaults !! "Logical Reasoning"%string)).
Proof.
  destruct (generate_questions_fallback "Verbal Ability" "Easy" 3
              (LlmQuestions [sample_question "Verbal Ability" "Idioms" "D"]))
    as (_ & Hpad).
  destruct Hpad as (r & Hr & -> & _); [lia|].
  destruct (generate_questions_fallback "Logical Reasoning" "Easy" 1 LlmRaises)
    as (_ & Hfail).
  destruct Hfail as (r' & Hr' & -> & _); [lia|].
  eexists. split; [exact Hr|]. split; [reflexivity|exact Hr'].
Defined.

(** Outside the counts [index] asks for: with a negative count the slices
    count from the end, and the result is longer than the count. *)
Remark generate_questions_negative_count :
  ∃ r,
    generate_questions "Logical Reasoning" "Easy" (-2)
      (LlmQuestions sample_questions) = Ok r ∧ length r = 1%nat.
Proof. eexists. split; reflexivity. Qed.

(** ** The distribution of questions over subjects *)

Lemma q_count_cases N k i :
  (0 < k)%nat →
  let base := N `div` Z.of_nat k in
  let extra := N `mod` Z.of_nat k in
  0 ≤ extra < Z.of_nat k ∧
  (q_count N k i = base + 1 ↔ Z.of_nat i < extra) ∧
  (q_count N k i = base ↔ extra ≤ Z.of_nat i).
Proof.
  intros Hk base extra. unfold q_count. fold base extra.
  pose proof (Z.mod_pos_bound N (Z.of_nat k)). case_bool_decide; lia.
Qed.

Lemma Zsum_app l1 l2 : Zsum (l1 ++ l2) = Zsum l1 + Zsum l2.
Proof. unfold Zsum. induction l1 as [|x l1 IH]; simpl; lia. Qed.

Lemma Zsum_q_count N k m :
  (0 < k)%nat →
  Zsum (q_count N k <$> seq 0 m) =
  Z.of_nat m * (N `div` Z.of_nat k) + Z.min (Z.of_nat m) (N `mod` Z.of_nat k).
Proof.
  intros Hk. pose proof (Z.mod_pos_bound N (Z.of_nat k)).
  induction m as [|m IH]; [simpl; lia|].
  rewrite seq_S, fmap_app, Zsum_app, IH. simpl. unfold q_count.
  case_bool_decide; lia.
Qed.

Lemma length_filter_extra N k m :
  (0 < k)%nat →
  Z.of_nat (length (filter (λ i, q_count N k i = N `div` Z.of_nat k + 1) (seq 0 m))) =
  Z.min (Z.of_nat m) (N `mod` Z.of_nat k).
Proof.
  intros Hk. pose proof (Z.mod_pos_bound N (Z.of_nat k)).
  induction m as [|m IH]; [simpl; lia|].
  rewrite seq_S, filter_app, length_app, Nat2Z.inj_add, IH. simpl.
  destruct (q_count_cases N k m Hk) as (_ & Hiff & _).
  rewrite filter_cons, filter_nil. case_decide; simpl; lia.
Qed.

(** The calls of the loop of [index] when every count is positive. *)
Lemma index_loop_calls llm difficulty N k i subjects acc :
  (∀ j, 0 < q_count N k j) →
  (∃ qs, (index_loop llm difficulty N k i subjects acc).1 = Ok qs) ∧
  (index_loop llm difficulty N k i subjects acc).2 =
    imap (λ j subject, GroqChat subject difficulty (q_count N k (i + j))) subjects.
Proof.
  intros Hpos. revert i acc. induction subjects as [|subject rest IH]; intros i acc.
  - simpl. split; [by eexists|done].
  - simpl. rewrite bool_decide_eq_true_2 by done.
    destruct (generate_questions_total subject difficulty (q_count N k i) (llm i))
      as [r ->].
    specialize (IH (S i) (acc ++ (tag_question subject <$> r))).
    destruct (index_loop _ _ _ _ (S i) rest _) as [res cs]. simpl in *.
    destruct IH as [Hok ->]. split; [done|].
    rewrite Nat.add_0_r. f_equal. apply imap_ext. intros j x _. simpl.
    by rewrite Nat.add_succ_r.
Qed.

Lemma original_generate_total lower sub difficulty n llm :
  ∃ r, Original.generate_questions lower sub difficulty n llm = Ok r.
Proof. unfold Original.generate_questions. destruct llm; simpl; by eexists. Qed.

(** The requests of the loop of the earlier [index]: one for every subject,
    in the order of selection. *)
Lemma original_index_loop_calls lower llm d N k i subjects acc :
  (∃ qs, (Original.index_loop lower llm d N k i subjects acc).1 = Ok qs) ∧
  (Original.index_loop lower llm d N k i subjects acc).2 =
    imap (λ j subject, GroqChat subject d (q_count N k (i + j))) subjects.
Proof.
  revert i acc. induction subjects as [|subject rest IH]; intros i acc.
  - simpl. split; [by eexists|done].
  - simpl.
    destruct (original_generate_total lower subject d (q_count N k i) (llm i)) as [r ->].
    specialize (IH (S i) (acc ++ r)).
    destruct (Original.index_loop _ _ _ _ _ (S i) rest _) as [res cs]. simpl in *.
    destruct IH as [Hok ->]. split; [done|].
    rewrite Nat.add_0_r. f_equal. apply imap_ext. intros j x _. simpl.
    by rewrite Nat.add_succ_r.
Qed.

(** C2.  For a total count [N] and [k] selected subjects with
    [1 ≤ k ≤ N], [index] asks the language model, subject by subject in the
    order of selection, for [N // k] questions, and for one more from each
    of the first [N mod k] subjects; the counts add up to [N] and exactly
    [N mod k] subjects, hence at most that many, get the extra question.
    [index] of the earlier application asks for the same counts, in the
    same order. *)
Theorem subject_distribution (N : Z) (subjects : list string) :
  let k := length subjects in
  let base := N `div` Z.of_nat k in
  let extra := N `mod` Z.of_nat k in
  let share (i : nat) := base + (if bool_decide (Z.of_nat i < extra) then 1 else 0) in
  1 ≤ Z.of_nat k ≤ N →
  (∀ g form llm shuffle now s,
     form_subjects form = subjects →
     clamp_num_questions (form_num_questions form) = N →
     is_Some (g_user g) ∨ truthy (g_guest_id g) = true →
     out (index_post g form llm shuffle now s) = Ok (Redirect "quiz") ∧
     calls (index_post g form llm shuffle now s) =
       imap (λ i subject,
               GroqChat subject (default "Medium"%string (form_difficulty form)) (share i))
            subjects) ∧
  (∀ lower form llm shuffle now s,
     Original.form_subjects form = subjects →
     clamp_num_questions (Original.form_num_questions form) = N →
     (Original.index_post lower form llm shuffle now s).1.1 = Ok (Original.Moved "quiz") ∧
     (Original.index_post lower form llm shuffle now s).2 =
       imap (λ i subject,
               GroqChat subject (default "Medium"%string (Original.form_difficulty form))
                 (share i))
            subjects) ∧
  Zsum (share <$> seq 0 k) = N ∧
  0 ≤ extra < Z.of_nat k ∧
  Z.of_nat (length (filter (λ i, share i = base + 1) (seq 0 k))) = extra ∧
  ∀ i : nat, (share i = base + 1 ↔ Z.of_nat i < extra) ∧
             (share i = base ↔ extra ≤ Z.of_nat i).
Proof.
  intros k base extra share Hk.
  assert (Hk0 : (0 < k)%nat) by lia.
  assert (Hbase : 1 ≤ base).
  { unfold base. apply Z.div_le_lower_bound; lia. }
  pose proof (Z.mod_pos_bound N (Z.of_nat k) ltac:(lia)) as Hextra. fold extra in Hextra.
  assert (Hpos : ∀ j, 0 < q_count N k j).
  { intros j. unfold q_count. fold base extra. case_bool_decide; lia. }
  split.
  { intros g form llm shuffle now s Hsub HN Hg. unfold index_post.
    assert (negb (bool_decide (is_Some (g_user g))) && negb (truthy (g_guest_id g)) = false)
      as ->.
    { destruct Hg as [Hu| ->]; [rewrite bool_decide_eq_true_2 by done; done|].
      by rewrite andb_false_r. }
    rewrite HN, Hsub. fold k.
    destruct (index_loop_calls llm (default "Medium"%string (form_difficulty form)) N k 0
                subjects [] Hpos) as [[qs Hok] Hcalls].
    assert (subjects ≠ []) as Hne
      by (intros Heq; unfold k in Hk0; rewrite Heq in Hk0; simpl in Hk0; lia).
    destruct subjects as [|subject rest] eqn:Hsubjects; [done|].
    destruct (index_loop _ _ _ _ _ _ _) as [res cs]. simpl in Hok, Hcalls. subst res cs.
    simpl. done. }
  split.
  { intros lower form llm shuffle now s Hsub HN. unfold Original.index_post.
    rewrite HN, Hsub. fold k.
    destruct (original_index_loop_calls lower llm
                (default "Medium"%string (Original.form_difficulty form)) N k 0
                subjects []) as [[qs Hok] Hcalls].
    assert (subjects ≠ []) as Hne
      by (intros Heq; unfold k in Hk0; rewrite Heq in Hk0; simpl in Hk0; lia).
    destruct subjects as [|subject rest] eqn:Hsubjects; [done|].
    destruct (Original.index_loop _ _ _ _ _ _ _ _) as [res cs]. simpl in Hok, Hcalls.
    subst res cs. simpl. done. }
  split.
  { change (Zsum (q_count N k <$> seq 0 k) = N). rewrite Zsum_q_count by done.
    pose proof (Z.div_mod N (Z.of_nat k) ltac:(lia)) as Hdm.
    fold base extra in Hdm |- *. lia. }
  split; [done|]. split.
  { change (Z.of_nat (length (filter (λ i, q_count N k i = N `div` Z.of_nat k + 1) (seq 0 k)))
            = extra).
    rewrite length_filter_extra by done. fold extra. lia. }
  intros i. destruct (q_count_cases N k i Hk0) as (_ & H1 & H2). done.
Qed.

Lemma subject_distribution_witness :
  let h := index_post guest sample_form sample_llm id (Qc_of_Z 1700000100) sample_session in
  out h = Ok (Redirect "quiz") ∧
  calls h = [GroqChat "Logical Reasoning" "Easy" 2; GroqChat "Quantitative Aptitude" "Easy" 1] ∧
  (Original.index_post ascii_lower
     (original_form ["Logical Reasoning"; "Quantitative Aptitude"]%string 3)
     failing_llm id (Qc_of_Z 1700000100) Original.empty_session).2 =
    [GroqChat "Logical Reasoning" "Medium" 2; GroqChat "Quantitative Aptitude" "Medium" 1] ∧
  Zsum [2; 1] = 3.
Proof.
  destruct (subject_distribution 3 ["Logical Reasoning"; "Quantitative Aptitude"]%string)
    as (Hindex & Hreq & Hsum & _); [simpl; lia|].
  destruct (Hindex guest sample_form sample_llm id (Qc_of_Z 1700000100) sample_session
              eq_refl eq_refl) as (Hout & Hcalls); [right; reflexivity|].
  destruct (Hreq ascii_lower
              (original_form ["Logical Reasoning"; "Quantitative Aptitude"]%string 3)
              failing_llm id (Qc_of_Z 1700000100) Original.empty_session eq_refl eq_refl)
    as (_ & Hcalls').
  cbv zeta. split; [exact Hout|]. split; [exact Hcalls|]. split; [exact Hcalls'|exact Hsum].
Defined.

(** ** The time left of a timed quiz *)

Lemma max0_spec (x : Qc) :
  (0 ≤ Py.max0 x)%Qc ∧ (x ≤ Py.max0 x)%Qc ∧ (Py.max0 x = 0%Qc ∨ Py.max0 x = x).
Proof.
  unfold Py.max0. case_bool_decide as Hx.
  - split; [by apply Qclt_le_weak|]. split; [apply Qcle_refl|by right].
  - split; [apply Qcle_refl|]. split; [by apply Qcnot_lt_le|by left].
Qed.

Lemma position_in_range {A} (xs : list A) (i : Z) :
  0 ≤ i < Z.of_nat (length xs) → Py.position xs i = Some (Z.to_nat i).
Proof. intros Hi. unfold Py.position. by rewrite bool_decide_eq_true_2. Qed.

(** [check_answer] of the earlier application on a session as its [index]
    leaves it, with the current question in range. *)
Lemma original_check_answer_time_left sel now (o : Original.Session) qs t0 per c ans sc vis :
  Original.questions o = Some qs →
  Original.timed_test o = Some true →
  Original.start_time o = Some t0 →
  Original.time_per_question o = Some per →
  Original.current_question o = Some c →
  0 ≤ c < Z.of_nat (length qs) →
  Original.answered o = Some ans → length ans = length qs →
  Original.score o = Some sc →
  Original.visited o = Some vis →
  ∃ body o',
    Original.check_answer sel now o = (Ok (Original.JsonChecked body), o') ∧
    Original.time_left body =
      Some (Py.max0 (Qc_of_Z (Z.of_nat (length qs) * per) - (now - t0))%Qc) ∧
    Original.questions o' = Some qs.
Proof.
  intros Hqs Htimed Ht0 Hper Hc Hrange Hans Hlen Hsc Hvis.
  destruct (getitem_in_range qs c Hrange) as (q & _ & Hget).
  unfold Original.check_answer. rewrite Hqs, Hc, Hans. simpl.
  unfold Py.setitem. rewrite position_in_range by lia. rewrite Hget.
  destruct (bool_decide (sel = Some (correct_answer q))); simpl;
    rewrite Hsc; simpl; rewrite ?Hsc, Hvis; simpl;
    (case_bool_decide as Hmore;
     [ destruct (getitem_in_range qs (c + 1)) as (q1 & _ & ->); [lia|] | ]);
    unfold Original.remaining; simpl; rewrite Htimed, Ht0, Hper; simpl;
    by eexists _, _.
Qed.

(** C8.  For a timed session of [N] questions, the time left that [quiz]
    reports at time [now] is [max(0, N * 60 - elapsed)] with
    [elapsed = now - start_time]: it is never negative, never below
    [N * 60 - elapsed], and one of the two; with five questions it is [50]
    after [250] seconds and [0] after [301].  Reporting it changes nothing:
    the session is as before, questions included, also when no time is
    left.  [check_answer] of the earlier application, whose session stores
    the sixty seconds per question, reports the same value and keeps the
    questions. *)
Theorem time_left_reported :
  (∀ now s qs t0,
     questions s = Some qs → timed_test s = Some true → start_time s = Some t0 →
     let elapsed := (now - t0)%Qc in
     let allowed := Qc_of_Z (Z.of_nat (length qs) * 60) in
     let remaining := Py.max0 (allowed - elapsed)%Qc in
     quiz now s = reply (RenderQuiz qs (length qs) true (Some remaining)) s ∧
     (0 ≤ remaining)%Qc ∧ (allowed - elapsed ≤ remaining)%Qc ∧
     (remaining = 0%Qc ∨ remaining = (allowed - elapsed)%Qc) ∧
     sess (quiz now s) = s ∧
     questions (sess (quiz now s)) = Some qs ∧
     (length qs = 5%nat → elapsed = Qc_of_Z 250 → remaining = Qc_of_Z 50) ∧
     (length qs = 5%nat → elapsed = Qc_of_Z 301 → remaining = 0%Qc)) ∧
  (∀ sel now (o : Original.Session) qs t0 c ans sc vis,
     Original.questions o = Some qs →
     Original.timed_test o = Some true →
     Original.start_time o = Some t0 →
     Original.time_per_question o = Some 60 →
     Original.current_question o = Some c → 0 ≤ c < Z.of_nat (length qs) →
     Original.answered o = Some ans → length ans = length qs →
     Original.score o = Some sc → Original.visited o = Some vis →
     ∃ body o',
       Original.check_answer sel now o = (Ok (Original.JsonChecked body), o') ∧
       Original.time_left body =
         Some (Py.max0 (Qc_of_Z (Z.of_nat (length qs) * 60) - (now - t0))%Qc) ∧
       Original.questions o' = Some qs).
Proof.
  split.
  - intros now s qs t0 Hqs Htimed Ht0 elapsed allowed remaining.
    assert (Hquiz : quiz now s = reply (RenderQuiz qs (length qs) true (Some remaining)) s).
    { unfold quiz. by rewrite Hqs, Htimed, Ht0. }
    destruct (max0_spec (allowed - elapsed)%Qc) as (H0 & Hle & Hor).
    rewrite Hquiz. split; [done|]. split; [done|]. split; [done|]. split; [done|].
    split; [done|]. split; [done|].
    subst remaining allowed. split; intros -> ->; apply Qc_is_canon; reflexivity.
  - intros. by eapply original_check_answer_time_left.
Qed.

Lemma time_left_reported_witness :
  questions timed_five = Some five_questions ∧
  timed_test timed_five = Some true ∧
  out (quiz (Qc_of_Z 1700000350) timed_five)
    = Ok (RenderQuiz five_questions 5 true (Some (Qc_of_Z 50))) ∧
  out (quiz (Qc_of_Z 1700000401) timed_five)
    = Ok (RenderQuiz five_questions 5 true (Some 0%Qc)) ∧
  sess (quiz (Qc_of_Z 1700000401) timed_five) = timed_five ∧
  ∃ body o',
    Original.check_answer (Some "A"%string) (Qc_of_Z 1700000350) original_five
      = (Ok (Original.JsonChecked body), o') ∧
    Original.time_left body = Some (Qc_of_Z 50).
Proof.
  destruct time_left_reported as [Hmajor Horiginal].
  destruct (Hmajor (Qc_of_Z 1700000350) timed_five five_questions (Qc_of_Z 1700000100)
              eq_refl eq_refl eq_refl) as (Hq1 & _ & _ & _ & _ & _ & H250 & _).
  destruct (Hmajor (Qc_of_Z 1700000401) timed_five five_questions (Qc_of_Z 1700000100)
              eq_refl eq_refl eq_refl) as (Hq2 & _ & _ & _ & Hsame & _ & _ & H301).
  destruct (Horiginal (Some "A"%string) (Qc_of_Z 1700000350) original_five five_questions
              (Qc_of_Z 1700000100) 0 (replicate 5 false) 0 (replicate 5 false)
              eq_refl eq_refl eq_refl eq_refl eq_refl) as (body & o' & Hcheck & Hleft & _);
    [simpl; lia|reflexivity|reflexivity|reflexivity|reflexivity|].
  split; [reflexivity|]. split; [reflexivity|].
  split.
  { rewrite Hq1. unfold reply. cbn [out]. do 3 f_equal. apply H250; [reflexivity|].
    apply Qc_is_canon. reflexivity. }
  split.
  { rewrite Hq2. reflexivity. }
  split; [exact Hsame|].
  exists body, o'. split; [exact Hcheck|]. rewrite Hleft. f_equal.
  apply Qc_is_canon. reflexivity.
Defined.

(** ** External calls of an answer submission *)

Lemma check_answer_calls sel qi s : calls (check_answer sel qi s) = [].
Proof.
  unfold check_answer. destruct (questions s) as [qs|]; [|done].
  destruct qi as [i|]; [|done]. destruct (negb _); [done|].
  destruct (Py.getitem qs i); [|done]. by destruct (user_answers s).
Qed.

(** A request to [/check_answer] makes the calls of the [before_request]
    hook and no other: none for a guest, the lookup of the user for a
    logged-in user. *)
Remark check_answer_request_calls auth sel qi s :
  calls (handle auth (PostCheckAnswer sel qi) s) =
  match user_id s with
  | Some u => if truthy (Some u) then [AuthGetUser u] else []
  | None => []
  end.
Proof.
  unfold handle, load_logged_in_user.
  destruct (user_id s) as [u|]; [destruct (truthy (Some u)); [destruct auth|]|];
    simpl; rewrite ?check_answer_calls; done.
Qed.

(** * Further properties of the ledger application *)

(** ** The quiz [index] assembles *)

Lemma generate_questions_length subject difficulty n llm :
  0 ≤ n →
  Z.of_nat (length (generated subject difficulty n llm)) =
  Z.min n (Z.of_nat (delivered llm + length (default [] (defaults !! subject)))).
Proof.
  intros Hn. unfold generated, generate_questions. destruct llm as [|qs]; simpl.
  - rewrite get_default_questions_take, length_take by done. lia.
  - case_bool_decide as Hlt.
    + rewrite get_default_questions_take by lia.
      unfold Py.slice_to. rewrite bool_decide_eq_true_2 by done.
      rewrite length_take, length_app, length_take. lia.
    + unfold Py.slice_to. rewrite bool_decide_eq_true_2 by done.
      rewrite length_take. lia.
Qed.

Lemma index_loop_assembled llm difficulty N k i subjects acc :
  (index_loop llm difficulty N k i subjects acc).1 =
  Ok (acc ++ assembled llm difficulty N k i subjects).
Proof.
  revert i acc. induction subjects as [|subject rest IH]; intros i acc; simpl.
  - by rewrite app_nil_r.
  - unfold subject_block, generated. case_bool_decide as Hpos.
    + destruct (generate_questions_total subject difficulty (q_count N k i) (llm i))
        as [r Hr]. rewrite Hr.
      specialize (IH (S i) (acc ++ (tag_question subject <$> r))).
      destruct (index_loop _ _ _ _ (S i) rest _) as [res cs]. simpl in *.
      by rewrite IH, <- app_assoc.
    + by rewrite IH.
Qed.

(** [POST /] for a request that passes the guard. *)
Lemma index_post_started g form llm shuffle now s :
  is_Some (g_user g) ∨ truthy (g_guest_id g) = true →
  out (index_post g form llm shuffle now s) = Ok (Redirect "quiz") ∧
  sess (index_post g form llm shuffle now s) =
    {| user_id := user_id s; guest_id := guest_id s;
       questions :=
         Some (shuffle (assembled llm (default "Medium"%string (form_difficulty form))
                          (clamp_num_questions (form_num_questions form))
                          (length (form_subjects form)) 0 (form_subjects form)));
       score := Some 0; start_time := Some now;
       timed_test := Some (bool_decide (form_timed_test form = Some "on"%string));
       user_answers := Some ∅ |}.
Proof.
  intros Hg. unfold index_post.
  assert (negb (bool_decide (is_Some (g_user g))) && negb (truthy (g_guest_id g)) = false)
    as ->.
  { destruct Hg as [Hu| ->]; [by rewrite bool_decide_eq_true_2|by rewrite andb_false_r]. }
  destruct (form_subjects form) as [|subject rest] eqn:Hsub; [done|].
  pose proof (index_loop_assembled llm (default "Medium"%string (form_difficulty form))
                (clamp_num_questions (form_num_questions form))
                (length (subject :: rest)) 0 (subject :: rest) []) as Hloop.
  destruct (index_loop _ _ _ _ _ _ _) as [res cs]. simpl in Hloop. subst res. done.
Qed.

Lemma length_subject_block llm difficulty N k i subject :
  Z.of_nat (length (subject_block llm difficulty N k i subject)) =
  block_size llm N k i subject.
Proof.
  unfold subject_block, block_size. case_bool_decide; [|done].
  rewrite length_fmap. apply generate_questions_length. lia.
Qed.

Lemma subject_block_tagged llm difficulty N k i sub q :
  q ∈ subject_block llm difficulty N k i sub →
  subject q = Some sub ∧ is_Some (chapter q).
Proof.
  unfold subject_block. case_bool_decide; [|by intros ?%elem_of_nil].
  intros (q0 & -> & _)%list_elem_of_fmap. simpl. split; [done|by eexists].
Qed.

Lemma length_assembled llm difficulty N k i subjects :
  Z.of_nat (length (assembled llm difficulty N k i subjects)) =
  Zsum (imap (λ j sub, block_size llm N k (i + j) sub) subjects).
Proof.
  revert i. induction subjects as [|sub rest IH]; intros i; [done|].
  simpl. rewrite length_app, Nat2Z.inj_add, length_subject_block, IH, Nat.add_0_r.
  unfold Zsum at 2. simpl. fold (Zsum (imap ((λ j sub0, block_size llm N k (i + j) sub0) ∘ S) rest)).
  f_equal. f_equal. apply imap_ext. intros j x _. simpl. by rewrite Nat.add_succ_r.
Qed.

Lemma block_size_bounds llm N k i sub :
  0 ≤ block_size llm N k i sub ≤ Z.max 0 (q_count N k i).
Proof. unfold block_size. case_bool_decide; lia. Qed.

Lemma Zsum_imap_le {A} (f g : nat → A → Z) (l : list A) :
  (∀ j x, l !! j = Some x → f j x ≤ g j x) → Zsum (imap f l) ≤ Zsum (imap g l).
Proof.
  revert f g. induction l as [|x l IH]; intros f g Hfg; [done|].
  unfold Zsum in *. simpl. specialize (IH (f ∘ S) (g ∘ S)).
  pose proof (Hfg 0%nat x eq_refl). 
  assert (foldr Z.add 0 (imap (f ∘ S) l) ≤ foldr Z.add 0 (imap (g ∘ S) l)).
  { apply IH. intros j y Hj. apply (Hfg (S j) y Hj). }
  lia.
Qed.

Lemma Zsum_imap_eq {A} (f g : nat → A → Z) (l : list A) :
  (∀ j x, l !! j = Some x → f j x = g j x) → Zsum (imap f l) = Zsum (imap g l).
Proof. intros Hfg. f_equal. apply imap_ext. naive_solver. Qed.

Lemma Zsum_imap_seq {A} (f : nat → Z) (l : list A) :
  Zsum (imap (λ j _, f j) l) = Zsum (f <$> seq 0 (length l)).
Proof.
  revert f. induction l as [|x l IH]; intros f; [done|].
  unfold Zsum in *. simpl. rewrite <- fmap_S_seq, <- list_fmap_compose.
  by rewrite <- (IH (f ∘ S)).
Qed.

(** The positive counts of the distribution add up to the total, or to
    nothing when the total is negative. *)
Lemma Zsum_positive_counts N k :
  (0 < k)%nat → Zsum ((λ j, Z.max 0 (q_count N k j)) <$> seq 0 k) = Z.max 0 N.
Proof.
  intros Hk. pose proof (Z.mod_pos_bound N (Z.of_nat k) ltac:(lia)) as Hmod.
  pose proof (Z.div_mod N (Z.of_nat k) ltac:(lia)) as Hdm.
  destruct (decide (0 ≤ N)) as [HN|HN].
  - assert (0 ≤ N `div` Z.of_nat k) by (apply Z.div_pos; lia).
    rewrite (list_fmap_ext _ (q_count N k)).
    + rewrite Zsum_q_count by done. lia.
    + intros j x _. unfold q_count. case_bool_decide; lia.
  - assert (N `div` Z.of_nat k < 0) by (apply Z.div_lt_upper_bound; lia).
    rewrite (list_fmap_ext _ (λ _, 0)).
    + assert (∀ l : list nat, Zsum ((λ _, 0) <$> l) = 0) as ->; [|lia].
      intros l. induction l as [|x l IH]; [done|].
      rewrite fmap_cons. unfold Zsum in *. simpl. by rewrite IH.
    + intros j x _. unfold q_count. case_bool_decide; lia.
Qed.

Lemma defaults_pool_size sub :
  length (default [] (defaults !! sub)) =
  match defaults !! sub with Some _ => 1%nat | None => 0%nat end.
Proof.
  unfold defaults. simpl. rewrite !lookup_insert. repeat case_decide; by simpl.
Qed.

Lemma elem_of_assembled llm difficulty N k i subjects q :
  q ∈ assembled llm difficulty N k i subjects →
  ∃ sub, sub ∈ subjects ∧ subject q = Some sub ∧ is_Some (chapter q).
Proof.
  revert i. induction subjects as [|sub rest IH]; intros i; simpl; [by intros ?%elem_of_nil|].
  intros [Hq|Hq]%elem_of_app.
  - exists sub. split; [by left|]. by eapply subject_block_tagged.
  - destruct (IH _ Hq) as (sub' & ? & ?). exists sub'. split; [by right|done].
Qed.

(** X1.  Whether the calls to the language model fail or deliver lists of
    question objects, of whatever length, the quiz [index] stores has at most
    as many questions as were asked for, hence at most thirty, and none when
    the count is zero or negative; each of its questions carries one of the
    selected subjects and a chapter. *)
Theorem index_quiz_bounded g form llm shuffle now s :
  (∀ l, shuffle l ≡ₚ l) →
  is_Some (g_user g) ∨ truthy (g_guest_id g) = true →
  ∃ qs,
    questions (sess (index_post g form llm shuffle now s)) = Some qs ∧
    Z.of_nat (length qs) ≤ Z.max 0 (clamp_num_questions (form_num_questions form)) ∧
    (length qs ≤ 30)%nat ∧
    ∀ q, q ∈ qs →
      ∃ sub, sub ∈ form_subjects form ∧ subject q = Some sub ∧ is_Some (chapter q).
Proof.
  intros Hperm Hg. destruct (index_post_started g form llm shuffle now s Hg) as [_ ->].
  eexists. split; [done|].
  set (N := clamp_num_questions (form_num_questions form)).
  set (subjects := form_subjects form).
  set (d := default "Medium"%string (form_difficulty form)).
  assert (Hlen : Z.of_nat (length (shuffle (assembled llm d N (length subjects) 0 subjects)))
                 ≤ Z.max 0 N).
  { rewrite (Permutation_length (Hperm _)), length_assembled.
    destruct subjects as [|sub rest] eqn:Hsub; [unfold Zsum; simpl; lia|].
    rewrite <- Hsub.
    etrans; [apply (Zsum_imap_le _ (λ j _, Z.max 0 (q_count N (length subjects) j)))|].
    { intros j x _. apply block_size_bounds. }
    rewrite Zsum_imap_seq, Zsum_positive_counts; [done|]. rewrite Hsub. simpl. lia. }
  split; [done|]. split.
  { assert (N ≤ 30) by (unfold N, clamp_num_questions; lia). lia. }
  intros q Hq. rewrite (Hperm _) in Hq. by eapply elem_of_assembled.
Qed.

Lemma index_quiz_bounded_witness :
  ∃ qs,
    questions (sess (index_post guest sample_form sample_llm id (Qc_of_Z 1700000100)
                       empty_session)) = Some qs ∧
    (length qs ≤ 30)%nat ∧
    ∀ q, q ∈ qs → is_Some (chapter q).
Proof.
  destruct (index_quiz_bounded guest sample_form sample_llm id (Qc_of_Z 1700000100)
              empty_session) as (qs & Hqs & _ & H30 & Htag).
  - intros l. reflexivity.
  - right. reflexivity.
  - exists qs. split; [exact Hqs|]. split; [exact H30|].
    intros q Hq. destruct (Htag q Hq) as (sub & _ & _ & Hch). exact Hch.
Defined.

Lemma Zsum_block_size_all_fail llm N k i (subjects : list string) :
  (∀ j, 1 ≤ q_count N k j) → (∀ j, llm j = LlmRaises) →
  Zsum (imap (λ j sub, block_size llm N k (i + j) sub) subjects) =
  Z.of_nat (length (filter (λ sub, is_Some (defaults !! sub)) subjects)).
Proof.
  intros Hpos Hfail. revert i. induction subjects as [|sub rest IH]; intros i; [done|].
  rewrite filter_cons. unfold Zsum in *. simpl.
  rewrite (imap_ext _ (λ j sub0, block_size llm N k (S i + j) sub0))
    by (intros j x _; simpl; by rewrite Nat.add_succ_r).
  rewrite IH. unfold block_size.
  rewrite bool_decide_eq_true_2 by (specialize (Hpos (i + 0)%nat); lia).
  rewrite Hfail. simpl. rewrite defaults_pool_size. specialize (Hpos (i + 0)%nat).
  destruct (defaults !! sub) as [pool|] eqn:Hpool.
  - rewrite decide_True by (by eexists). simpl. lia.
  - rewrite decide_False by (intros [? ?]; done). lia.
Qed.

(** X2.  The size of the quiz [index] stores is the sum, over the selected
    subjects with a positive count, of the count or, when that is smaller,
    of the number of delivered questions plus the size of the default pool
    of the subject.  So the quiz has exactly the [N ≥ 0] questions asked for
    when every call delivers at least its count; and when every call fails
    and [1 ≤ k ≤ N], it has one question for each selected subject that has
    a default question, and no other. *)
Theorem index_quiz_size g form llm shuffle now s :
  let subjects := form_subjects form in
  let k := length subjects in
  let N := clamp_num_questions (form_num_questions form) in
  (∀ l, shuffle l ≡ₚ l) →
  is_Some (g_user g) ∨ truthy (g_guest_id g) = true →
  ∃ qs,
    questions (sess (index_post g form llm shuffle now s)) = Some qs ∧
    Z.of_nat (length qs) = Zsum (imap (block_size llm N k) subjects) ∧
    ((0 < k)%nat → 0 ≤ N →
     (∀ i, (i < k)%nat → q_count N k i ≤ Z.of_nat (delivered (llm i))) →
     Z.of_nat (length qs) = N) ∧
    (1 ≤ Z.of_nat k ≤ N → (∀ i, llm i = LlmRaises) →
     length qs = length (filter (λ sub, is_Some (defaults !! sub)) subjects)).
Proof.
  intros subjects k N Hperm Hg.
  destruct (index_post_started g form llm shuffle now s Hg) as [_ ->].
  eexists. split; [done|]. fold subjects k N.
  rewrite (Permutation_length (Hperm _)).
  assert (Hsize : Z.of_nat (length (assembled llm (default "Medium"%string (form_difficulty form))
                                      N k 0 subjects))
                  = Zsum (imap (block_size llm N k) subjects)).
  { rewrite length_assembled. apply Zsum_imap_eq. done. }
  split; [done|]. split.
  - intros Hk HN Hfull. rewrite Hsize.
    rewrite (Zsum_imap_eq _ (λ j _, Z.max 0 (q_count N k j))).
    + rewrite Zsum_imap_seq. fold k. rewrite Zsum_positive_counts by done. lia.
    + intros j x Hj. apply lookup_lt_Some in Hj. specialize (Hfull j Hj).
      unfold block_size. case_bool_decide; lia.
  - intros Hk Hfail. apply Nat2Z.inj. rewrite Hsize.
    assert (Hpos : ∀ j, 1 ≤ q_count N k j).
    { intros j. unfold q_count.
      assert (1 ≤ N `div` Z.of_nat k) by (apply Z.div_le_lower_bound; lia).
      case_bool_decide; lia. }
    rewrite <- (Zsum_block_size_all_fail llm N k 0 subjects Hpos Hfail).
    by apply Zsum_imap_eq.
Qed.

Lemma index_quiz_size_witness :
  (∃ qs,
     questions (sess (index_post guest sample_form sample_llm id (Qc_of_Z 1700000100)
                        empty_session)) = Some qs ∧ length qs = 3%nat) ∧
  (∃ qs,
     questions (sess (index_post guest sample_form failing_llm id (Qc_of_Z 1700000100)
                        empty_session)) = Some qs ∧ length qs = 2%nat).
Proof.
  split.
  - destruct (index_quiz_size guest sample_form sample_llm id (Qc_of_Z 1700000100)
                empty_session) as (qs & Hqs & _ & Hfull & _);
      [intros l; reflexivity|right; reflexivity|].
    exists qs. split; [exact Hqs|]. apply Nat2Z.inj. apply Hfull; [simpl; lia|by vm_compute|].
    intros [|[|i]] Hi; simpl in Hi; [vm_compute; discriminate..|lia].
  - destruct (index_quiz_size guest sample_form failing_llm id (Qc_of_Z 1700000100)
                empty_session) as (qs & Hqs & _ & _ & Hfail);
      [intros l; reflexivity|right; reflexivity|].
    exists qs. split; [exact Hqs|]. rewrite Hfail; [reflexivity|by vm_compute|done].
Defined.

(** ** No route fails by itself *)

Lemma index_post_ok g form llm shuffle now s :
  ∃ resp, out (index_post g form llm shuffle now s) = Ok resp.
Proof.
  destruct (negb (bool_decide (is_Some (g_user g))) && negb (truthy (g_guest_id g)))
    eqn:Hguard.
  - unfold index_post. rewrite Hguard. by eexists.
  - destruct (index_post_started g form llm shuffle now s) as [-> _]; [|by eexists].
    apply andb_false_iff in Hguard as [Hu|Hguest].
    + left. apply negb_false_iff, bool_decide_eq_true in Hu. done.
    + right. by apply negb_false_iff in Hguest.
Qed.

Lemma quiz_ok now s : wf s → ∃ resp, out (quiz now s) = Ok resp.
Proof.
  intros Hwf. unfold quiz. destruct (questions s) as [qs|] eqn:Hqs; [|by eexists].
  destruct (Hwf qs Hqs) as (ua & t0 & timed & _ & -> & -> & _). simpl.
  destruct timed; by eexists.
Qed.

Lemma check_answer_ok sel qi s : wf s → ∃ resp, out (check_answer sel qi s) = Ok resp.
Proof.
  intros Hwf. destruct (questions s) as [qs|] eqn:Hqs.
  - destruct (Hwf qs Hqs) as (ua & _ & _ & Hua & _).
    destruct qi as [i|]; [destruct (decide (0 ≤ i < Z.of_nat (length qs))) as [Hi|Hi]|].
    + destruct (check_answer_accepts sel i s qs ua Hqs Hua Hi) as (q & _ & ->). by eexists.
    + rewrite (check_answer_rejects sel (Some i) s qs Hqs); [by eexists|]. right. by exists i.
    + rewrite (check_answer_rejects sel None s qs Hqs); [by eexists|by left].
  - rewrite check_answer_expired by done. by eexists.
Qed.

Lemma results_ok g now ok s : ∃ resp, out (results g now ok s) = Ok resp.
Proof.
  destruct (questions s) as [qs|] eqn:Hqs.
  - destruct (results_active g now ok s qs Hqs) as (rep & -> & _). by eexists.
  - unfold results. rewrite Hqs. by eexists.
Qed.

Lemma dispatch_ok g r s :
  wf s →
  (∃ resp, out (dispatch g r s) = Ok resp) ∨
  (out (dispatch g r s) = Raise ExternalFailure ∧
   (r = PostReport BadReportData ∨ r = PostReport AgentFails)).
Proof.
  intros Hwf. destruct r; simpl.
  - left. unfold index_get. destruct (_ || _); by eexists.
  - left. apply index_post_ok.
  - left. by apply quiz_ok.
  - left. by apply check_answer_ok.
  - left. apply results_ok.
  - destruct r; simpl; [left; by eexists|right..|left; by eexists]; split; auto.
  - left. by eexists.
  - left. destruct auth; by eexists.
  - left. by eexists.
  - left. destruct auth; by eexists.
  - left. by eexists.
  - left. by eexists.
  - left. unfold user_history. destruct (g_user g); by eexists.
Qed.

(** X3.  For requests of the expected types (an integer count, an integer
    or [null] question index, replies of the language model that are lists
    of question objects), on a session such requests lead to, a request ends
    with an uncaught exception only when an external service fails: the
    identity lookup of the [before_request] hook, or the report page (posted
    data that is not JSON, a failing report agent).  The quiz routes
    [index], [quiz], [check_answer] and [results] then never raise: no key
    they read is missing, no index is out of range and no division is by
    zero. *)
Theorem only_external_failures auth r s :
  reachable s →
  (∃ resp, out (handle auth r s) = Ok resp) ∨
  (out (handle auth r s) = Raise ExternalFailure ∧
   ((auth = AuthFails ∧ truthy (user_id s) = true) ∨
    r = PostReport BadReportData ∨ r = PostReport AgentFails)).
Proof.
  intros Hwf%reachable_wf. unfold handle, load_logged_in_user.
  assert (Hempty : wf empty_session) by (by apply wf_no_questions).
  destruct (user_id s) as [u|] eqn:Hu.
  - destruct (truthy (Some u)) eqn:Htruthy.
    + destruct auth; simpl.
      * destruct (dispatch_ok {| g_user := Some u0; g_guest_id := guest_id s |} r s Hwf)
          as [?|[? ?]]; [by left|right; auto].
      * destruct (dispatch_ok {| g_user := None; g_guest_id := guest_id s |} r
                    empty_session Hempty) as [?|[? ?]]; [by left|right; auto].
      * right. auto.
    + simpl. destruct (dispatch_ok {| g_user := None; g_guest_id := guest_id s |} r s Hwf)
        as [?|[? ?]]; [by left|right; auto].
  - simpl. destruct (dispatch_ok {| g_user := None; g_guest_id := guest_id s |} r s Hwf)
      as [?|[? ?]]; [by left|right; auto].
Qed.

Lemma only_external_failures_witness :
  reachable sample_answered ∧
  (∃ resp, out (handle AuthNotFound (PostCheckAnswer None (Some 7)) sample_answered) = Ok resp) ∧
  (∃ resp, out (handle AuthNotFound (GetQuiz (Qc_of_Z 1700000999)) sample_answered) = Ok resp).
Proof.
  split; [exact sample_answered_reachable|].
  split.
  - destruct (only_external_failures AuthNotFound (PostCheckAnswer None (Some 7))
                sample_answered sample_answered_reachable) as [H|[_ [[H _]|[H|H]]]];
      [exact H|discriminate..].
  - destruct (only_external_failures AuthNotFound (GetQuiz (Qc_of_Z 1700000999))
                sample_answered sample_answered_reachable) as [H|[_ [[H _]|[H|H]]]];
      [exact H|discriminate..].
Defined.

(** ** Saving the report *)

(** X4.  What [results] shows and the session it leaves do not depend on
    whether the write to the document store succeeds.  For a guest nothing
    is written; for a logged-in user the report written under the user's id
    is the report shown, it carries the user's email as student name, and
    the email is written only after the report was. *)
Theorem results_store_failure_is_silent g now s :
  out (results g now true s) = out (results g now false s) ∧
  sess (results g now true s) = sess (results g now false s) ∧
  (∀ ok, g_user g = None → calls (results g now ok s) = []) ∧
  (∀ ok, questions s = None → calls (results g now ok s) = []) ∧
  (∀ ok u sc tot rep,
     g_user g = Some u →
     out (results g now ok s) = Ok (RenderResults sc tot rep) →
     student_name rep = email u ∧
     calls (results g now ok s) =
       FirestoreAdd (uid u) rep :: (if ok then [FirestoreSet (uid u) (email u)] else [])).
Proof.
  destruct (questions s) as [qs|] eqn:Hqs.
  - destruct (results_active g now true s qs Hqs) as (rep & Ht & _).
    destruct (results_active g now false s qs Hqs) as (rep' & Hf & _).
    assert (rep' = rep) as ->.
    { unfold results in Ht, Hf. rewrite Hqs in Ht, Hf.
      destruct (accuracy_of _ _); [|done]. by simplify_eq/=. }
    rewrite Ht, Hf. simpl. split; [done|]. split; [done|]. split.
    { intros [] Hg; [rewrite Ht|rewrite Hf]; simpl; by rewrite Hg. }
    split; [done|].
    intros ok u sc tot rep0 Hg Hout.
    assert (rep0 = rep) as ->.
    { destruct ok; [rewrite Ht in Hout|rewrite Hf in Hout]; simpl in Hout; congruence. }
    split.
    + unfold results in Ht. rewrite Hqs in Ht. destruct (accuracy_of _ _); [|done].
      simplify_eq/=. by rewrite Hg.
    + destruct ok; [rewrite Ht|rewrite Hf]; simpl; by rewrite Hg.
  - unfold results. rewrite Hqs. simpl. split_and!; done.
Qed.

Lemma results_store_failure_is_silent_witness :
  out (results {| g_user := Some {| uid := "u1"; email := "a@b.c" |}; g_guest_id := None |}
         (Qc_of_Z 1700000350) false sample_answered)
  = out (results {| g_user := Some {| uid := "u1"; email := "a@b.c" |}; g_guest_id := None |}
           (Qc_of_Z 1700000350) true sample_answered) ∧
  ∃ rep,
    calls (results {| g_user := Some {| uid := "u1"; email := "a@b.c" |}; g_guest_id := None |}
             (Qc_of_Z 1700000350) false sample_answered) = [FirestoreAdd "u1" rep] ∧
    student_name rep = "a@b.c"%string.
Proof.
  destruct (results_store_failure_is_silent
              {| g_user := Some {| uid := "u1"; email := "a@b.c" |}; g_guest_id := None |}
              (Qc_of_Z 1700000350) sample_answered) as (Hout & _ & _ & _ & Hsaved).
  split; [symmetry; exact Hout|].
  destruct (results_active
              {| g_user := Some {| uid := "u1"; email := "a@b.c" |}; g_guest_id := None |}
              (Qc_of_Z 1700000350) false sample_answered sample_questions eq_refl)
    as (rep & Hres & _).
  destruct (Hsaved false {| uid := "u1"; email := "a@b.c" |} _ _ rep eq_refl
              (f_equal out Hres)) as [Hname Hcalls].
  exists rep. split; [exact Hcalls|exact Hname].
Defined.

(** ** Submissions compose *)

Lemma check_answer_sess x qx s qs ua :
  questions s = Some qs → user_answers s = Some ua →
  sess (check_answer x qx s) = set_user_answers (Some (recorded x qx qs ua)) s.
Proof.
  intros Hqs Hua.
  assert (Hsame : s = set_user_answers (Some ua) s).
  { destruct s. simpl in *. by subst. }
  destruct qx as [i|];
    [|by rewrite (check_answer_rejects x None s qs Hqs) by (by left)].
  destruct (decide (0 ≤ i < Z.of_nat (length qs))) as [Hi|Hi].
  - destruct (check_answer_accepts x i s qs ua Hqs Hua Hi) as (q & Hq & ->).
    unfold recorded. rewrite Hq. by rewrite (bool_decide_eq_true_2 (0 ≤ i < _)).
  - rewrite (check_answer_rejects x (Some i) s qs Hqs) by (right; by exists i).
    unfold recorded. destruct (qs !! Z.to_nat i); [|done].
    by rewrite (bool_decide_eq_false_2 (0 ≤ i < _)).
Qed.

(** X5.  Submissions for different questions can be made in either order:
    the session is the same.  Repeating a submission changes nothing.  The
    verdict of a submission does not depend on the submissions made
    before. *)
Theorem check_answer_order_irrelevant a b i j qi s :
  i ≠ j →
  sess (check_answer a (Some i) (sess (check_answer b (Some j) s)))
  = sess (check_answer b (Some j) (sess (check_answer a (Some i) s))) ∧
  sess (check_answer a qi (sess (check_answer a qi s))) = sess (check_answer a qi s) ∧
  out (check_answer a qi (sess (check_answer b (Some j) s))) = out (check_answer a qi s).
Proof.
  intros Hij.
  destruct (questions s) as [qs|] eqn:Hqs;
    [|by rewrite !check_answer_expired by (by rewrite ?check_answer_expired)].
  destruct (user_answers s) as [ua|] eqn:Hua.
  - rewrite !(check_answer_sess _ _ s qs ua Hqs Hua).
    rewrite !(check_answer_sess _ _ (set_user_answers _ s) qs _ Hqs eq_refl).
    unfold set_user_answers. simpl. split; [|split].
    + do 2 f_equal. unfold recorded.
      destruct (qs !! Z.to_nat i) as [qa|], (qs !! Z.to_nat j) as [qb|]; try done.
      destruct (bool_decide (0 ≤ i < _)), (bool_decide (0 ≤ j < _)); try done.
      apply insert_insert_ne. by intros ?%str_inj.
    + do 2 f_equal. unfold recorded. destruct qi as [ix|]; [|done].
      destruct (qs !! Z.to_nat ix) as [q|]; [|done].
      case_bool_decide; [|done]. apply insert_insert_eq.
    + unfold check_answer. simpl. rewrite Hqs, Hua.
      destruct qi as [ix|]; [|done]. destruct (negb _); [done|].
      by destruct (Py.getitem qs ix).
  - assert (Hnoop : ∀ x qx, check_answer x qx s = check_answer x qx s ∧
              sess (check_answer x qx s) = s).
    { intros x qx. split; [done|]. unfold check_answer. rewrite Hqs, Hua.
      destruct qx as [ix|]; [|done]. destruct (negb _); [done|].
      by destruct (Py.getitem qs ix). }
    by rewrite !(proj2 (Hnoop _ _)).
Qed.

Lemma check_answer_order_irrelevant_witness :
  sess (check_answer (Some "C"%string) (Some 2)
          (sess (check_answer None (Some 0) sample_session)))
  = sess (check_answer None (Some 0)
            (sess (check_answer (Some "C"%string) (Some 2) sample_session))).
Proof.
  destruct (check_answer_order_irrelevant (Some "C"%string) None 2 0 None sample_session)
    as (H & _); [lia|exact H].
Defined.

(** ** The size of the ledger *)

Lemma count_from_none i qs : count_from (λ _ _, false) i qs = 0.
Proof. revert i. induction qs as [|q qs IH]; intros i; simpl; [done|]. by rewrite IH. Qed.

(** A ledger whose keys are positions of the question list has as many
    entries as there are answered positions. *)
Lemma count_answered_size (qs : list Question) (ua : gmap string AnswerInfo) :
  (∀ k, is_Some (ua !! k) → ∃ i : Z, 0 ≤ i < Z.of_nat (length qs) ∧ k = Py.str i) →
  count_from (λ j _, negb (unanswered ua j)) 0 qs = Z.of_nat (size ua).
Proof.
  induction ua as [|k v m Hk IH] using map_ind; intros Hkeys.
  - rewrite map_size_empty. rewrite (count_from_ext _ (λ _ _, false)).
    + apply count_from_none.
    + intros j q _ _. unfold unanswered. rewrite lookup_empty. by rewrite bool_decide_eq_true_2.
  - rewrite map_size_insert_None by done.
    destruct (Hkeys k) as (i0 & Hi0 & ->); [rewrite lookup_insert_eq; by eexists|].
    destruct (lookup_lt_is_Some_2 qs (Z.to_nat i0)) as [q0 Hq0]; [lia|].
    rewrite (count_from_change_one _ (λ j _, negb (unanswered m j)) 0 qs (Z.to_nat i0) q0);
      [|lia|by rewrite Nat.sub_0_r|].
    + rewrite IH.
      * unfold unanswered. rewrite Z2Nat.id by lia. rewrite lookup_insert_eq, Hk.
        rewrite bool_decide_eq_false_2, bool_decide_eq_true_2 by done. simpl. lia.
      * intros k' Hk'. apply Hkeys. rewrite lookup_insert_is_Some.
        destruct (decide (Py.str i0 = k')); [by left|by right].
    + intros j _ Hj. unfold unanswered. rewrite lookup_insert_ne; [done|].
      intros Heq%str_inj. lia.
Qed.

(** X6.  In a session that requests of the expected types lead to (question
    indices are integers or [null]), the ledger never has more entries than
    the quiz has questions, and the report of [results] counts the entries:
    [correct_count + incorrect_count] is the number of entries and
    [unanswered_count] is the number of questions minus the number of
    entries. *)
Theorem ledger_size_is_answered g now ok s qs ua :
  reachable s → questions s = Some qs → user_answers s = Some ua →
  (size ua ≤ length qs)%nat ∧
  ∃ sc tot rep,
    out (results g now ok s) = Ok (RenderResults sc tot rep) ∧
    correct_count rep + incorrect_count rep = Z.of_nat (size ua) ∧
    unanswered_count rep = Z.of_nat (length qs) - Z.of_nat (size ua).
Proof.
  intros Hwf%reachable_wf Hqs Hua.
  destruct (Hwf qs Hqs) as (ua' & _ & _ & Hua' & _ & _ & Hkeys).
  rewrite Hua in Hua'. simplify_eq.
  pose proof (count_answered_size qs ua' Hkeys) as Hsize.
  pose proof (count_from_split (λ j _, negb (unanswered ua' j)) 0 qs) as Hsplit.
  rewrite (count_from_ext (λ j q, negb (negb (unanswered ua' j))) (λ j _, unanswered ua' j))
    in Hsplit by (intros; apply negb_involutive).
  pose proof (count_from_answer_cases ua' 0 qs) as Hcases.
  pose proof (count_from_nonneg (λ j _, unanswered ua' j) 0 qs) as Hnn.
  split; [lia|].
  destruct (results_active g now ok s qs Hqs) as (rep & -> & _ & _ & Hc & Hi & Hu & _).
  rewrite Hua in Hc, Hi, Hu. simpl in Hc, Hi, Hu.
  unfold tally in Hc, Hi, Hu.
  rewrite results_loop_n_correct in Hc, Hu. rewrite results_loop_n_incorrect in Hi, Hu.
  simpl in Hc, Hi, Hu.
  eexists _, _, rep. split; [done|]. lia.
Qed.

Lemma ledger_size_is_answered_witness :
  reachable sample_answered ∧
  ∃ ua sc tot rep,
    user_answers sample_answered = Some ua ∧ size ua = 2%nat ∧
    out (results guest (Qc_of_Z 1700000350) true sample_answered)
      = Ok (RenderResults sc tot rep) ∧
    unanswered_count rep = 1.
Proof.
  split; [exact sample_answered_reachable|].
  destruct (ledger_size_is_answered guest (Qc_of_Z 1700000350) true sample_answered
              sample_questions _ sample_answered_reachable eq_refl eq_refl)
    as (_ & sc & tot & rep & Hout & _ & Hun).
  eexists _, sc, tot, rep. split; [reflexivity|]. split; [reflexivity|].
  split; [exact Hout|]. rewrite Hun. reflexivity.
Defined.

(** ** Identity and the quiz *)

Lemma truthy_guest_id now : truthy (Some ("guest_" +:+ Py.str (Py.int_of now))%string) = true.
Proof. done. Qed.

(** X7.  When the identity service no longer knows the logged-in user, the
    hook clears the whole session before the route runs: a running quiz is
    lost, [check_answer] answers "Session expired", [quiz] and [results]
    redirect to the start page, and no report is computed or saved. *)
Theorem unknown_user_loses_the_quiz u sel qi now ok s :
  user_id s = Some u → u ≠ ""%string →
  handle AuthNotFound (PostCheckAnswer sel qi) s =
    {| out := Ok (Json400 "Session expired"); sess := empty_session;
       calls := [AuthGetUser u] |} ∧
  handle AuthNotFound (GetQuiz now) s =
    {| out := Ok (Redirect "index"); sess := empty_session; calls := [AuthGetUser u] |} ∧
  handle AuthNotFound (GetResults now ok) s =
    {| out := Ok (Redirect "index"); sess := empty_session; calls := [AuthGetUser u] |}.
Proof.
  intros Hu Hne. unfold handle, load_logged_in_user. rewrite Hu. simpl.
  rewrite bool_decide_eq_false_2 by done. simpl. done.
Qed.

Lemma unknown_user_loses_the_quiz_witness :
  let s := set_user_id (Some "u1"%string) sample_answered in
  is_Some (questions s) ∧
  sess (handle AuthNotFound (GetResults (Qc_of_Z 1700000350) true) s) = empty_session ∧
  out (handle AuthNotFound (GetResults (Qc_of_Z 1700000350) true) s) = Ok (Redirect "index").
Proof.
  destruct (unknown_user_loses_the_quiz "u1" None None (Qc_of_Z 1700000350) true
              (set_user_id (Some "u1"%string) sample_answered) eq_refl)
    as (_ & _ & Hres); [discriminate|].
  cbv zeta. split; [by eexists|]. rewrite Hres. split; reflexivity.
Defined.

Lemma index_loop_calls_groq llm difficulty N k i subjects acc c :
  c ∈ (index_loop llm difficulty N k i subjects acc).2 → ∃ sub d n, c = GroqChat sub d n.
Proof.
  revert i acc. induction subjects as [|sub rest IH]; intros i acc; simpl.
  - by intros ?%elem_of_nil.
  - case_bool_decide; [|apply IH].
    destruct (generate_questions _ _ _ _) as [r|e]; simpl.
    + specialize (IH (S i) (acc ++ (tag_question sub <$> r))).
      destruct (index_loop _ _ _ _ _ _ _) as [res cs]. simpl in *.
      intros [->|Hc]%elem_of_cons; [by eexists _, _, _|by apply IH].
    + intros [->|Hc]%elem_of_cons; [by eexists _, _, _|by apply elem_of_nil in Hc].
Qed.

Lemma index_post_calls_groq g form llm shuffle now s c :
  c ∈ calls (index_post g form llm shuffle now s) → ∃ sub d n, c = GroqChat sub d n.
Proof.
  unfold index_post. destruct (_ && _); [by intros ?%elem_of_nil|].
  destruct (form_subjects form) as [|sub rest] eqn:Hsub; [by intros ?%elem_of_nil|].
  pose proof (index_loop_calls_groq llm (default "Medium"%string (form_difficulty form))
                (clamp_num_questions (form_num_questions form)) (length (sub :: rest))
                0 (sub :: rest) [] c) as Hloop.
  destruct (index_loop _ _ _ _ _ _ _) as [[qs|e] cs]; simpl in *; exact Hloop.
Qed.

(** X8.  After [continue_as_guest], whatever the session was, [POST /]
    starts a quiz with an empty ledger and asks the identity service
    nothing.  After [logout], whatever the session was, [POST /] starts no
    quiz, calls no service and redirects to the login page, and [GET /]
    shows the welcome page. *)
Theorem guest_starts_and_logout_ends now s auth form llm shuffle now' :
  let as_guest := sess (continue_as_guest now s) in
  let started := handle auth (PostIndex form llm shuffle now') as_guest in
  let logged_out := sess (logout s) in
  questions as_guest = None ∧
  out started = Ok (Redirect "quiz") ∧
  is_Some (questions (sess started)) ∧
  user_answers (sess started) = Some ∅ ∧
  start_time (sess started) = Some now' ∧
  guest_id (sess started) = guest_id as_guest ∧
  (∀ c, c ∈ calls started → ∃ sub d n, c = GroqChat sub d n) ∧
  handle auth (PostIndex form llm shuffle now') logged_out =
    {| out := Ok (Redirect "login"); sess := empty_session; calls := [] |} ∧
  handle auth GetIndex logged_out =
    {| out := Ok RenderWelcome; sess := empty_session; calls := [] |}.
Proof.
  intros as_guest started logged_out. split; [done|].
  assert (Hstarted : started =
            index_post {| g_user := None; g_guest_id := guest_id as_guest |}
              form llm shuffle now' as_guest).
  { unfold started, handle, load_logged_in_user. simpl.
    by destruct (index_post _ _ _ _ _ _). }
  destruct (index_post_started {| g_user := None; g_guest_id := guest_id as_guest |}
              form llm shuffle now' as_guest) as [Hout Hsess]; [by right|].
  assert (Hcalls : ∀ c, c ∈ calls started → ∃ sub d n, c = GroqChat sub d n).
  { intros c Hc. rewrite Hstarted in Hc. by apply index_post_calls_groq in Hc. }
  clearbody started. subst started. rewrite Hout, Hsess. simpl. split_and!; done.
Qed.

Lemma check_answer_not_expired sel qi s :
  is_Some (questions s) → out (check_answer sel qi s) ≠ Ok (Json400 "Session expired").
Proof.
  intros [qs Hqs]. unfold check_answer. rewrite Hqs.
  destruct qi as [i|]; [|done]. case_bool_decide; simpl; [|done].
  destruct (Py.getitem qs i); [|done]. by destruct (user_answers s).
Qed.

(** X9.  The hook reads the guest id before it clears the session.  So when
    a session holds a guest id and the id of a user the identity service no
    longer knows, [POST /] still starts a quiz, in the cleared session: the
    session then holds a quiz but neither a user id nor a guest id, [GET /]
    shows the welcome page, and [check_answer] does not answer "Session
    expired". *)
Theorem quiz_without_identity u form llm shuffle now auth s :
  user_id s = Some u → u ≠ ""%string → truthy (guest_id s) = true →
  let h := handle AuthNotFound (PostIndex form llm shuffle now) s in
  out h = Ok (Redirect "quiz") ∧
  user_id (sess h) = None ∧ guest_id (sess h) = None ∧
  is_Some (questions (sess h)) ∧ user_answers (sess h) = Some ∅ ∧
  out (handle auth GetIndex (sess h)) = Ok RenderWelcome ∧
  questions (sess (handle auth GetIndex (sess h))) = questions (sess h) ∧
  ∀ sel qi, out (handle auth (PostCheckAnswer sel qi) (sess h))
            ≠ Ok (Json400 "Session expired").
Proof.
  intros Hu Hne Hguest h.
  assert (Hh : h = let h0 := index_post {| g_user := None; g_guest_id := guest_id s |}
                               form llm shuffle now empty_session in
                   {| out := out h0; sess := sess h0; calls := AuthGetUser u :: calls h0 |}).
  { unfold h, handle, load_logged_in_user. rewrite Hu. simpl.
    by rewrite bool_decide_eq_false_2. }
  destruct (index_post_started {| g_user := None; g_guest_id := guest_id s |}
              form llm shuffle now empty_session) as [Hout Hsess]; [by right|].
  clearbody h. subst h. cbv zeta. cbn [out sess]. rewrite Hout, Hsess.
  split; [done|]. split; [done|]. split; [done|]. split; [by eexists|]. split; [done|].
  split; [done|]. split; [done|].
  intros sel qi. unfold handle, load_logged_in_user. simpl.
  apply check_answer_not_expired. by eexists.
Qed.

Lemma quiz_without_identity_witness :
  let s := set_user_id (Some "u1"%string) (sess (continue_as_guest (Qc_of_Z 1700000000)
                                                   empty_session)) in
  let h := handle AuthNotFound
             (PostIndex sample_form sample_llm id (Qc_of_Z 1700000100)) s in
  guest_id s = Some "guest_1700000000"%string ∧
  out h = Ok (Redirect "quiz") ∧ guest_id (sess h) = None ∧ user_id (sess h) = None ∧
  questions (sess h) = Some sample_questions.
Proof.
  destruct (quiz_without_identity "u1" sample_form sample_llm id (Qc_of_Z 1700000100)
              AuthNotFound
              (set_user_id (Some "u1"%string)
                 (sess (continue_as_guest (Qc_of_Z 1700000000) empty_session))) eq_refl)
    as (Hout & Hu & Hg & _); [discriminate|reflexivity|].
  cbv zeta. split; [reflexivity|]. split; [exact Hout|]. split; [exact Hg|].
  split; [exact Hu|]. vm_compute. reflexivity.
Defined.

(** ** What a session can hold *)

Lemma tidy_no_quiz s :
  questions s = None → user_answers s = None → start_time s = None →
  timed_test s = None → score s = None ∨ score s = Some 0 → tidy s.
Proof.
  intros Hq Hua Ht0 Htt Hsc. split; [done|]. split; [done|].
  intros [? ?]. congruence.
Qed.

Lemma tidy_same_quiz s s' :
  questions s' = questions s → user_answers s' = user_answers s ∨ is_Some (questions s) →
  start_time s' = start_time s → timed_test s' = timed_test s → score s' = score s →
  tidy s → tidy s'.
Proof.
  intros Hq Hua Ht0 Htt Hsc (Hnone & Hscore & Hquiz). unfold tidy.
  rewrite Hq, Ht0, Htt, Hsc. split; [|done].
  intros Hno. destruct Hua as [->|[? ?]]; [by apply Hnone|congruence].
Qed.

Lemma tidy_dispatch g r s : tidy s → tidy (sess (dispatch g r s)).
Proof.
  intros Htidy. pose proof Htidy as (Hnone & Hscore & Hquiz).
  assert (Hempty : tidy empty_session) by (apply tidy_no_quiz; auto).
  destruct r; simpl.
  - unfold index_get. by destruct (_ || _).
  - unfold index_post. destruct (_ && _); [done|].
    destruct (match form_subjects form with [] => _ | _ => _ end) as [[qs|e] cs]; [|done].
    simpl. split; [done|]. split; [by right|done].
  - unfold quiz. destruct (questions s); [|done].
    destruct (default false (timed_test s)); [|done]. by destruct (start_time s).
  - destruct (questions s) as [qs|] eqn:Hqs.
    + eapply tidy_same_quiz; [| |..|exact Htidy]; try done.
      * unfold check_answer. rewrite Hqs. destruct question_index as [i|]; [|done].
        destruct (negb _); [done|]. destruct (Py.getitem qs i); [|done].
        by destruct (user_answers s).
      * right. by eexists.
      * unfold check_answer. rewrite Hqs. destruct question_index as [i|]; [|done].
        destruct (negb _); [done|]. destruct (Py.getitem qs i); [|done].
        by destruct (user_answers s).
      * unfold check_answer. rewrite Hqs. destruct question_index as [i|]; [|done].
        destruct (negb _); [done|]. destruct (Py.getitem qs i); [|done].
        by destruct (user_answers s).
      * unfold check_answer. rewrite Hqs. destruct question_index as [i|]; [|done].
        destruct (negb _); [done|]. destruct (Py.getitem qs i); [|done].
        by destruct (user_answers s).
    + by rewrite check_answer_expired.
  - destruct (questions s) as [qs|] eqn:Hqs.
    + destruct (results_active g now store_add_ok s qs Hqs) as (rep & -> & _).
      by apply tidy_no_quiz.
    + unfold results. by rewrite Hqs.
  - by destruct r.
  - done.
  - destruct auth; simpl; [|done..]. by eapply tidy_same_quiz; [..|exact Htidy]; auto.
  - done.
  - destruct auth; simpl; [|done..]. by eapply tidy_same_quiz; [..|exact Htidy]; auto.
  - done.
  - apply tidy_no_quiz; auto.
  - unfold user_history. by destruct (g_user g).
Qed.

(** X10.  In every session that requests of the expected types lead to
    (question indices are integers or [null]): outside a quiz there is no
    ledger, no start time and no timed flag left; during a quiz the ledger,
    the start time and the timed flag are there and the ledger has keys
    [str(i)] for positions [i] of the question list only; and the stored
    score, once set, is zero: no route ever updates it. *)
Theorem session_invariant s :
  reachable s → wf s ∧ tidy s.
Proof.
  intros Hreach. split; [by apply reachable_wf|].
  destruct Hreach as [rs ->].
  assert (Hempty : tidy empty_session) by (apply tidy_no_quiz; auto).
  revert Hempty. generalize empty_session.
  induction rs as [|[auth r] rs IH]; intros s Hs; [done|].
  simpl. apply IH. unfold handle, load_logged_in_user.
  assert (Hempty : tidy empty_session) by (apply tidy_no_quiz; auto).
  destruct (user_id s) as [u|]; [|by apply tidy_dispatch].
  destruct (truthy (Some u)); [|by apply tidy_dispatch].
  destruct auth; simpl; [by apply tidy_dispatch|by apply tidy_dispatch|done].
Qed.

Lemma session_invariant_witness :
  reachable sample_answered ∧ score sample_answered = Some 0 ∧
  is_Some (user_answers sample_answered).
Proof.
  destruct (session_invariant sample_answered sample_answered_reachable)
    as [Hwf (_ & _ & Hscore)].
  split; [exact sample_answered_reachable|]. split; [apply Hscore; by eexists|].
  destruct (Hwf sample_questions eq_refl) as (ua & _ & _ & Hua & _). by eexists.
Defined.

(** ** The figures of the report *)

Lemma Qc_of_Z_nonneg (n : Z) : 0 ≤ n → (0 ≤ Qc_of_Z n)%Qc.
Proof. intros Hn. rewrite <- Z2Qc_inj_0. by apply (proj1 (Z2Qc_inj_le 0 n)). Qed.

Lemma Qc_of_Z_pos (n : Z) : 0 < n → (0 < Qc_of_Z n)%Qc.
Proof. intros Hn. rewrite <- Z2Qc_inj_0. by apply (proj1 (Z2Qc_inj_lt 0 n)). Qed.

Lemma Qc_of_Z_div_bounds (r m n : Z) :
  0 < m → 0 ≤ r ≤ n * m →
  (0 ≤ Qc_of_Z r / Qc_of_Z m)%Qc ∧ (Qc_of_Z r / Qc_of_Z m ≤ Qc_of_Z n)%Qc.
Proof.
  intros Hm Hr. pose proof (Qc_of_Z_pos m Hm) as Hm'.
  split.
  - unfold Qcdiv. apply Qcmult_nonneg_nonneg.
    + apply Qc_of_Z_nonneg. lia.
    + by apply Qclt_le_weak, Qcinv_pos.
  - apply (Qcmult_le_mono_pos_r _ _ (Qc_of_Z m) Hm').
    unfold Qcdiv. rewrite <- Qcmult_assoc, Qcmult_inv_l by (by apply Qclt_not_eq in Hm').
    rewrite Qcmult_1_r, <- Z2Qc_inj_mul. apply (proj1 (Z2Qc_inj_le _ _)). lia.
Qed.

Lemma round_bounds (x : Qc) (n : Z) :
  (0 ≤ x)%Qc → (x ≤ Qc_of_Z n)%Qc → 0 ≤ Py.round x ≤ n.
Proof.
  intros H0 Hn.
  assert (Hf0 : 0 ≤ Qfloor x).
  { change 0 with (Qfloor 0). by apply Qfloor_resp_le. }
  assert (Hfn : Qfloor x ≤ n).
  { rewrite <- (Qfloor_Z n). by apply Qfloor_resp_le. }
  unfold Py.round. repeat case_bool_decide; try lia;
    try (destruct (Z.even (Qfloor x)); [lia|]);
    (destruct (decide (Qfloor x = n)) as [Heq|]; [exfalso|lia]).
  all: assert (x = Qc_of_Z n) as ->
      by (apply Qcle_antisym; [done|]; rewrite <- Heq; apply Qfloor_le).
  all: change (Qfloor (Qc_of_Z n)) with (Qfloor (inject_Z n)) in *.
  all: rewrite Qfloor_Z in *.
  all: assert ((Qc_of_Z n - Qc_of_Z n)%Qc = 0%Qc) as Hd by ring.
  all: rewrite Hd in *; done.
Qed.

Lemma round2_accuracy_bounds (c N : Z) :
  0 ≤ c ≤ N →
  let acc := if bool_decide (0 < N)
             then (Qc_of_Z 100 * Qc_of_Z c / Qc_of_Z N)%Qc else 0%Qc in
  (0 ≤ Py.round2 acc)%Qc ∧ (Py.round2 acc ≤ Qc_of_Z 100)%Qc.
Proof.
  intros HcN acc.
  assert (Hacc : (0 ≤ acc)%Qc ∧ (acc ≤ Qc_of_Z 100)%Qc).
  { unfold acc. case_bool_decide as Hpos.
    - rewrite <- Z2Qc_inj_mul. apply Qc_of_Z_div_bounds; lia.
    - split; [apply Qcle_refl|apply Qc_of_Z_nonneg; lia]. }
  destruct Hacc as [Hlo Hhi]. unfold Py.round2.
  apply (Qc_of_Z_div_bounds _ 100 100); [lia|]. apply round_bounds.
  - apply Qcmult_nonneg_nonneg; [done|]. apply Qc_of_Z_nonneg. lia.
  - rewrite Z2Qc_inj_mul. apply Qcmult_le_mono_nonneg_r; [|done].
    apply Qc_of_Z_nonneg. lia.
Qed.

(** X11.  The figures of a report agree with each other: the score shown is
    the count of correct answers; the three counts are not negative and add
    up to the number of questions; the accuracy is between 0 and 100. *)
Theorem report_figures_consistent g now ok s sc tot rep :
  out (results g now ok s) = Ok (RenderResults sc tot rep) →
  sc = correct_count rep ∧ report_score rep = correct_count rep ∧
  tot = total_questions rep ∧
  0 ≤ correct_count rep ∧ 0 ≤ incorrect_count rep ∧ 0 ≤ unanswered_count rep ∧
  correct_count rep + incorrect_count rep + unanswered_count rep = total_questions rep ∧
  (0 ≤ accuracy rep)%Qc ∧ (accuracy rep ≤ Qc_of_Z 100)%Qc.
Proof.
  intros Hout. destruct (questions s) as [qs|] eqn:Hqs;
    [|unfold results in Hout; by rewrite Hqs in Hout].
  destruct (results_active g now ok s qs Hqs)
    as (rep' & Hres & Hsc & Htot & Hc & Hi & Hu & _ & Hacc).
  rewrite Hres in Hout. simpl in Hout. simplify_eq.
  set (ua := default ∅ (user_answers s)) in *.
  pose proof (count_from_answer_cases ua 0 qs) as Hcases.
  pose proof (count_from_nonneg (λ j _, answered_correct ua j) 0 qs).
  pose proof (count_from_nonneg (λ j _, answered_incorrect ua j) 0 qs).
  pose proof (count_from_nonneg (λ j _, unanswered ua j) 0 qs).
  assert (Hcc : n_correct (tally qs ua) = count_from (λ j _, answered_correct ua j) 0 qs).
  { unfold tally. rewrite results_loop_n_correct. simpl. lia. }
  assert (Hci : n_incorrect (tally qs ua) = count_from (λ j _, answered_incorrect ua j) 0 qs).
  { unfold tally. rewrite results_loop_n_incorrect. simpl. lia. }
  rewrite Hsc, Htot, Hc, Hi, Hu, Hacc.
  split_and!; try lia; apply round2_accuracy_bounds; lia.
Qed.

Lemma report_figures_consistent_witness :
  ∃ sc tot rep,
    out (results guest (Qc_of_Z 1700000350) true sample_answered)
      = Ok (RenderResults sc tot rep) ∧
    correct_count rep + incorrect_count rep + unanswered_count rep = 3 ∧
    (accuracy rep ≤ Qc_of_Z 100)%Qc.
Proof.
  destruct (results_active guest (Qc_of_Z 1700000350) true sample_answered
              sample_questions eq_refl) as (rep & Hres & _ & Htot & _).
  destruct (report_figures_consistent guest (Qc_of_Z 1700000350) true sample_answered
              _ _ rep (f_equal out Hres)) as (_ & _ & _ & _ & _ & _ & Hsum & _ & Hacc).
  eexists _, _, rep. split; [exact (f_equal out Hres)|].
  split; [rewrite Hsum; exact Htot|exact Hacc].
Defined.

Lemma bucket_sum_insert_new f (tb : gmap string Bucket) k b :
  tb !! k = None → bucket_sum f (<[k := b]> tb) = f b + bucket_sum f tb.
Proof.
  intros Hk. unfold bucket_sum. rewrite map_fold_insert_L; [done| |done].
  intros. lia.
Qed.

Lemma bucket_sum_insert f (tb : gmap string Bucket) k b :
  f zero_bucket = 0 →
  bucket_sum f (<[k := b]> tb) = bucket_sum f tb + f b - f (bucket_at tb k).
Proof.
  intros Hzero. unfold bucket_at. destruct (tb !! k) as [b0|] eqn:Hk; simpl.
  - rewrite <- (insert_delete_id tb k b0 Hk) at 2.
    rewrite <- (insert_delete_eq tb k b).
    rewrite !bucket_sum_insert_new by apply lookup_delete_eq. lia.
  - rewrite bucket_sum_insert_new by done. lia.
Qed.

Lemma results_step_bucket_sums ua i q t :
  bucket_sum total (breakdown (results_step ua i q t)) = bucket_sum total (breakdown t) + 1 ∧
  bucket_sum correct (breakdown (results_step ua i q t)) =
    bucket_sum correct (breakdown t) + (if answered_correct ua i then 1 else 0) ∧
  bucket_sum incorrect (breakdown (results_step ua i q t)) =
    bucket_sum incorrect (breakdown t) + (if answered_incorrect ua i then 1 else 0).
Proof.
  unfold results_step, answered_correct, answered_incorrect.
  destruct (ua !! Py.str (Z.of_nat i)) as [a|]; [destruct (is_correct a)|]; simpl;
    unfold add_correct, add_incorrect, add_total;
    rewrite !bucket_sum_insert by done; rewrite ?bucket_at_insert, ?decide_True by done;
    simpl; lia.
Qed.

Lemma results_loop_bucket_sums ua qs i t :
  bucket_sum total (breakdown (results_loop ua i qs t)) =
    bucket_sum total (breakdown t) + Z.of_nat (length qs) ∧
  bucket_sum correct (breakdown (results_loop ua i qs t)) =
    bucket_sum correct (breakdown t) + count_from (λ j _, answered_correct ua j) i qs ∧
  bucket_sum incorrect (breakdown (results_loop ua i qs t)) =
    bucket_sum incorrect (breakdown t) + count_from (λ j _, answered_incorrect ua j) i qs.
Proof.
  revert i t. induction qs as [|q qs IH]; intros i t; [simpl; lia|].
  cbn [results_loop count_from length].
  destruct (IH (S i) (results_step ua i q t)) as (-> & -> & ->).
  destruct (results_step_bucket_sums ua i q t) as (-> & -> & ->). lia.
Qed.

(** X12.  The buckets of the topic breakdown add up to the figures of the
    report: their totals to the number of questions, their correct counts
    to [correct_count] and their incorrect counts to [incorrect_count]. *)
Theorem breakdown_adds_up g now ok s sc tot rep :
  out (results g now ok s) = Ok (RenderResults sc tot rep) →
  bucket_sum total (topic_breakdown rep) = total_questions rep ∧
  bucket_sum correct (topic_breakdown rep) = correct_count rep ∧
  bucket_sum incorrect (topic_breakdown rep) = incorrect_count rep.
Proof.
  intros Hout. destruct (questions s) as [qs|] eqn:Hqs;
    [|unfold results in Hout; by rewrite Hqs in Hout].
  destruct (results_active g now ok s qs Hqs)
    as (rep' & Hres & _ & Htot & Hc & Hi & _ & Htb & _).
  rewrite Hres in Hout. simpl in Hout. simplify_eq.
  rewrite Htot, Hc, Hi, Htb. unfold tally.
  rewrite results_loop_n_correct, results_loop_n_incorrect.
  destruct (results_loop_bucket_sums (default ∅ (user_answers s)) qs 0
              {| n_correct := 0; n_incorrect := 0; breakdown := ∅ |}) as (-> & -> & ->).
  simpl. unfold bucket_sum. rewrite !map_fold_empty. lia.
Qed.

Lemma breakdown_adds_up_witness :
  ∃ sc tot rep,
    out (results guest (Qc_of_Z 1700000350) true sample_answered)
      = Ok (RenderResults sc tot rep) ∧
    bucket_sum total (topic_breakdown rep) = 3 ∧
    bucket_sum incorrect (topic_breakdown rep) = 1.
Proof.
  destruct (results_active guest (Qc_of_Z 1700000350) true sample_answered
              sample_questions eq_refl) as (rep & Hres & _ & Htot & _ & Hi & _).
  destruct (breakdown_adds_up guest (Qc_of_Z 1700000350) true sample_answered
              _ _ rep (f_equal out Hres)) as (Hsum & _ & Hinc).
  eexists _, _, rep. split; [exact (f_equal out Hres)|].
  split; [rewrite Hsum; exact Htot|]. rewrite Hinc, Hi. vm_compute. reflexivity.
Defined.

(** * Further properties of the earlier application *)

(** ** Question generation with the subject filter *)

Lemma with_solution_nonempty q :
  ∃ t, solution (Original.with_solution q) = Some t ∧ t ≠ ""%string.
Proof.
  unfold Original.with_solution. destruct (solution q) as [t|] eqn:Hsol.
  - case_bool_decide; simpl; [by eexists|]. rewrite Hsol. by eexists.
  - simpl. by eexists.
Qed.

Lemma filter_loop_take lower sub n qs acc :
  Z.of_nat (length acc) < n →
  Original.filter_loop lower sub n qs acc =
  take (Z.to_nat n)
    (acc ++ (Original.with_solution <$>
             filter (λ q, Original.is_question_valid lower q sub = true) qs)).
Proof.
  revert acc. induction qs as [|q qs IH]; intros acc Hacc; simpl.
  - rewrite app_nil_r, take_ge; [done|lia].
  - rewrite filter_cons. destruct (Original.is_question_valid lower q sub) eqn:Hvalid.
    + rewrite decide_True by done. rewrite fmap_cons.
      case_bool_decide as Hfull.
      * rewrite length_app in Hfull. simpl in Hfull.
        replace (Z.to_nat n) with (length (acc ++ [Original.with_solution q]))
          by (rewrite length_app; simpl; lia).
        set (rest := Original.with_solution <$> filter _ qs).
        trans (take (length (acc ++ [Original.with_solution q]))
                 ((acc ++ [Original.with_solution q]) ++ rest));
          [by rewrite take_app_length|by rewrite <- app_assoc].
      * rewrite IH by lia. by rewrite <- app_assoc.
    + rewrite decide_False by done. rewrite bool_decide_eq_false_2 by lia. by apply IH.
Qed.

(** The loop followed by the final slice. *)
Lemma filter_loop_sliced lower sub n qs :
  0 ≤ n →
  Py.slice_to (Original.filter_loop lower sub n qs []) n =
  take (Z.to_nat n)
    (Original.with_solution <$> filter (λ q, Original.is_question_valid lower q sub = true) qs)
  ∧ (0 < n →
     Original.filter_loop lower sub n qs [] =
     take (Z.to_nat n)
       (Original.with_solution <$>
        filter (λ q, Original.is_question_valid lower q sub = true) qs)).
Proof.
  intros Hn. unfold Py.slice_to. rewrite bool_decide_eq_true_2 by done.
  destruct (decide (0 < n)) as [Hpos|Hzero].
  - rewrite filter_loop_take by (simpl; lia). simpl. split; [|done].
    by rewrite take_take, Nat.min_id.
  - assert (n = 0) as -> by lia. simpl. split; [by rewrite !take_0|lia].
Qed.

Lemma elem_of_take_1 {A} (x : A) n (l : list A) : x ∈ take n l → x ∈ l.
Proof. intros Hx. rewrite <- (take_drop n l). apply elem_of_app. by left. Qed.

Lemma original_pool_solutions sub q :
  q ∈ default [] (Original.defaults !! sub) →
  ∃ t, solution q = Some t ∧ t ≠ ""%string.
Proof.
  unfold Original.defaults. simpl. rewrite !lookup_insert.
  repeat case_decide; simpl; rewrite ?lookup_empty; simpl;
    repeat (intros [->|Hq]%elem_of_cons; [by eexists|revert Hq]);
    by intros ?%elem_of_nil.
Qed.

Lemma original_generate_shape lower sub difficulty n llm :
  0 ≤ n →
  let pool := default [] (Original.defaults !! sub) in
  let valid q := Original.is_question_valid lower q sub = true in
  ∃ r,
    Original.generate_questions lower sub difficulty n llm = Ok r ∧
    r = match llm with
        | LlmRaises => take (Z.to_nat n) pool
        | LlmQuestions qs =>
            let kept := take (Z.to_nat n) (Original.with_solution <$> filter valid qs) in
            kept ++ take (Z.to_nat n - length kept) pool
        end ∧
    (length r ≤ Z.to_nat n)%nat.
Proof.
  intros Hn pool valid.
  assert (Hdef : ∀ m, 0 ≤ m →
            Original.get_default_questions sub m = take (Z.to_nat m) pool).
  { intros m Hm. unfold Original.get_default_questions, Py.slice_to.
    by rewrite bool_decide_eq_true_2. }
  assert (Hshape : ∃ r, Original.generate_questions lower sub difficulty n llm = Ok r ∧
            r = match llm with
                | LlmRaises => take (Z.to_nat n) pool
                | LlmQuestions qs =>
                    let kept := take (Z.to_nat n)
                                  (Original.with_solution <$> filter valid qs) in
                    kept ++ take (Z.to_nat n - length kept) pool
                end).
  { unfold Original.generate_questions. destruct llm as [|qs]; simpl.
    - eexists. split; [done|]. by apply Hdef.
    - eexists. split; [done|].
      destruct (filter_loop_sliced lower sub n qs Hn) as [Hsliced Hloop].
      fold valid in Hsliced, Hloop.
      set (kept := take (Z.to_nat n) (Original.with_solution <$> filter valid qs)) in *.
      assert (Hkept : (length kept ≤ Z.to_nat n)%nat) by (unfold kept; rewrite length_take; lia).
      case_bool_decide as Hshort.
      + rewrite Hloop in * by lia. rewrite Hdef by lia.
        unfold Py.slice_to. rewrite bool_decide_eq_true_2 by done.
        replace (Z.to_nat (n - Z.of_nat (length kept))) with (Z.to_nat n - length kept)%nat
          by lia.
        apply take_ge. rewrite length_app, length_take. lia.
      + rewrite Hsliced.
        assert (Z.to_nat n - length kept = 0)%nat as ->; [|by rewrite take_0, app_nil_r].
        destruct (decide (0 < n)) as [Hpos|Hzero]; [|lia].
        rewrite Hloop in Hshort by done. lia. }
  destruct Hshape as (r & Hr & Heq). exists r. split; [done|]. split; [done|].
  rewrite Heq. destruct llm as [|qs]; simpl.
  - rewrite length_take. lia.
  - rewrite length_app, !length_take. lia.
Qed.

(** X13.  [generate_questions] of the earlier application never raises.
    For a count [n ≥ 0] it returns, in the order delivered, the first [n]
    questions of the language model whose text has none of the words
    excluded for the subject, each with a solution text, followed by
    default questions of the subject while fewer than [n] are there; when
    the call fails it returns default questions only.  The result never has
    more than [n] questions and each of them has a non-empty solution. *)
Theorem original_generate_questions_filters lower sub difficulty n llm :
  0 ≤ n →
  let pool := default [] (Original.defaults !! sub) in
  let valid q := Original.is_question_valid lower q sub = true in
  ∃ r,
    Original.generate_questions lower sub difficulty n llm = Ok r ∧
    r = match llm with
        | LlmRaises => take (Z.to_nat n) pool
        | LlmQuestions qs =>
            let kept := take (Z.to_nat n) (Original.with_solution <$> filter valid qs) in
            kept ++ take (Z.to_nat n - length kept) pool
        end ∧
    (length r ≤ Z.to_nat n)%nat ∧
    (∀ q, q ∈ r →
       q ∈ pool ∨
       ∃ qs q0, llm = LlmQuestions qs ∧ q0 ∈ qs ∧ valid q0 ∧ q = Original.with_solution q0) ∧
    ∀ q, q ∈ r → ∃ t, solution q = Some t ∧ t ≠ ""%string.
Proof.
  intros Hn pool valid.
  destruct (original_generate_shape lower sub difficulty n llm Hn) as (r & Hr & Heq & Hlen).
  fold pool valid in Heq.
  exists r. split; [done|]. split; [done|]. split; [done|].
  assert (Hmem : ∀ q, q ∈ r →
            q ∈ pool ∨
            ∃ qs q0, llm = LlmQuestions qs ∧ q0 ∈ qs ∧ valid q0 ∧
                     q = Original.with_solution q0).
  { intros q Hq. rewrite Heq in Hq. destruct llm as [|qs].
    - left. by eapply elem_of_take_1.
    - simpl in Hq. apply elem_of_app in Hq as [Hq|Hq]; [|left; by eapply elem_of_take_1].
      apply elem_of_take_1 in Hq.
      apply list_elem_of_fmap in Hq as (q0 & -> & [Hv Hq0]%list_elem_of_filter).
      right. by exists qs, q0. }
  split; [done|].
  intros q [Hq|(qs & q0 & _ & _ & _ & ->)]%Hmem.
  - by eapply original_pool_solutions.
  - apply with_solution_nonempty.
Qed.

Lemma original_generate_questions_filters_witness :
  ∃ r,
    Original.generate_questions ascii_lower "Verbal Ability" "Easy" 3
      (LlmQuestions
         [ sample_question "Verbal Ability" "Idioms" "D";
           {| chapter := None; question := "Calculate the SUM of 2 and 3";
              options := []; correct_answer := "A"; solution := None; subject := None |} ])
    = Ok r ∧ length r = 3%nat ∧
    r !! 0%nat = Some (sample_question "Verbal Ability" "Idioms" "D").
Proof.
  destruct (original_generate_questions_filters ascii_lower "Verbal Ability" "Easy" 3
              (LlmQuestions
                 [ sample_question "Verbal Ability" "Idioms" "D";
                   {| chapter := None; question := "Calculate the SUM of 2 and 3";
                      options := []; correct_answer := "A"; solution := None;
                      subject := None |} ]))
    as (r & Hr & -> & _); [lia|].
  eexists. split; [exact Hr|]. split; reflexivity.
Defined.

(** ** Starting and showing a quiz *)

Lemma original_index_loop_length lower llm d N k i subjects acc r :
  0 ≤ N → (0 < k)%nat →
  (Original.index_loop lower llm d N k i subjects acc).1 = Ok r →
  Z.of_nat (length r) ≤
  Z.of_nat (length acc) + Zsum (q_count N k <$> seq i (length subjects)).
Proof.
  intros HN Hk. revert i acc r.
  induction subjects as [|sub rest IH]; intros i acc r.
  - simpl. intros [= <-]. unfold Zsum. simpl. lia.
  - cbn [length]. intros Hr. simpl in Hr.
    assert (Hq : 0 ≤ q_count N k i).
    { unfold q_count. pose proof (Z.div_pos N (Z.of_nat k)). case_bool_decide; lia. }
    destruct (original_generate_shape lower sub d (q_count N k i) (llm i) Hq)
      as (block & Hblock & _ & Hlen).
    rewrite Hblock in Hr.
    destruct (Original.index_loop _ _ _ _ _ (S i) rest _) as [res cs] eqn:Hloop.
    simpl in Hr. specialize (IH (S i) (acc ++ block) r). rewrite Hloop in IH.
    apply IH in Hr. rewrite length_app in Hr.
    assert (Zsum (q_count N k <$> seq i (S (length rest)))
            = q_count N k i + Zsum (q_count N k <$> seq (S i) (length rest))) as -> by done.
    lia.
Qed.

(** X14.  [POST /] of the earlier application always starts a quiz, for
    anyone: the session it leaves has a question list, the first question
    as current question, score zero, sixty seconds per question, and one
    answered flag and one visited flag per question, all unset.  When the
    requested count [N] is not negative the quiz has at most [N], hence at
    most thirty, questions. *)
Theorem original_index_starts lower form llm shuffle now s :
  (∀ l, shuffle l ≡ₚ l) →
  ∃ qs s',
    (Original.index_post lower form llm shuffle now s).1
    = (Ok (Original.Moved "quiz"), s') ∧
    ready s' qs 0 0 (replicate (length qs) false) (replicate (length qs) false) ∧
    Original.time_per_question s' = Some 60 ∧
    Original.start_time s' = Some now ∧
    (0 ≤ clamp_num_questions (Original.form_num_questions form) →
     Z.of_nat (length qs) ≤ clamp_num_questions (Original.form_num_questions form) ∧
     (length qs ≤ 30)%nat).
Proof.
  intros Hperm. unfold Original.index_post.
  set (N := clamp_num_questions (Original.form_num_questions form)).
  set (d := default "Medium"%string (Original.form_difficulty form)).
  set (subjects := Original.form_subjects form).
  assert (Hloop : ∃ r cs,
            match subjects with
            | [] => (Ok [], [])
            | _ :: _ => Original.index_loop lower llm d N (length subjects) 0 subjects []
            end = (Ok r, cs) ∧ (0 ≤ N → Z.of_nat (length r) ≤ N)).
  { destruct subjects as [|sub rest] eqn:Hsub; [exists [], []; split; [done|simpl; lia]|].
    rewrite <- Hsub.
    destruct (original_index_loop_calls lower llm d N (length subjects) 0 subjects [])
      as [[r Hr] _].
    destruct (Original.index_loop lower llm d N (length subjects) 0 subjects [])
      as [res cs] eqn:Hloop.
    simpl in Hr. subst res.
    exists r, cs. split; [done|]. intros HN.
    assert (Hk : (0 < length subjects)%nat) by (rewrite Hsub; simpl; lia).
    pose proof (original_index_loop_length lower llm d N _ 0 subjects [] r HN Hk) as Hlen.
    rewrite Hloop in Hlen. specialize (Hlen eq_refl).
    rewrite Zsum_q_count in Hlen by done.
    pose proof (Z.mod_pos_bound N (Z.of_nat (length subjects)) ltac:(lia)).
    pose proof (Z.div_mod N (Z.of_nat (length subjects)) ltac:(lia)).
    simpl in Hlen. lia. }
  destruct Hloop as (r & cs & -> & Hlen).
  eexists (shuffle r), _. split; [done|]. split.
  { unfold ready. simpl. rewrite !length_replicate. split_and!; by eauto. }
  split; [done|]. split; [done|].
  intros HN. rewrite (Permutation_length (Hperm r)). specialize (Hlen HN).
  assert (N ≤ 30) by (unfold N, clamp_num_questions; lia). lia.
Qed.

Lemma original_index_starts_witness :
  ∃ qs s',
    (Original.index_post ascii_lower (original_form ["Verbal Ability"]%string 2)
       failing_llm id (Qc_of_Z 1700000100) Original.empty_session).1
    = (Ok (Original.Moved "quiz"), s') ∧
    Original.questions s' = Some qs ∧ length qs = 2%nat ∧
    Original.answered s' = Some [false; false].
Proof.
  destruct (original_index_starts ascii_lower (original_form ["Verbal Ability"]%string 2)
              failing_llm id (Qc_of_Z 1700000100) Original.empty_session)
    as (qs & s' & Hpost & Hready & _); [intros l; reflexivity|].
  destruct Hready as (Hqs & _).
  exists qs, s'. split; [exact Hpost|]. split; [exact Hqs|].
  injection Hpost as <-. simpl in Hqs. injection Hqs as <-. split; reflexivity.
Defined.

(** X15.  When no subject is selected, [POST /] of the earlier application
    still starts a quiz, with no question; [quiz], [check_answer] and
    [set_question] then raise [IndexError], and [results] shows a score of
    zero out of zero and ends the session. *)
Theorem original_empty_quiz_fails lower form llm shuffle now now' sel n timed_out s :
  (∀ l, shuffle l ≡ₚ l) →
  Original.form_subjects form = [] →
  let start := (Original.index_post lower form llm shuffle now s).1 in
  start.1 = Ok (Original.Moved "quiz") ∧
  Original.questions start.2 = Some [] ∧
  (Original.quiz now' start.2).1 = Raise IndexError ∧
  (Original.check_answer sel now' start.2).1 = Raise IndexError ∧
  (Original.set_question n start.2).1 = Raise IndexError ∧
  (Original.results timed_out start.2).1
    = Ok (Original.RenderResults 0 0 timed_out
            (bool_decide (Original.form_dark_mode form = Some "on"%string))) ∧
  (Original.results timed_out start.2).2 = Original.empty_session.
Proof.
  intros Hperm Hsub start. unfold start, Original.index_post. rewrite Hsub.
  assert (shuffle [] = []) as -> by (apply Permutation_nil_r; by rewrite Hperm).
  simpl. split_and!; try done.
  unfold Original.set_question. simpl. unfold Py.setitem, Py.position. simpl.
  by repeat case_bool_decide; try lia.
Qed.

Lemma original_empty_quiz_fails_witness :
  (Original.quiz (Qc_of_Z 1700000200)
     (Original.index_post ascii_lower (original_form [] 5) failing_llm id
        (Qc_of_Z 1700000100) Original.empty_session).1.2).1 = Raise IndexError.
Proof.
  destruct (original_empty_quiz_fails ascii_lower (original_form [] 5) failing_llm id
              (Qc_of_Z 1700000100) (Qc_of_Z 1700000200) None None false
              Original.empty_session) as (_ & _ & Hquiz & _);
    [intros l; reflexivity|reflexivity|exact Hquiz].
Defined.

(** ** Answering, showing and jumping *)

Lemma with_solution_idem q :
  Original.with_solution (Original.with_solution q) = Original.with_solution q.
Proof.
  unfold Original.with_solution. destruct q as [ch qu op ca [t|] su]; simpl; [|done].
  case_bool_decide; simpl; [done|]. by rewrite bool_decide_eq_false_2.
Qed.

Lemma with_solution_keeps_answer q :
  correct_answer (Original.with_solution q) = correct_answer q.
Proof.
  unfold Original.with_solution. destruct (solution q); [|done]. by case_bool_decide.
Qed.

Lemma with_solution_some q :
  ∃ t, solution (Original.with_solution q) = Some t ∧ t ≠ ""%string.
Proof.
  unfold Original.with_solution. destruct (solution q) as [t|] eqn:Ht; simpl.
  - case_bool_decide; simpl; [by eexists|]. exists t. by rewrite Ht.
  - by eexists.
Qed.

(** What showing the current question does. *)
Lemma original_quiz_ready now s qs c sc ans vis :
  ready s qs c sc ans vis →
  - Z.of_nat (length qs) ≤ c < Z.of_nat (length qs) →
  ∃ q r,
    qs !! wrapped (length qs) c = Some q ∧
    Original.remaining now (length qs) s = Ok r ∧
    Original.quiz now s
    = (Ok (Original.QuizPage (Original.with_solution q) (c + 1) (length qs)
             (default false (Original.timed_test s)) (default false (Original.dark_mode s))
             r ans (<[wrapped (length qs) c := true]> vis)),
       Original.set_questions (<[wrapped (length qs) c := Original.with_solution q]> qs)
         (Original.set_visited (<[wrapped (length qs) c := true]> vis) s)) ∧
    ready (Original.quiz now s).2 (<[wrapped (length qs) c := Original.with_solution q]> qs)
      c sc ans (<[wrapped (length qs) c := true]> vis).
Proof.
  intros Hr Hc. pose proof Hr as (Hqs & Hcur & Hsc & Hans & Hvis & Hla & Hlv & Htt & Ht0 & Hper).
  destruct (getitem_wrapped qs c Hc) as (q & Hq & Hget).
  destruct (remaining_ready now (length qs) s qs _ _ _ _ Hr) as [r Hrem].
  exists q, r. split; [done|]. split; [done|].
  assert (Original.quiz now s
    = (Ok (Original.QuizPage (Original.with_solution q) (c + 1) (length qs)
             (default false (Original.timed_test s)) (default false (Original.dark_mode s))
             r ans (<[wrapped (length qs) c := true]> vis)),
       Original.set_questions (<[wrapped (length qs) c := Original.with_solution q]> qs)
         (Original.set_visited (<[wrapped (length qs) c := true]> vis) s))) as Heq.
  { unfold Original.quiz. rewrite Hqs, Hcur. simpl. rewrite Hvis. simpl.
    rewrite setitem_wrapped, Hlv, bool_decide_eq_true_2 by done.
    rewrite Hget. simpl. rewrite setitem_wrapped, bool_decide_eq_true_2 by done. simpl.
    rewrite length_insert.
    unfold Original.remaining in *. simpl. rewrite Hrem. simpl. by rewrite Hans. }
  split; [done|]. rewrite Heq. unfold ready. simpl. rewrite !length_insert. by split_and!.
Qed.

(** X16.  [set_question] of the earlier application accepts the numbers
    [1 - N] to [N] for a quiz of [N] questions and raises [IndexError] for
    every other number.  A number below one counts from the end: it is stored
    as a negative current question, the flag of the question it addresses is
    set, and [quiz] then shows that question, with a solution filled in,
    under the number that was sent. *)
Theorem original_set_question_wraps n s qs c sc ans vis now :
  ready s qs c sc ans vis →
  let N := Z.of_nat (length qs) in
  ((Original.set_question (Some n) s).1 = Raise IndexError ↔ ¬ (1 - N ≤ n ≤ N)) ∧
  (1 - N ≤ n ≤ N →
   ∃ q s',
     qs !! wrapped (length qs) (n - 1) = Some q ∧
     Original.set_question (Some n) s = (Ok (Original.QuestionJson q (length qs)), s') ∧
     ready s' qs (n - 1) sc ans (<[wrapped (length qs) (n - 1) := true]> vis) ∧
     ∃ r s'',
       Original.quiz now s'
       = (Ok (Original.QuizPage (Original.with_solution q) n (length qs)
                (default false (Original.timed_test s)) (default false (Original.dark_mode s))
                r ans (<[wrapped (length qs) (n - 1) := true]> vis)), s'') ∧
       ready s'' (<[wrapped (length qs) (n - 1) := Original.with_solution q]> qs)
         (n - 1) sc ans (<[wrapped (length qs) (n - 1) := true]> vis)).
Proof.
  intros Hr N. pose proof Hr as (Hqs & Hc & Hsc & Hans & Hvis & Hla & Hlv & Htt & Ht0 & Hper).
  assert (Hset : ∀ m, Original.set_question (Some m) s =
     let s1 := Original.set_current_question (m - 1) s in
     match Py.setitem vis (m - 1) true with
     | Raise e => (Raise e, s1)
     | Ok vis' => match Py.getitem qs (m - 1) with
                  | Raise e => (Raise e, Original.set_visited vis' s1)
                  | Ok q => (Ok (Original.QuestionJson q (length qs)), Original.set_visited vis' s1)
                  end
     end).
  { intros m. unfold Original.set_question. rewrite Hqs. simpl. by rewrite Hvis. }
  split.
  - rewrite Hset. simpl. rewrite setitem_wrapped, Hlv.
    case_bool_decide as Hin.
    + destruct (getitem_wrapped qs (n - 1) Hin) as (q & _ & ->). simpl.
      split; [done|]. intros Hn. exfalso. apply Hn. unfold N. lia.
    + simpl. split; [|done]. intros _. unfold N. lia.
  - intros Hn. assert (Hin : - Z.of_nat (length qs) ≤ n - 1 < Z.of_nat (length qs)) by (unfold N in Hn; lia).
    destruct (getitem_wrapped qs (n - 1) Hin) as (q & Hq & Hget).
    exists q. eexists. split; [done|]. rewrite Hset. simpl.
    rewrite setitem_wrapped, Hlv, bool_decide_eq_true_2, Hget by done.
    split; [done|].
    set (s' := Original.set_visited _ _).
    assert (Hr' : ready s' qs (n - 1) sc ans (<[wrapped (length qs) (n - 1) := true]> vis)).
    { unfold ready, s'. simpl. rewrite length_insert. by split_and!. }
    split; [done|].
    destruct (remaining_ready now (length qs) s' qs _ _ _ _ Hr') as [r Hrem].
    exists r. eexists.
    unfold Original.quiz. simpl. rewrite Hqs. simpl.
    rewrite setitem_wrapped, length_insert, Hlv, bool_decide_eq_true_2 by done.
    rewrite Hget. simpl. rewrite setitem_wrapped, bool_decide_eq_true_2 by done. simpl.
    rewrite length_insert.
    unfold Original.remaining in *. simpl in *. rewrite Hrem. simpl. rewrite Hans. simpl.
    rewrite list_insert_insert_eq.
    replace (n - 1 + 1) with n by lia.
    split; [reflexivity|].
    unfold ready. simpl. rewrite !length_insert. by split_and!.
Qed.

Lemma insert_last_take {A} (l : list A) (c : nat) (x : A) :
  (c < length l)%nat → take (S c) (<[c := x]> l) = take c l ++ [x].
Proof.
  revert c. induction l as [|a l IH]; intros [|c] Hc; simpl in *; try lia; [done|].
  f_equal. apply IH. lia.
Qed.

Lemma take_insert_replicate {A} (l : list A) (c n : nat) (x : A) :
  (c < length l)%nat →
  take (S c) (<[c := x]> l) ++ replicate n x = take c l ++ replicate (S n) x.
Proof. intros Hc. rewrite insert_last_take by done. by rewrite <-app_assoc. Qed.

Lemma original_submit_in_order now sels : ∀ s qs c sc ans vis,
  ready s qs (Z.of_nat c) sc ans vis →
  sels ≠ [] →
  (c + length sels)%nat = length qs →
  ready (submit_all sels now s) qs (Z.of_nat (length qs) - 1)
    (sc + hits sels (drop c qs)) (take c ans ++ replicate (length sels) true) vis.
Proof.
  induction sels as [|sel rest IH]; intros s qs c sc ans vis Hr Hne Hlen; [done|].
  simpl in Hlen.
  destruct (original_check_answer_ready sel now s qs (Z.of_nat c) sc ans vis Hr)
    as (q & body & s' & Hq & Hcheck & Hcorr & _ & _ & _ & Hscore & _ & _ & _ & _ & _ & Hr'); [lia|].
  assert (wrapped (length qs) (Z.of_nat c) = c) as Hw.
  { unfold wrapped. rewrite bool_decide_eq_true_2 by lia. lia. }
  rewrite Hw in Hq, Hr'.
  assert (Hlans : length ans = length qs) by apply Hr.
  rewrite (drop_S _ _ _ Hq). cbn [submit_all hits]. rewrite Hcheck. cbn [snd].
  rewrite Hscore, Hcorr in Hr'.
  destruct rest as [|sel2 rest2].
  - simpl in *. rewrite bool_decide_eq_false_2 in Hr' by lia.
    replace (Z.of_nat (length qs) - 1) with (Z.of_nat c) by lia.
    destruct (drop (S c) qs); rewrite Z.add_0_r;
      (replace (take c ans ++ [true]) with (<[c := true]> ans); [done|]);
      rewrite <-(insert_last_take ans c true) by lia;
      symmetry; apply take_ge; rewrite length_insert; lia.
  - rewrite bool_decide_eq_true_2 in Hr' by (simpl in Hlen; lia).
    replace (Z.of_nat c + 1) with (Z.of_nat (S c)) in Hr' by lia.
    specialize (IH s' qs (S c) _ _ vis Hr').
    rewrite take_insert_replicate in IH by lia.
    rewrite Z.add_assoc. apply IH; [done|]. simpl in *. lia.
Qed.

(** X17.  Answering the questions of the earlier application once each, in
    order, from the first one: the score grows by the number of selections
    that equal the correct answer of their question, every question is
    flagged as answered, and the last question stays current.  That number
    lies between zero and the number of questions, and is the number of
    questions when every selection is the correct answer. *)
Theorem original_in_order_score now sels s qs sc ans vis :
  ready s qs 0 sc ans vis →
  qs ≠ [] →
  length sels = length qs →
  ready (submit_all sels now s) qs (Z.of_nat (length qs) - 1)
    (sc + hits sels qs) (replicate (length qs) true) vis ∧
  0 ≤ hits sels qs ≤ Z.of_nat (length qs) ∧
  hits (Some ∘ correct_answer <$> qs) qs = Z.of_nat (length qs).
Proof.
  intros Hr Hne Hlen. split; [|split].
  - rewrite <-Hlen.
    rewrite Hlen at 1.
    apply (original_submit_in_order now sels s qs 0 sc ans vis Hr); [|done].
    intros ->. by destruct qs.
  - clear. revert sels. induction qs as [|q qs IH]; intros [|sel sels]; simpl; try lia.
    specialize (IH sels). case_bool_decide; lia.
  - clear. induction qs as [|q qs IH]; [done|]. cbn [fmap list_fmap hits length compose].
    rewrite bool_decide_eq_true_2 by done.
    change (list_fmap _ _ (Some ∘ correct_answer) qs) with (Some ∘ correct_answer <$> qs).
    rewrite IH. lia.
Qed.

(** X18.  On a session of the earlier application as [index] leaves it,
    submissions to [check_answer] succeed exactly when the current question
    is in range: out of range [check_answer] raises [IndexError]; in range,
    whatever is submitted and however often, every submission is answered
    with a verdict, the questions and the visited flags stay as they are,
    the current question never moves back and stays in range, the score
    never decreases and grows by at most one per submission, and an answered
    flag is never reset. *)
Theorem original_submissions_invariant now sels : ∀ s qs c sc ans vis,
  ready s qs c sc ans vis →
  (- Z.of_nat (length qs) ≤ c < Z.of_nat (length qs) →
   Forall (λ o, ∃ body, o = Ok (Original.JsonChecked body)) (submit_outcomes sels now s) ∧
   length (submit_outcomes sels now s) = length sels ∧
   ∃ c' sc' ans',
     ready (submit_all sels now s) qs c' sc' ans' vis ∧
     c ≤ c' < Z.of_nat (length qs) ∧
     sc ≤ sc' ≤ sc + Z.of_nat (length sels) ∧
     (∀ i, ans !! i = Some true → ans' !! i = Some true)) ∧
  (¬ (- Z.of_nat (length qs) ≤ c < Z.of_nat (length qs)) →
   ∀ sel, (Original.check_answer sel now s).1 = Raise IndexError).
Proof.
  induction sels as [|sel rest IH]; intros s qs c sc ans vis Hr; (split; [intros Hc|]).
  - split; [constructor|]. split; [done|].
    exists c, sc, ans. simpl. split_and!; try done; lia.
  - intros Hc sel. destruct Hr as (Hqs & Hcur & _ & Hans & _ & Hla & _).
    unfold Original.check_answer. rewrite Hqs, Hcur. simpl. rewrite Hans. simpl.
    by rewrite setitem_wrapped, Hla, bool_decide_eq_false_2.
  - destruct (original_check_answer_ready sel now s qs c sc ans vis Hr Hc)
      as (q & body & s' & Hq & Hcheck & _ & _ & _ & _ & Hscore & _ & _ & _ & _ & _ & Hr').
    cbn [submit_all submit_outcomes]. rewrite Hcheck. cbn [fst snd].
    destruct (IH _ _ _ _ _ _ Hr') as [IHin _].
    destruct IHin as (Hall & Hlen & c' & sc' & ans' & Hr'' & Hc' & Hsc' & Hans').
    { case_bool_decide; lia. }
    split; [constructor; [by eexists|done]|]. split; [cbn [length]; by rewrite Hlen|].
    exists c', sc', ans'. split; [done|]. split; [case_bool_decide; lia|].
    split.
    + rewrite Hscore in Hsc'. cbn [length]. destruct (Original.is_correct body); lia.
    + intros i Hi. apply Hans'.
      destruct (decide (i = wrapped (length qs) c)) as [->|Hne].
      * apply list_lookup_insert_eq. apply lookup_lt_Some in Hi. done.
      * by rewrite list_lookup_insert_ne.
  - intros Hc sel'. destruct Hr as (Hqs & Hcur & _ & Hans & _ & Hla & _).
    unfold Original.check_answer. rewrite Hqs, Hcur. simpl. rewrite Hans. simpl.
    by rewrite setitem_wrapped, Hla, bool_decide_eq_false_2.
Qed.

(** X19.  [quiz] of the earlier application shows the current question
    with a non-empty solution and stores that solution in the session.
    Showing the question again changes nothing more, and [check_answer]
    afterwards shows the same solution and judges the selection by the
    correct answer of the question. *)
Theorem original_quiz_then_answer now now' now'' sel s qs c sc ans vis :
  ready s qs c sc ans vis →
  - Z.of_nat (length qs) ≤ c < Z.of_nat (length qs) →
  ∃ q r s' t,
    qs !! wrapped (length qs) c = Some q ∧
    Original.quiz now s
    = (Ok (Original.QuizPage (Original.with_solution q) (c + 1) (length qs)
             (default false (Original.timed_test s)) (default false (Original.dark_mode s))
             r ans (<[wrapped (length qs) c := true]> vis)), s') ∧
    solution (Original.with_solution q) = Some t ∧ t ≠ ""%string ∧
    (Original.quiz now' s').2 = s' ∧
    ∃ body s'',
      Original.check_answer sel now'' s' = (Ok (Original.JsonChecked body), s'') ∧
      Original.shown_solution body = t ∧
      Original.is_correct body = bool_decide (sel = Some (correct_answer q)).
Proof.
  intros Hr Hc.
  destruct (original_quiz_ready now s qs c sc ans vis Hr Hc) as (q & r & Hq & _ & Hquiz & Hr').
  rewrite Hquiz in Hr'. cbn [snd] in Hr'.
  destruct (with_solution_some q) as (t & Ht & Hne).
  exists q, r. eexists. exists t. split; [done|]. split; [exact Hquiz|].
  split; [done|]. split; [done|].
  set (qs' := <[wrapped (length qs) c := Original.with_solution q]> qs) in *.
  assert (Hlen : length qs' = length qs) by apply length_insert.
  assert (Hc' : - Z.of_nat (length qs') ≤ c < Z.of_nat (length qs')) by (by rewrite Hlen).
  assert (Hq' : qs' !! wrapped (length qs') c = Some (Original.with_solution q)).
  { rewrite Hlen. apply list_lookup_insert_eq. by apply wrapped_lt. }
  split.
  - destruct (original_quiz_ready now' _ _ c sc ans _ Hr' Hc') as (q2 & r2 & Hq2 & _ & Hquiz2 & _).
    rewrite Hq' in Hq2. injection Hq2 as <-.
    rewrite Hquiz2. cbn [snd]. unfold qs'.
    rewrite length_insert, with_solution_idem, !list_insert_insert_eq.
    reflexivity.
  - destruct (original_check_answer_ready sel now'' _ _ c sc ans _ Hr' Hc')
      as (q3 & body & s'' & Hq3 & Hcheck & Hcorr & _ & _ & Hsol & _).
    rewrite Hq' in Hq3. injection Hq3 as <-.
    exists body, s''. split; [done|]. split; [by apply Hsol|].
    by rewrite Hcorr, with_solution_keeps_answer.
Qed.



Lemma original_set_question_wraps_witness :
  ∃ q s',
    Original.set_question (Some 0) original_five
      = (Ok (Original.QuestionJson q 5), s') ∧
    five_questions !! 4%nat = Some q ∧
    Original.current_question s' = Some (-1).
Proof.
  destruct (original_set_question_wraps 0 original_five five_questions 0 0 _ _
              (Qc_of_Z 1700000350) original_five_ready) as (_ & Hin).
  destruct Hin as (q & s' & Hq & Hset & Hr' & _); [simpl; lia|].
  exists q, s'. split; [exact Hset|]. split; [exact Hq|].
  destruct Hr' as (_ & Hcur & _). exact Hcur.
Defined.

Lemma original_in_order_score_witness :
  Original.score
    (submit_all (Some ∘ correct_answer <$> five_questions) (Qc_of_Z 1700000350) original_five)
  = Some 5.
Proof.
  destruct (original_in_order_score (Qc_of_Z 1700000350)
              (Some ∘ correct_answer <$> five_questions) original_five five_questions
              0 _ _ original_five_ready) as ((_ & _ & Hsc & _) & _ & Hhits);
    [done|reflexivity|].
  rewrite Hsc, Hhits. reflexivity.
Defined.

Lemma original_submissions_invariant_witness :
  Forall (λ o, ∃ body, o = Ok (Original.JsonChecked body))
    (submit_outcomes [Some "A"; None; Some "A"]%string (Qc_of_Z 1700000350) original_five) ∧
  ∃ c' sc' ans',
    ready (submit_all [Some "A"; None; Some "A"]%string (Qc_of_Z 1700000350) original_five)
      five_questions c' sc' ans' (replicate 5 false) ∧
    0 ≤ sc' ≤ 3.
Proof.
  destruct (original_submissions_invariant (Qc_of_Z 1700000350)
              [Some "A"; None; Some "A"]%string original_five five_questions 0 0 _ _
              original_five_ready) as [Hin _].
  destruct Hin as (Hall & _ & c' & sc' & ans' & Hr' & _ & Hsc & _); [simpl; lia|].
  split; [exact Hall|]. exists c', sc', ans'. split; [exact Hr'|exact Hsc].
Defined.

(** X21.  [results] of the earlier application shows the stored score, the
    number of questions and the dark mode, and empties the session: after it
    [check_answer] and [set_question] answer "Session expired", [quiz] and
    [results] redirect to the index, and the dark mode is off again, so that
    toggling it switches it on. *)
Theorem original_results_end_session timed_out timed_out' now sel n s qs :
  Original.questions s = Some qs →
  let r := Original.results timed_out s in
  r.1 = Ok (Original.RenderResults (default 0 (Original.score s)) (length qs) timed_out
              (default false (Original.dark_mode s))) ∧
  r.2 = Original.empty_session ∧
  Original.check_answer sel now r.2 = (Ok (Original.Json400 "Session expired"), r.2) ∧
  Original.set_question n r.2 = (Ok (Original.Refused "Session expired"), r.2) ∧
  Original.quiz now r.2 = (Ok (Original.Moved "index"), r.2) ∧
  Original.results timed_out' r.2 = (Ok (Original.Redirect "index"), r.2) ∧
  (Original.toggle_dark_mode r.2).1 = Ok (Original.DarkModeJson true).
Proof.
  intros Hqs r. unfold r, Original.results. rewrite Hqs. simpl. by split_and!.
Qed.

Lemma original_results_end_session_witness :
  Original.results false original_five
  = (Ok (Original.RenderResults 0 5 false false), Original.empty_session) ∧
  Original.quiz (Qc_of_Z 1700000350) (Original.results false original_five).2
  = (Ok (Original.Moved "index"), Original.empty_session).
Proof.
  destruct (original_results_end_session false false (Qc_of_Z 1700000350) None None
              original_five five_questions eq_refl) as (Hout & Hs & _ & _ & Hquiz & _).
  split; [reflexivity|]. rewrite Hquiz. rewrite Hs. reflexivity.
Defined.

Lemma original_quiz_then_answer_witness :
  ∃ q r s',
    Original.quiz (Qc_of_Z 1700000350) original_five
    = (Ok (Original.QuizPage q 1 5 true false r (replicate 5 false)
             [true; false; false; false; false]), s') ∧
    (Original.quiz (Qc_of_Z 1700000360) s').2 = s'.
Proof.
  destruct (original_quiz_then_answer (Qc_of_Z 1700000350) (Qc_of_Z 1700000360)
              (Qc_of_Z 1700000370) None original_five five_questions 0 0 _ _
              original_five_ready)
    as (q & r & s' & t & Hq & Hquiz & _ & _ & Hagain & _); [simpl; lia|].
  exists (Original.with_solution q), r, s'. split; [exact Hquiz|exact Hagain].
Defined.

(** X22.  [toggle_dark_mode] answers the negated mode and leaves the
    running quiz as it is: [quiz] afterwards shows the same question in the
    new mode.  Toggling twice gives the mode back. *)
Theorem original_toggle_dark_mode now s qs c sc ans vis :
  ready s qs c sc ans vis →
  - Z.of_nat (length qs) ≤ c < Z.of_nat (length qs) →
  let dark := negb (default false (Original.dark_mode s)) in
  let s1 := (Original.toggle_dark_mode s).2 in
  (Original.toggle_dark_mode s).1 = Ok (Original.DarkModeJson dark) ∧
  ready s1 qs c sc ans vis ∧
  (∃ q r s2,
     Original.quiz now s1
     = (Ok (Original.QuizPage q (c + 1) (length qs)
              (default false (Original.timed_test s)) dark r ans
              (<[wrapped (length qs) c := true]> vis)), s2)) ∧
  (Original.toggle_dark_mode s1).1 = Ok (Original.DarkModeJson (negb dark)) ∧
  Original.dark_mode (Original.toggle_dark_mode s1).2
  = Some (default false (Original.dark_mode s)).
Proof.
  intros Hr Hc dark s1.
  assert (Hr1 : ready s1 qs c sc ans vis) by exact Hr.
  split; [reflexivity|]. split; [exact Hr1|]. split; [|split].
  - destruct (original_quiz_ready now s1 qs c sc ans vis Hr1 Hc) as (q & r & _ & _ & Hquiz & _).
    rewrite Hquiz. by eexists _, _, _.
  - reflexivity.
  - simpl. by rewrite negb_involutive.
Qed.

Lemma original_toggle_dark_mode_witness :
  (Original.toggle_dark_mode original_five).1 = Ok (Original.DarkModeJson true) ∧
  Original.dark_mode
    (Original.toggle_dark_mode (Original.toggle_dark_mode original_five).2).2 = Some false.
Proof.
  destruct (original_toggle_dark_mode (Qc_of_Z 1700000350) original_five five_questions
              0 0 _ _ original_five_ready) as (Hout & _ & _ & _ & Hback); [simpl; lia|].
  split; [exact Hout|exact Hback].
Defined.

(** X23.  The earlier application reports the time left but never
    enforces it: once the time of a timed test has run out, [check_answer]
    reports zero seconds left and still judges and counts the submission,
    and [quiz] still shows a question. *)
Theorem original_no_deadline sel now s qs c sc ans vis t0 per :
  ready s qs c sc ans vis →
  - Z.of_nat (length qs) ≤ c < Z.of_nat (length qs) →
  Original.timed_test s = Some true →
  Original.start_time s = Some t0 →
  Original.time_per_question s = Some per →
  (Qc_of_Z (Z.of_nat (length qs) * per) ≤ now - t0)%Qc →
  ∃ q body s',
    qs !! wrapped (length qs) c = Some q ∧
    Original.check_answer sel now s = (Ok (Original.JsonChecked body), s') ∧
    Original.time_left body = Some 0%Qc ∧
    Original.is_correct body = bool_decide (sel = Some (correct_answer q)) ∧
    Original.score s' = Some (sc + (if Original.is_correct body then 1 else 0)) ∧
    ∃ q' num flags flags' s'',
      Original.quiz now s'
      = (Ok (Original.QuizPage q' num (length qs) true
               (default false (Original.dark_mode s)) (Some 0%Qc) flags flags'), s'').
Proof.
  intros Hr Hc Htt Ht0 Hper Hlate.
  assert (Hzero : ∀ s0 : Original.Session,
            Original.timed_test s0 = Some true → Original.start_time s0 = Some t0 →
            Original.time_per_question s0 = Some per →
            Original.remaining now (length qs) s0 = Ok (Some 0%Qc)).
  { intros s0 H1 H2 H3. unfold Original.remaining. rewrite H1, H2, H3. simpl.
    do 2 f_equal. unfold Py.max0. rewrite bool_decide_eq_false_2; [done|].
    intros Hpos. apply (Qclt_not_le _ _ Hpos).
    apply (Qcplus_le_mono_r _ _ (now - t0)%Qc). ring_simplify. exact Hlate. }
  destruct (original_check_answer_ready sel now s qs c sc ans vis Hr Hc)
    as (q & body & s' & Hq & Hcheck & Hcorr & _ & _ & _ & Hscore & _ & _ & Hnext & Hleft
        & (Htt' & Ht0' & Hper' & Hdm' & _) & Hr').
  rewrite Hzero in Hleft by done. injection Hleft as Hleft.
  exists q, body, s'. split; [done|]. split; [done|]. split; [done|]. split; [done|].
  split; [rewrite <-Hscore; apply Hr'|].
  assert (Hc' : - Z.of_nat (length qs)
                ≤ (if bool_decide (c + 1 < Z.of_nat (length qs)) then c + 1 else c)
                < Z.of_nat (length qs)) by (case_bool_decide; lia).
  destruct (original_quiz_ready now s' qs _ _ _ _ Hr' Hc') as (q2 & r2 & _ & Hrem & Hquiz & _).
  rewrite Hzero in Hrem by congruence. injection Hrem as <-.
  rewrite Hquiz, Htt', Hdm', Htt. by eexists _, _, _, _, _.
Qed.

Lemma original_no_deadline_witness :
  ∃ body s',
    Original.check_answer (Some "A"%string) (Qc_of_Z 1700000500) original_five
    = (Ok (Original.JsonChecked body), s') ∧
    Original.time_left body = Some 0%Qc ∧
    Original.score s' = Some 1.
Proof.
  destruct (original_no_deadline (Some "A"%string) (Qc_of_Z 1700000500) original_five
              five_questions 0 0 _ _ (Qc_of_Z 1700000100) 60 original_five_ready)
    as (q & body & s' & Hq & Hcheck & Hleft & Hcorr & Hscore & _);
    [simpl; lia|reflexivity|reflexivity|reflexivity|by vm_compute|].
  injection Hq as <-. exists body, s'. split; [exact Hcheck|]. split; [exact Hleft|].
  rewrite Hscore, Hcorr. reflexivity.
Defined.


(** ** Signing in during a quiz *)

(** X24.  Signing in or signing up while a quiz runs keeps the quiz: the
    questions, the ledger, the start time and the guest id stay, only the
    user id is set.  [results] afterwards shows the score of the answers
    given before, names the user, and writes the report under the user's
    id. *)
Theorem sign_in_keeps_quiz (new_account : bool) address u hook s qs now ok :
  user_id s = None →
  questions s = Some qs →
  uid u ≠ ""%string →
  let r := if new_account then PostSignup address (AuthFound u)
           else PostLogin address (AuthFound u) in
  let h := handle hook r s in
  let h' := handle (AuthFound u) (GetResults now ok) (sess h) in
  out h = Ok (Redirect "index") ∧
  user_id (sess h) = Some (uid u) ∧
  guest_id (sess h) = guest_id s ∧
  questions (sess h) = Some qs ∧
  user_answers (sess h) = user_answers s ∧
  start_time (sess h) = start_time s ∧
  timed_test (sess h) = timed_test s ∧
  ∃ rep,
    out h' = Ok (RenderResults (n_correct (tally qs (default ∅ (user_answers s))))
                   (Z.of_nat (length qs)) rep) ∧
    student_name rep = email u ∧
    calls h' = AuthGetUser (uid u) :: FirestoreAdd (uid u) rep ::
               (if ok then [FirestoreSet (uid u) (email u)] else []).
Proof.
  intros Hu Hqs Hne r h h'.
  assert (Hh : h = {| out := Ok (Redirect "index"); sess := set_user_id (Some (uid u)) s;
                      calls := calls h |}).
  { unfold h, handle, load_logged_in_user, r. rewrite Hu. by destruct new_account. }
  rewrite Hh. cbn [out sess]. split_and!; try done.
  set (s1 := set_user_id (Some (uid u)) s).
  assert (Hqs1 : questions s1 = Some qs) by done.
  destruct (results_active {| g_user := Some u; g_guest_id := guest_id s |} now ok s1 qs Hqs1)
    as (rep & Hres & _).
  exists rep.
  assert (Hh' : h' = {| out := out (results {| g_user := Some u; g_guest_id := guest_id s |}
                                      now ok s1);
                        sess := sess (results {| g_user := Some u; g_guest_id := guest_id s |}
                                        now ok s1);
                        calls := AuthGetUser (uid u) ::
                                 calls (results {| g_user := Some u; g_guest_id := guest_id s |}
                                          now ok s1) |}).
  { unfold h'. rewrite Hh. cbn [sess]. fold s1. unfold handle, load_logged_in_user.
    cbn [user_id s1 set_user_id truthy]. rewrite bool_decide_eq_false_2 by done. done. }
  rewrite Hh', Hres. cbn [out calls g_user]. split; [done|]. split; [|done].
  unfold results in Hres. rewrite Hqs1 in Hres.
  destruct (accuracy_of _ _); [|done]. by simplify_eq/=.
Qed.

Lemma sign_in_keeps_quiz_witness :
  questions (sess (handle AuthNotFound (PostLogin "ada@example.org" (AuthFound sample_user))
                     sample_answered)) = Some sample_questions ∧
  user_id (sess (handle AuthNotFound (PostLogin "ada@example.org" (AuthFound sample_user))
                   sample_answered)) = Some "u1"%string.
Proof.
  destruct (sign_in_keeps_quiz false "ada@example.org" sample_user AuthNotFound
              sample_answered sample_questions (Qc_of_Z 1700000200) true)
    as (_ & Hu & _ & Hq & _); [reflexivity|reflexivity|done|].
  split; [exact Hq|exact Hu].
Defined.
